(** * BackItUp: the backup job execution and queuing core

    A shallow embedding of [utils] ([validate_schema_paths],
    [sanitize_filename]), of [worker.BackupWorker] ([run], [cancel],
    [terminate_process]), of [schema_manager.SchemaManager] and of the queue
    handling and the edit tab of [main.MainWindow], followed by the
    properties of the design document checked against them and by further
    properties of the code.

    Conventions.
    - Python text is a [string]; a character is a code point below 256.
    - What a job does is a trace: the signals it emits and the subprocess it
      launches, in program order.
    - What the operating system, the file system, the rsync subprocess and
      the Qt binding answer is an explicit argument of the function that
      asks; an answer can be an exception, and a read can fail to return.
    - A function that can raise returns a sum: [inl] holds the exception
      that leaves it. *)

From Stdlib Require Import ZArith NArith String Ascii List DecimalString Lia.
From stdpp Require Import base option list strings gmap.

Local Open Scope string_scope.
Local Open Scope Z_scope.

(** ** Python values and text *)

Module Py.

(** The values a YAML document loads to (floats and dates are left out). *)
#[warnings="-register-all"]
Inductive pyval : Type :=
  | VNone
  | VBool (b : bool)
  | VInt (n : Z)
  | VStr (s : string)
  | VList (items : list pyval)
  | VDict (entries : list (pyval * pyval)).

(** Exceptions, by the classes the [except] clauses of the code tell apart. *)
Inductive pyexn : Type :=
  | AttributeError (msg : string)
  | FileNotFoundError (msg : string)
  | OtherException (msg : string).

(** [str(e)] *)
Definition exn_text (e : pyexn) : string :=
  match e with
  | AttributeError m | FileNotFoundError m | OtherException m => m
  end.

Definition is_FileNotFoundError (e : pyexn) : bool :=
  match e with FileNotFoundError _ => true | _ => false end.

(** [bool(v)] *)
Definition truthy (v : pyval) : bool :=
  match v with
  | VNone => false
  | VBool b => b
  | VInt n => negb (n =? 0)
  | VStr s => negb (String.eqb s "")
  | VList l => match l with [] => false | _ => true end
  | VDict d => match d with [] => false | _ => true end
  end.

(** [isinstance(v, str)] and [isinstance(v, list)] *)
Definition is_str (v : pyval) : bool :=
  match v with VStr _ => true | _ => false end.

Definition is_list (v : pyval) : bool :=
  match v with VList _ => true | _ => false end.

(** [type(v).__name__] *)
Definition type_name (v : pyval) : string :=
  match v with
  | VNone => "NoneType"
  | VBool _ => "bool"
  | VInt _ => "int"
  | VStr _ => "str"
  | VList _ => "list"
  | VDict _ => "dict"
  end.

(** [d.get(key, default)] for a string [key]: only a [str] key compares equal
    to it. *)
Fixpoint dict_get (d : list (pyval * pyval)) (key : string) (default : pyval)
  : pyval :=
  match d with
  | [] => default
  | (VStr k, v) :: rest =>
      if String.eqb k key then v else dict_get rest key default
  | _ :: rest => dict_get rest key default
  end.

(** [str(n)] for an integer. *)
Definition str_of_Z (n : Z) : string := NilZero.string_of_int (Z.to_int n).

(** [sep.join(parts)] *)
Definition join (sep : string) (parts : list string) : string :=
  String.concat sep parts.

(** Characters for which [str.isspace] holds, which are also the ones [\s]
    matches and [str.strip] removes: TAB LF VT FF CR, FS GS RS US, SPACE,
    NEL and NBSP. *)
Definition is_space (c : ascii) : bool :=
  let n := N_of_ascii c in
  ((9 <=? n) && (n <=? 13) || (28 <=? n) && (n <=? 32)
   || (n =? 133) || (n =? 160))%N.

(** Characters [\d] matches below code point 256: the ASCII digits. *)
Definition is_digit (c : ascii) : bool :=
  let n := N_of_ascii c in ((48 <=? n) && (n <=? 57))%N.

Definition digit_value (c : ascii) : Z := Z.of_N (N_of_ascii c) - 48.

(** [int(digits)] for a run of decimal digits. *)
Definition int_of_digits (ds : list ascii) : Z :=
  fold_left (fun acc c => 10 * acc + digit_value c) ds 0.

Fixpoint lstrip_chars (cs : list ascii) : list ascii :=
  match cs with
  | c :: rest => if is_space c then lstrip_chars rest else cs
  | [] => []
  end.

Definition strip_chars (cs : list ascii) : list ascii :=
  rev (lstrip_chars (rev (lstrip_chars cs))).

(** [s.strip()] *)
Definition strip (s : string) : string :=
  string_of_list_ascii (strip_chars (list_ascii_of_string s)).

End Py.

Export Py.

(** ** utils.py *)

Module Utils.

Section Validate.

(** [Path(p).exists()] on the file system as it is when the call is made:
    its answer, or the [OSError] it raises (a name that is too long, a
    directory that may not be searched). *)
Variable path_exists : string -> pyexn + bool.

(** [str(v)] for a value that is not a [str] (a [str] formats as itself). *)
Variable str_other : pyval -> string.

Definition py_str (v : pyval) : string :=
  match v with VStr s => s | _ => str_other v end.

(** The problem entry the destination contributes, or what the test of its
    existence raises. *)
Definition destination_problems (destination : pyval)
  : pyexn + list string :=
  if negb (truthy destination) || negb (is_str destination)
  then inr ["Destination path is missing or invalid"]
  else
    match path_exists (py_str destination) with
    | inr true => inr []
    | inr false => inr ["Destination: " +:+ py_str destination]
    | inl e => inl e
    end.

(** The problem entry one element of [sources] contributes, or what the
    test of its existence raises. *)
Definition source_problems (src : pyval) : pyexn + list string :=
  match src with
  | VStr s =>
      match path_exists s with
      | inr true => inr []
      | inr false => inr ["Source: " +:+ s]
      | inl e => inl e
      end
  | _ => inr ["Source: " +:+ py_str src]
  end.

(** The loop over [sources]: it ends at the first test that raises. *)
Fixpoint sources_problems (sources : list pyval) : pyexn + list string :=
  match sources with
  | [] => inr []
  | src :: rest =>
      match source_problems src with
      | inl e => inl e
      | inr problems =>
          match sources_problems rest with
          | inl e => inl e
          | inr more => inr (problems ++ more)%list
          end
      end
  end.

(** [validate_schema_paths(schema_data)]: the pair it returns, or the
    exception that leaves it: the one [schema_data.get] raises on a
    non-empty value without [get], or the one a test of existence raises.
    The destination is tested before the sources. *)
Definition validate_schema_paths (schema_data : pyval)
  : pyexn + (bool * list string) :=
  if negb (truthy schema_data) then inr (false, ["Schema data is empty"])
  else
    match schema_data with
    | VDict d =>
        let sources := dict_get d "sources" (VList []) in
        let destination := dict_get d "destination" VNone in
        let '(invalid_paths, sources) :=
          match sources with
          | VList l => ([], l)
          | _ => (["Sources format is invalid"], [])
          end in
        match destination_problems destination with
        | inl e => inl e
        | inr of_destination =>
            match sources_problems sources with
            | inl e => inl e
            | inr of_sources =>
                let invalid_paths :=
                  (invalid_paths ++ of_destination ++ of_sources)%list in
                inr (match invalid_paths with [] => true | _ => false end,
                     invalid_paths)
            end
        end
    | _ =>
        inl (AttributeError ("'" +:+ type_name schema_data
                             +:+ "' object has no attribute 'get'"))
    end.

End Validate.

End Utils.

(** ** worker.py *)

Module Worker.

(** The signals of [BackupWorker], with what the slots receive. The
    percentage of [progressUpdated] is the [int] of [Signal(str, int)], a
    32-bit C int. *)
Inductive signal : Type :=
  | progressUpdated (schema_name : string) (percentage : Z)
  | logMessage (schema_name message : string)
  | jobFinished (schema_name : string) (success : bool) (status_message : string)
  | diskSpaceError (schema_name error_message : string)
  | validationError (schema_name error_message : string).

(** What [run] does that the outside can see, in program order: a signal
    emitted, or the rsync subprocess created by [subprocess.Popen]. *)
Inductive effect : Type :=
  | Emit (s : signal)
  | Popen (rsync_command : list string).

(** The fields of a [BackupWorker]. [schema_data] holds the entries of the
    schema dictionary; [_process] is [Some tt] while it refers to the [Popen]
    object and [None] otherwise. *)
Record worker : Type := mkWorker {
  schema_data : list (pyval * pyval);
  schema_name : string;
  _is_cancelled : bool;
  _process : option unit
}.

(** [BackupWorker(schema_data)]. [None] stands for the exception
    [__init__] raises on an empty value or one without the key
    [schema_name]; the signals carry the name as a [str], and a name of
    another type is not modelled. *)
Definition BackupWorker (data : pyval) : option worker :=
  match data with
  | VDict d =>
      match dict_get d "schema_name" VNone with
      | VStr name => Some (mkWorker d name false None)
      | _ => None
      end
  | _ => None
  end.

Definition set_cancelled (w : worker) : worker :=
  mkWorker (schema_data w) (schema_name w) true (_process w).

Definition set_process (p : option unit) (w : worker) : worker :=
  mkWorker (schema_data w) (schema_name w) (_is_cancelled w) p.

(** [terminate_process()]: when [_process] is set and [poll()] answers that
    the subprocess is still alive, SIGTERM is sent and the reference is
    cleared. [alive] is what [poll()] answers at that moment. *)
Definition terminate_process (alive : bool) (w : worker) : worker :=
  match _process w with
  | Some _ => if alive then set_process None w else w
  | None => w
  end.

(** [cancel()], called by the control thread. *)
Definition cancel (alive : bool) (w : worker) : worker :=
  terminate_process alive (set_cancelled w).

(** A call of [cancel()] that may fall between two steps of [run]:
    [None] when there is none, [Some alive] when there is one. *)
Definition cancel_call (c : option bool) (w : worker) : worker :=
  match c with
  | Some alive => cancel alive w
  | None => w
  end.

(** *** Parsing a line of rsync output *)

(** The longest prefix of characters satisfying [p], and the rest. *)
Fixpoint span (p : ascii -> bool) (cs : list ascii)
  : list ascii * list ascii :=
  match cs with
  | c :: rest =>
      if p c then let '(run, tl) := span p rest in (c :: run, tl)
      else ([], cs)
  | [] => ([], [])
  end.

(** The pattern [\s+(\d+)%\s+] anchored at the head of [cs]: the digits of
    group 1. The character classes are disjoint and exclude [%], so the
    greedy runs are the only way to match. *)
Definition match_here (cs : list ascii) : option (list ascii) :=
  match span is_space cs with
  | ([], _) => None
  | (_ :: _, after_ws) =>
      match span is_digit after_ws with
      | ([], _) => None
      | ((_ :: _) as ds, "%"%char :: c :: _) =>
          if is_space c then Some ds else None
      | _ => None
      end
  end.

(** [re.search(r'\s+(\d+)%\s+', line)]: the leftmost position that matches. *)
Fixpoint re_search (cs : list ascii) : option (list ascii) :=
  match match_here cs with
  | Some ds => Some ds
  | None =>
      match cs with
      | _ :: rest => re_search rest
      | [] => None
      end
  end.

(** The longest run of digits [int] converts, as Python ships
    ([sys.int_info.default_max_str_digits]); leading zeros count. *)
Definition int_max_str_digits : nat := 4300.

(** [int(match.group(1))]: the integer, or the [ValueError] of a run of
    digits that is too long. *)
Definition int_of_group (ds : list ascii) : pyexn + Z :=
  if (int_max_str_digits <? length ds)%nat then
    inl (OtherException
           ("Exceeds the limit (4300 digits) for integer string conversion: value has "
            +:+ str_of_Z (Z.of_nat (length ds))
            +:+ " digits; use sys.set_int_max_str_digits() to increase the limit"))
  else inr (int_of_digits ds).

(** [int(match.group(1))] when the line matches. *)
Definition parse_progress (line : string) : option (pyexn + Z) :=
  option_map int_of_group (re_search (list_ascii_of_string line)).

(** The values of a C int. *)
Definition fits_c_int (n : Z) : bool :=
  (-2147483648 <=? n) && (n <=? 2147483647).

(** What [emit] does with a percentage that is no C int, an answer of
    PySide6 and not of this code: the value the slot receives, if any, and
    the exception [emit] raises, if any. *)
Definition conversion : Type := Z -> option Z * option pyexn.

(** The body of [if line:] for a non-empty line: the signals it emits, and
    the exception that ends it, if any. *)
Definition process_line (c_int : conversion) (name line : string)
  : list signal * option pyexn :=
  let log := logMessage name (strip line) in
  match parse_progress line with
  | None => ([log], None)
  | Some (inl e) => ([log], Some e)
  | Some (inr progress) =>
      if fits_c_int progress then ([log; progressUpdated name progress], None)
      else
        let '(delivered, raised) := c_int progress in
        (log :: match delivered with
                | Some percentage => [progressUpdated name percentage]
                | None => []
                end,
         raised)
  end.

(** *** The environment of one run *)

(** What a call of [self._process.stdout.readline()] comes to. It returns a
    line (the empty string at the end of the output), or raises, or never
    returns: rsync writes nothing more to its output and does not exit, as
    when it waits for room in the pipe of its error stream, which [run]
    reads only after the loop. *)
Inductive read : Type :=
  | Line (line : string)
  | ReadRaises (e : pyexn)
  | Blocks.

(** One turn of the [while True] loop, as the worker thread meets it. *)
Record iteration : Type := mkIteration {
  (** [cancel()] called before [_is_cancelled] is read at the top *)
  cancel_before : option bool;
  (** what [self._process.stdout.readline()] comes to *)
  readline : read;
  (** [cancel()] called while [readline] waits, when it returns *)
  cancel_during : option bool;
  (** [self._process.poll() is not None], when it is evaluated *)
  exited : bool
}.

(** Everything [run] asks of the outside. When [iterations] is used up the
    subprocess has closed its output and exited: [readline] returns the empty
    string and [poll()] the exit status. *)
Record environment : Type := mkEnvironment {
  (** [cancel()] called before the subprocess is created *)
  cancel_preflight : bool;
  (** [shutil.disk_usage(destination).free], or what the call raises *)
  disk_usage : pyexn + N;
  (** [None] when [subprocess.Popen] succeeds, else what it raises *)
  popen : option pyexn;
  iterations : list iteration;
  (** the conversion of a percentage that is no C int *)
  c_int : conversion;
  (** [self._process.stderr.read()] *)
  stderr_output : string;
  (** [self._process.wait()] *)
  return_code : Z;
  (** [cancel()] called after the loop is left, before the flag is read again *)
  cancel_late : bool
}.

(** [f"{free / (1024*1024):.2f}"]: the quotient is exact in binary floating
    point for a byte count below 2^53, and the format rounds it to two
    decimals, ties to even. *)
Definition format_mb (free : N) : string :=
  let n := Z.of_N free * 100 in
  let q := n / 1048576 in
  let r := n mod 1048576 in
  let h := if 2 * r <? 1048576 then q
           else if 1048576 <? 2 * r then q + 1
           else if Z.even q then q else q + 1 in
  let frac := h mod 100 in
  str_of_Z (h / 100) +:+ "." +:+
  (if frac <? 10 then "0" +:+ str_of_Z frac else str_of_Z frac).

Definition free_space_threshold : N := 100 * 1024 * 1024.

(** How the [while True] loop is left. *)
Inductive loop_exit : Type :=
  | Break (w : worker)      (** [break]: the subprocess has finished *)
  | Return                  (** [return] after the cancelled event *)
  | Raise (e : pyexn)       (** an exception on its way to the handlers *)
  | Hang.                   (** never: [readline] does not return *)

Definition cancelled_event (name : string) : effect :=
  Emit (jobFinished name false "Cancelled").

(** The [while True] loop of [run]. *)
Fixpoint monitor (conv : conversion) (w : worker) (its : list iteration)
  : list effect * loop_exit :=
  match its with
  | [] =>
      if _is_cancelled w then ([cancelled_event (schema_name w)], Return)
      else match _process w with
           | Some _ => ([], Break w)
           | None =>
               ([], Raise (AttributeError
                             "'NoneType' object has no attribute 'stdout'"))
           end
  | it :: rest =>
      let w := cancel_call (cancel_before it) w in
      if _is_cancelled w then ([cancelled_event (schema_name w)], Return)
      else
        match _process w with
        | None =>
            ([], Raise (AttributeError
                          "'NoneType' object has no attribute 'stdout'"))
        | Some _ =>
            match readline it with
            | ReadRaises e => ([], Raise e)
            | Blocks => ([], Hang)
            | Line line =>
                let w := cancel_call (cancel_during it) w in
                if String.eqb line "" then
                  match _process w with
                  | None =>
                      ([], Raise (AttributeError
                                    "'NoneType' object has no attribute 'poll'"))
                  | Some _ =>
                      if exited it then ([], Break w) else monitor conv w rest
                  end
                else
                  let '(emitted, raised) :=
                    process_line conv (schema_name w) line in
                  match raised with
                  | Some e => (map Emit emitted, Raise e)
                  | None =>
                      let '(tr, out) := monitor conv w rest in
                      ((map Emit emitted ++ tr)%list, out)
                  end
            end
        end
  end.

(** The two [except] clauses around the execution of rsync. *)
Definition handle_exception (name : string) (e : pyexn) : list effect :=
  if is_FileNotFoundError e
  then [Emit (jobFinished name false
     "rsync command not found. Please ensure rsync is installed and in your PATH.")]
  else [Emit (jobFinished name false
     ("An unexpected error occurred during backup: " +:+ exn_text e))].

(** What follows the loop once the subprocess has finished. *)
Definition after_loop (w : worker) (env : environment) : list effect :=
  let name := schema_name w in
  match _process w with
  | None =>
      handle_exception name
        (AttributeError "'NoneType' object has no attribute 'stderr'")
  | Some _ =>
      let err := stderr_output env in
      let drained :=
        if String.eqb err "" then []
        else [Emit (logMessage name ("STDERR: " +:+ strip err))] in
      let w := if cancel_late env then cancel false w else w in
      (drained ++
       if _is_cancelled w then [cancelled_event name]
       else if return_code env =? 0 then
         [Emit (progressUpdated name 100);
          Emit (jobFinished name true "Completed")]
       else if return_code env =? 24 then
         let warning_msg :=
           "Completed with warnings: Some files changed during transfer." in
         if String.eqb err "" then
           [Emit (progressUpdated name 100);
            Emit (jobFinished name true warning_msg)]
         else
           [Emit (logMessage name ("Warning: " +:+ strip err));
            Emit (progressUpdated name 100);
            Emit (jobFinished name true
                    (warning_msg +:+ " Details: " +:+ strip err))]
       else
         let error_msg :=
           "rsync failed with return code "
           +:+ str_of_Z (return_code env) +:+ "." in
         if String.eqb err "" then [Emit (jobFinished name false error_msg)]
         else [Emit (jobFinished name false
                       (error_msg +:+ " Stderr: " +:+ strip err))])%list
  end.

Section Run.

Variable path_exists : string -> pyexn + bool.
Variable str_other : pyval -> string.

(** [rsync_command] for a schema with the given entries. [sources] is a list
    whenever the command is built: validation has returned [True]. *)
Definition rsync_command (d : list (pyval * pyval)) : list string :=
  let source_paths :=
    match dict_get d "sources" (VList []) with
    | VList l => map (Utils.py_str str_other) l
    | _ => []
    end in
  let dest_path := Utils.py_str str_other (dict_get d "destination" VNone) in
  (["rsync"; "-a"; "--info=progress2"; "--no-i-r"]
     ++ source_paths ++ [dest_path])%list.

(** The execution of rsync: the [try] block with its handlers. *)
Definition execute (w : worker) (env : environment) : list effect :=
  let name := schema_name w in
  match popen env with
  | Some e => handle_exception name e
  | None =>
      let w := set_process (Some tt) w in
      let '(tr, out) := monitor (c_int env) w (iterations env) in
      (Popen (rsync_command (schema_data w)) :: tr ++
       match out with
       | Return => []
       | Hang => []
       | Raise e => handle_exception name e
       | Break w => after_loop w env
       end)%list
  end.

(** The disk space check of [run], then the execution. *)
Definition check_space_then_execute (w : worker) (env : environment)
  : list effect :=
  let name := schema_name w in
  let destination :=
    Utils.py_str str_other (dict_get (schema_data w) "destination" VNone) in
  match disk_usage env with
  | inr free =>
      if (free <? free_space_threshold)%N then
        [Emit (diskSpaceError name
                 ("Insufficient disk space at destination '" +:+ destination
                  +:+ "'. Free: " +:+ format_mb free +:+ " MB"));
         Emit (jobFinished name false "Insufficient disk space")]
      else
        Emit (logMessage name
                ("Running: " +:+ join " " (rsync_command (schema_data w))))
        :: execute w env
  | inl e =>
      if is_FileNotFoundError e then
        [Emit (validationError name
                 ("Destination directory '" +:+ destination
                  +:+ "' not found for disk space check."));
         Emit (jobFinished name false "Destination not found")]
      else
        [Emit (diskSpaceError name
                 ("Error checking disk space for '" +:+ destination
                  +:+ "': " +:+ exn_text e));
         Emit (jobFinished name false "Disk space check error")]
  end.

(** [BackupWorker.run()]: what it emits and launches, in order. The call of
    [validate_schema_paths] stands outside every [try]: an exception it
    raises leaves [run], which then emits nothing more. A loop that hangs
    emits nothing more either. *)
Definition run (w : worker) (env : environment) : list effect :=
  let name := schema_name w in
  let w := if cancel_preflight env then cancel false w else w in
  Emit (logMessage name ("Starting backup for '" +:+ name +:+ "'..."))
  :: match Utils.validate_schema_paths path_exists str_other
             (VDict (schema_data w)) with
     | inl _ => []
     | inr (false, invalid_paths) =>
         [Emit (validationError name
                  ("Path validation failed before starting: "
                   +:+ join ", " invalid_paths));
          Emit (jobFinished name false "Path validation failed")]
     | inr (true, _) => check_space_then_execute w env
     end.

End Run.

(** The signals of a trace, and its terminal events. *)
Definition signals (tr : list effect) : list signal :=
  flat_map (fun e => match e with Emit s => [s] | Popen _ => [] end) tr.

Definition is_terminal (s : signal) : bool :=
  match s with jobFinished _ _ _ => true | _ => false end.

Definition launches (tr : list effect) : list (list string) :=
  flat_map (fun e => match e with Popen c => [c] | Emit _ => [] end) tr.

End Worker.

(** ** schema_manager.py *)

Module SchemaManager.

(** [key in d] and [d[key] = v] for a dictionary and a string key. *)
Fixpoint dict_has (d : list (pyval * pyval)) (key : string) : bool :=
  match d with
  | [] => false
  | (VStr k, _) :: rest => String.eqb k key || dict_has rest key
  | _ :: rest => dict_has rest key
  end.

Fixpoint dict_set (d : list (pyval * pyval)) (key : string) (v : pyval)
  : list (pyval * pyval) :=
  match d with
  | [] => [(VStr key, v)]
  | (VStr k, old) :: rest =>
      if String.eqb k key then (VStr k, v) :: rest
      else (VStr k, old) :: dict_set rest key v
  | entry :: rest => entry :: dict_set rest key v
  end.

(** The body of the loop of [load_schemas] for one file: the schema name and
    the annotated data it stores, or [None] when the file is skipped (keys
    missing, or an exception caught). A name that is not a [str] is not
    modelled. *)
Definition load_file (path_exists : string -> pyexn + bool)
    (str_other : pyval -> string) (filepath : string) (content : pyval)
  : option (string * pyval) :=
  match content with
  | VDict d =>
      if truthy content && dict_has d "schema_name" && dict_has d "sources"
         && dict_has d "destination"
      then
        match dict_get d "schema_name" VNone,
              Utils.validate_schema_paths path_exists str_other content with
        | VStr name, inr (is_valid, invalid_paths) =>
            let d := dict_set d "_is_valid" (VBool is_valid) in
            let d := dict_set d "_invalid_paths"
                       (VList (map VStr invalid_paths)) in
            let d := dict_set d "_filepath" (VStr filepath) in
            Some (name, VDict d)
        | _, _ => None
        end
      else None
  | _ => None
  end.

(** [load_schemas()] over the parsed files of the configuration directory,
    in the order [glob] yields them. *)
Definition load_schemas (path_exists : string -> pyexn + bool)
    (str_other : pyval -> string) (files : list (string * pyval))
  : gmap string pyval :=
  fold_left
    (fun schemas file =>
       match load_file path_exists str_other file.1 file.2 with
       | Some (name, data) => <[name := data]> schemas
       | None => schemas
       end)
    files ∅.

End SchemaManager.

(** ** main.py: the queue of [MainWindow] *)

Module Main.

(** [SchemaListItemWidget]: the fields the queue logic reads. *)
Record widget : Type := mkWidget {
  widget_name : string;
  is_valid : bool
}.

(** A [BackupWorker] thread object: its fields, [isRunning()], and whether
    its signals are still connected to the window's slots. *)
Record thread : Type := mkThread {
  th_worker : Worker.worker;
  isRunning : bool;
  connected : bool
}.

(** [MainWindow] with what surrounds it. [current_worker] refers to a thread
    by its position in [threads], the workers created so far.
    [finished_posted] holds the [finished] signals the worker threads have
    emitted and the event loop has not delivered yet; [single_shots] the
    delays passed to [QTimer.singleShot]; [config_dir] the parsed schema
    files on disk. *)
Record window : Type := mkWindow {
  schemas : gmap string pyval;
  backup_queue : list string;
  current_worker : option nat;
  threads : list thread;
  finished_posted : list nat;
  single_shots : list Z;
  config_dir : list (string * pyval)
}.

Definition with_schemas (m : gmap string pyval) (s : window) : window :=
  mkWindow m (backup_queue s) (current_worker s) (threads s)
           (finished_posted s) (single_shots s) (config_dir s).

Definition with_queue (q : list string) (s : window) : window :=
  mkWindow (schemas s) q (current_worker s) (threads s)
           (finished_posted s) (single_shots s) (config_dir s).

Definition with_current (c : option nat) (s : window) : window :=
  mkWindow (schemas s) (backup_queue s) c (threads s)
           (finished_posted s) (single_shots s) (config_dir s).

Definition with_threads (ts : list thread) (s : window) : window :=
  mkWindow (schemas s) (backup_queue s) (current_worker s) ts
           (finished_posted s) (single_shots s) (config_dir s).

Definition with_posted (p : list nat) (s : window) : window :=
  mkWindow (schemas s) (backup_queue s) (current_worker s) (threads s)
           p (single_shots s) (config_dir s).

Definition with_config_dir (files : list (string * pyval)) (s : window)
  : window :=
  mkWindow (schemas s) (backup_queue s) (current_worker s) (threads s)
           (finished_posted s) (single_shots s) files.

(** [QTimer.singleShot(ms, self.process_backup_queue)] *)
Definition singleShot (ms : Z) (s : window) : window :=
  mkWindow (schemas s) (backup_queue s) (current_worker s) (threads s)
           (finished_posted s) (single_shots s ++ [ms]) (config_dir s).

(** [self.current_worker.isRunning()] for the thread at position [i]. *)
Definition thread_running (s : window) (i : nat) : bool :=
  match threads s !! i with
  | Some t => isRunning t
  | None => false
  end.

(** [load_and_display_schemas()]: the table of schemas is read again from
    the files. *)
Definition load_and_display_schemas (path_exists : string -> pyexn + bool)
    (str_other : pyval -> string) (s : window) : window :=
  with_schemas
    (SchemaManager.load_schemas path_exists str_other (config_dir s)) s.

(** [queue_selected_backup()], given [selectedItems()] as item widgets. *)
Definition queue_selected_backup (selected_items : list widget) (s : window)
  : window :=
  match selected_items with
  | [] => s
  | item_widget :: _ =>
      let schema_name := widget_name item_widget in
      if negb (is_valid item_widget) then s
      else if bool_decide (schema_name ∈ backup_queue s) then s
      else with_queue (backup_queue s ++ [schema_name]) s
  end.

(** [start_backup(schema_data)]: a worker is created, stored in
    [current_worker], connected and started. When the constructor raises,
    the slot ends there. *)
Definition start_backup (schema_data : pyval) (s : window) : window :=
  match Worker.BackupWorker schema_data with
  | Some w =>
      with_current (Some (length (threads s)))
        (with_threads (threads s ++ [mkThread w true true]) s)
  | None => s
  end.

(** [process_backup_queue()] *)
Definition process_backup_queue (s : window) : window :=
  if match current_worker s with
     | None => true
     | Some i => negb (thread_running s i)
     end
  then
    match backup_queue s with
    | schema_name :: rest =>
        let s := with_queue rest s in
        match schemas s !! schema_name with
        | Some schema_data => start_backup schema_data s
        | None => singleShot 10 s
        end
    | [] => s
    end
  else s.

(** [cancel_current_backup()]; [alive] is what [poll()] answers inside
    [terminate_process]. *)
Definition cancel_current_backup (alive : bool) (s : window) : window :=
  match current_worker s with
  | Some i =>
      match threads s !! i with
      | Some t =>
          if isRunning t then
            with_threads
              (<[i := mkThread (Worker.cancel alive (th_worker t))
                               (isRunning t) (connected t)]> (threads s)) s
          else s
      | None => s
      end
  | None => s
  end.

(** [worker_thread_finished()]: the slot connected to the [finished] signal
    of every worker. *)
Definition worker_thread_finished (s : window) : window :=
  let s :=
    match current_worker s with
    | Some i =>
        with_current None
          (with_threads
             (alter (fun t => mkThread (th_worker t) (isRunning t) false) i
                    (threads s)) s)
    | None => s
    end in
  singleShot 100 s.

(** The [run] of thread [i] returns: [isRunning()] turns false and, the
    connection being a queued one, [finished] is posted to the event loop of
    the control thread. *)
Definition thread_exits (i : nat) (s : window) : window :=
  match threads s !! i with
  | Some t =>
      if isRunning t then
        with_posted
          (if connected t then finished_posted s ++ [i] else finished_posted s)
          (with_threads
             (<[i := mkThread (th_worker t) false (connected t)]> (threads s))
             s)
      else s
  | None => s
  end.

(** The event loop delivers the oldest posted [finished] signal. *)
Definition deliver_finished (s : window) : window :=
  match finished_posted s with
  | _ :: rest => worker_thread_finished (with_posted rest s)
  | [] => s
  end.

(** What can happen to the window, one event at a time. *)
Inductive event : Type :=
  | Tick                                   (** a timer fires *)
  | QueueClicked (selected : list widget)  (** the queue button *)
  | CancelClicked (alive : bool)           (** the cancel button *)
  | ThreadExits (i : nat)                  (** a worker's [run] returns *)
  | FinishedDelivered                      (** a posted [finished] arrives *)
  | Reload (path_exists : string -> pyexn + bool)  (** schemas saved or deleted, reloaded *)
  | FilesChanged (files : list (string * pyval)). (** the directory changes *)

Definition handle (str_other : pyval -> string) (e : event) (s : window)
  : window :=
  match e with
  | Tick => process_backup_queue s
  | QueueClicked sel => queue_selected_backup sel s
  | CancelClicked alive => cancel_current_backup alive s
  | ThreadExits i => thread_exits i s
  | FinishedDelivered => deliver_finished s
  | Reload path_exists => load_and_display_schemas path_exists str_other s
  | FilesChanged files => with_config_dir files s
  end.

(** The window after a sequence of events, oldest first. *)
Definition exec (str_other : pyval -> string) (evs : list event) (s : window)
  : window :=
  fold_left (fun s e => handle str_other e s) evs s.

(** [MainWindow.__init__] over a configuration directory. *)
Definition init (path_exists : string -> pyexn + bool) (str_other : pyval -> string)
    (files : list (string * pyval)) : window :=
  load_and_display_schemas path_exists str_other
    (mkWindow ∅ [] None [] [] [] files).

(** The number of workers whose thread is running. *)
Definition running_jobs (s : window) : nat :=
  length (filter (fun t => isRunning t = true) (threads s)).

End Main.

(** ** utils.py: file names *)

Module Sanitize.

(** The characters of the class [invalid_chars]: backslash, slash, star,
    question mark, colon, double quote, the two angle brackets and bar. *)
Definition invalid_char (c : ascii) : bool :=
  existsb (N.eqb (N_of_ascii c)) [92; 47; 42; 63; 58; 34; 60; 62; 124]%N.

(** [name.replace(" ", "_")] *)
Definition replace_spaces (cs : list ascii) : list ascii :=
  map (fun c => if Ascii.eqb c " " then "_"%char else c) cs.

(** [re.sub(invalid_chars, '', name)] *)
Definition remove_invalid (cs : list ascii) : list ascii :=
  List.filter (fun c => negb (invalid_char c)) cs.

Definition dot_or_space (c : ascii) : bool :=
  Ascii.eqb c "." || Ascii.eqb c " ".

Fixpoint drop_while (p : ascii -> bool) (cs : list ascii) : list ascii :=
  match cs with
  | c :: rest => if p c then drop_while p rest else cs
  | [] => []
  end.

(** [re.sub(r'[. ]+$', '', name)]. [$] matches at the end of the string and
    also just before a newline that ends it, so the run of dots and spaces
    that is removed is the one at the very end or, when the string ends with
    a newline, the one in front of that newline. *)
Definition remove_trailing (cs : list ascii) : list ascii :=
  match rev cs with
  | "010"%char :: r => rev ("010"%char :: drop_while dot_or_space r)
  | r => rev (drop_while dot_or_space r)
  end.

Definition sanitize_chars (cs : list ascii) : list ascii :=
  let name := strip_chars cs in
  let name := replace_spaces name in
  let name := remove_invalid name in
  let name := match name with
              | [] => list_ascii_of_string "untitled_schema"
              | _ => name
              end in
  let name := remove_trailing name in
  match name with
  | [] => list_ascii_of_string "untitled_schema_final"
  | _ => name
  end.

(** [sanitize_filename(name)] *)
Definition sanitize_filename (name : string) : string :=
  string_of_list_ascii (sanitize_chars (list_ascii_of_string name)).

End Sanitize.

(** ** schema_manager.py: the files *)

Module Store.

(** The configuration directory: what [yaml.safe_load] makes of each
    [.yaml] file, by the text of its path. A file that does not parse is
    read like an empty one by every operation here (the loaders return
    [None] for both) and stands as [VNone], as does an empty file. *)
Abbreviation files := (gmap string pyval).

(** [str(self.get_schema_filepath(schema_name))] in the directory
    [config_dir]. *)
Definition get_schema_filepath (config_dir schema_name : string) : string :=
  config_dir +:+ "/" +:+ Sanitize.sanitize_filename schema_name +:+ ".yaml".

(** [filepath.exists()]. A file of the directory is found. For a path that
    names none of them the answer is [False], unless the look-up raises:
    [lookup_error] tells for which paths it does, and what (the [OSError]
    of a file name of more than 255 bytes, for one). *)
Definition file_exists (lookup_error : string -> option pyexn)
    (store : files) (filepath : string) : pyexn + bool :=
  match store !! filepath with
  | Some _ => inr true
  | None =>
      match lookup_error filepath with
      | Some e => inl e
      | None => inr false
      end
  end.

(** What opening the file for writing and dumping the data into it come
    to. [Written]: both succeed, and the file reads back as the data that
    was dumped. [OpenFails]: [open] raises and the file is as it was.
    [DumpFails remains]: [open] has created or emptied the file and the
    dump raises; [remains] is what a load makes of the file afterwards. *)
Inductive write : Type :=
  | Written
  | OpenFails
  | DumpFails (remains : pyval).

(** [k.startswith('_')] *)
Definition starts_with_underscore (k : string) : bool :=
  match k with
  | String c _ => Ascii.eqb c "_"
  | EmptyString => false
  end.

(** [{k: v for k, v in schema_data.items() if not k.startswith('_')}], or
    the [AttributeError] of the first key that is not a [str]. *)
Fixpoint data_to_save (d : list (pyval * pyval))
  : pyexn + list (pyval * pyval) :=
  match d with
  | [] => inr []
  | (VStr k, v) :: rest =>
      match data_to_save rest with
      | inr saved =>
          inr (if starts_with_underscore k then saved
               else (VStr k, v) :: saved)
      | inl e => inl e
      end
  | (k, _) :: _ =>
      inl (AttributeError
             ("'" +:+ type_name k
              +:+ "' object has no attribute 'startswith'"))
  end.

(** [save_schema(schema_data)] for a dictionary given by its entries. The
    result is the directory afterwards with the pair the method returns, or
    the exception that leaves the method: [sanitize_filename] on a name that
    is not a [str], or [startswith] on such a key. *)
Definition save_schema (config_dir : string) (w : write)
    (store : files) (schema_data : list (pyval * pyval))
  : pyexn + (files * (bool * string)) :=
  if negb (truthy (VDict schema_data))
     || negb (SchemaManager.dict_has schema_data "schema_name")
  then inr (store, (false, "Schema name is missing."))
  else
    match dict_get schema_data "schema_name" VNone with
    | VStr schema_name =>
        let filepath := get_schema_filepath config_dir schema_name in
        match data_to_save schema_data with
        | inr saved =>
            match w with
            | Written =>
                inr (<[filepath := VDict saved]> store,
                     (true, "Schema '" +:+ schema_name
                            +:+ "' saved successfully."))
            | OpenFails =>
                inr (store,
                     (false, "Error saving schema '" +:+ schema_name
                             +:+ "'."))
            | DumpFails remains =>
                inr (<[filepath := remains]> store,
                     (false, "Error saving schema '" +:+ schema_name
                             +:+ "'."))
            end
        | inl e => inl e
        end
    | v =>
        inl (AttributeError
               ("'" +:+ type_name v +:+ "' object has no attribute 'strip'"))
    end.

(** The three keys the loaders add to a schema. *)
Definition annotate (filepath : string) (is_valid : bool)
    (invalid_paths : list string) (d : list (pyval * pyval))
  : list (pyval * pyval) :=
  let d := SchemaManager.dict_set d "_is_valid" (VBool is_valid) in
  let d := SchemaManager.dict_set d "_invalid_paths"
             (VList (map VStr invalid_paths)) in
  SchemaManager.dict_set d "_filepath" (VStr filepath).

(** [load_single_schema(schema_name)]: what it returns ([None] is Python's
    [None]), or the exception of the look-up of the file, which stands
    outside the [try]. Inside the [try] every exception makes the method
    return [None]: the one of [.get] on a content that is not a dictionary,
    and the one of a test of existence during the validation. *)
Definition load_single_schema (path_exists : string -> pyexn + bool)
    (str_other : pyval -> string) (lookup_error : string -> option pyexn)
    (config_dir : string) (store : files) (schema_name : string)
  : pyexn + option pyval :=
  let filepath := get_schema_filepath config_dir schema_name in
  match file_exists lookup_error store filepath with
  | inl e => inl e
  | inr false => inr None
  | inr true =>
      match store !! filepath with
      | Some (VDict d) =>
          if truthy (VDict d)
          then
            match dict_get d "schema_name" VNone with
            | VStr name =>
                if String.eqb name schema_name then
                  match Utils.validate_schema_paths path_exists str_other
                          (VDict d) with
                  | inr (is_valid, invalid_paths) =>
                      inr (Some (VDict (annotate filepath is_valid
                                          invalid_paths d)))
                  | inl _ => inr None
                  end
                else inr None
            | _ => inr None
            end
          else inr None
      | _ => inr None
      end
  end.

(** [delete_schema(schema_name)]: the directory afterwards with the pair
    the method returns, or the exception of the look-up of the file, which
    stands outside the [try]. [remove_ok] tells whether [os.remove]
    succeeds. *)
Definition delete_schema (lookup_error : string -> option pyexn)
    (config_dir : string) (remove_ok : bool)
    (store : files) (schema_name : string)
  : pyexn + (files * (bool * string)) :=
  let filepath := get_schema_filepath config_dir schema_name in
  match file_exists lookup_error store filepath with
  | inl e => inl e
  | inr true =>
      if remove_ok then
        inr (delete filepath store,
             (true, "Schema '" +:+ schema_name +:+ "' deleted."))
      else
        inr (store,
             (false, "Error deleting schema '" +:+ schema_name +:+ "'."))
  | inr false =>
      inr (store, (false, "Schema '" +:+ schema_name +:+ "' not found."))
  end.

End Store.

(** ** main.py: the edit tab and the buttons of the run tab *)

Module Editor.

(** The fields of the edit tab a click reads. *)
Record form : Type := mkForm {
  schema_name_edit : string;
  source_paths_list : list string;
  destination_path_edit : string;
  (** [schema_selector_combo.currentText()] *)
  schema_selector_combo : string
}.

(** What a click can change: the files, and the properties
    [confirm_overwrite] and [confirm_delete] of the two buttons. *)
Record state : Type := mkState {
  store : Store.files;
  confirm_overwrite : option string;
  confirm_delete : option string
}.

(** The dictionary [save_current_schema] builds. *)
Definition schema_of (schema_name : string) (sources : list string)
    (destination : string) : list (pyval * pyval) :=
  [(VStr "schema_name", VStr schema_name);
   (VStr "sources", VList (map VStr sources));
   (VStr "destination", VStr destination)].

(** [_perform_save(schema_data)]: the files afterwards and the message put
    on the status bar, or the exception [save_schema] lets through. *)
Definition _perform_save (config_dir : string) (w : Store.write)
    (schema_data : list (pyval * pyval)) (st : state)
  : pyexn + (state * string) :=
  match Store.save_schema config_dir w (store st) schema_data with
  | inr (store', (_, message)) =>
      inr (mkState store' (confirm_overwrite st) (confirm_delete st), message)
  | inl e => inl e
  end.

(** [save_current_schema()]: the state afterwards with the message put on
    the status bar, or the exception that leaves the slot. The look-up of
    the file stands outside every [try], before anything is changed. *)
Definition save_current_schema (lookup_error : string -> option pyexn)
    (config_dir : string) (w : Store.write)
    (f : form) (st : state) : pyexn + (state * string) :=
  let schema_name := strip (schema_name_edit f) in
  if String.eqb schema_name "" then inr (st, "Schema name cannot be empty.")
  else
    let sources := source_paths_list f in
    let destination := strip (destination_path_edit f) in
    match sources with
    | [] => inr (st, "Schema must have at least one source path.")
    | _ :: _ =>
        if String.eqb destination ""
        then inr (st, "Schema must have a destination path.")
        else
          let schema_data := schema_of schema_name sources destination in
          let original_schema_name := schema_selector_combo f in
          let sanitized_new_name := Sanitize.sanitize_filename schema_name in
          let filepath_new :=
            Store.get_schema_filepath config_dir schema_name in
          match Store.file_exists lookup_error (store st) filepath_new with
          | inl e => inl e
          | inr found =>
              if found
                 && (String.eqb original_schema_name ""
                     || negb (String.eqb
                                (Store.get_schema_filepath config_dir
                                   original_schema_name)
                                filepath_new))
              then
                if bool_decide (confirm_overwrite st = Some schema_name) then
                  _perform_save config_dir w schema_data
                    (mkState (store st) None (confirm_delete st))
                else
                  inr (mkState (store st) (Some schema_name)
                         (confirm_delete st),
                       "File '" +:+ sanitized_new_name
                       +:+ ".yaml' exists. Click Save again to overwrite.")
              else
                _perform_save config_dir w schema_data
                  (mkState (store st) None (confirm_delete st))
          end
    end.

(** [delete_selected_schema()]: the state afterwards, with the message put
    on the status bar or the exception that leaves the slot; the property
    of the button is reset before [delete_schema] is called. *)
Definition delete_selected_schema (lookup_error : string -> option pyexn)
    (config_dir : string) (remove_ok : bool)
    (f : form) (st : state) : state * (pyexn + string) :=
  let schema_name := schema_selector_combo f in
  if String.eqb schema_name "" then (st, inr "No schema selected to delete.")
  else if bool_decide (confirm_delete st = Some schema_name) then
    match Store.delete_schema lookup_error config_dir remove_ok (store st)
            schema_name with
    | inr (store', (_, message)) =>
        (mkState store' (confirm_overwrite st) None, inr message)
    | inl e => (mkState (store st) (confirm_overwrite st) None, inl e)
    end
  else
    (mkState (store st) (confirm_overwrite st) (Some schema_name),
     inr ("Really delete '" +:+ schema_name
          +:+ "'? Click Delete again to confirm.")).

(** [update_run_button_state()]: whether the queue button and the cancel
    button are enabled, for the given selection. *)
Definition update_run_button_state (selected_items : list Main.widget)
    (s : Main.window) : bool * bool :=
  let is_worker_running :=
    match Main.current_worker s with
    | Some i => Main.thread_running s i
    | None => false
    end in
  let can_queue :=
    match selected_items with
    | item_widget :: _ => Main.is_valid item_widget
    | [] => false
    end in
  (can_queue, is_worker_running).

End Editor.

(** ** Vocabulary of the further properties *)

(** A character a file name keeps as it is: no whitespace and none of the
    characters [sanitize_filename] removes. *)
Definition safe_char (c : ascii) : bool :=
  negb (is_space c) && negb (Sanitize.invalid_char c).

(** The schema name a signal carries. *)
Definition signal_name (s : Worker.signal) : string :=
  match s with
  | Worker.progressUpdated n _ | Worker.logMessage n _
  | Worker.jobFinished n _ _ | Worker.diskSpaceError n _
  | Worker.validationError n _ => n
  end.

(** The schema names the paths of which all exist: a destination that is a
    non-empty string naming an existing path, and sources that are a list of
    strings naming existing paths. *)
Definition paths_in_order (path_exists : string -> pyexn + bool)
    (d : list (pyval * pyval)) (srcs : list string) (dest : string) : Prop :=
  dict_get d "destination" VNone = VStr dest /\ dest <> ""
  /\ path_exists dest = inr true
  /\ dict_get d "sources" (VList []) = VList (map VStr srcs)
  /\ Forall (fun s => path_exists s = inr true) srcs.

(** * Vocabulary of the properties *)

(** The argument of [validate_schema_paths] as its callers pass it: [None],
    or a dictionary given by its entries. *)
Definition schema_arg (a : option (list (pyval * pyval))) : pyval :=
  match a with
  | None => VNone
  | Some d => VDict d
  end.

(** An occurrence of whitespace, digits, a percent sign and whitespace in a
    line: [pre] is what precedes it, [ws] the first run of whitespace and
    [ds] the digits. *)
Definition pattern_occurs (cs pre ws ds : list ascii) : Prop :=
  exists c post,
    cs = (pre ++ ws ++ ds ++ "%"%char :: c :: post)%list
    /\ ws <> [] /\ Forall (fun x => is_space x = true) ws
    /\ ds <> [] /\ Forall (fun x => is_digit x = true) ds
    /\ is_space c = true.

(** The pre-flight checks of [run] pass: the paths validate and at least
    100 MiB are free at the destination. *)
Definition preflight_passes (path_exists : string -> pyexn + bool)
    (str_other : pyval -> string) (w : Worker.worker)
    (env : Worker.environment) : Prop :=
  (exists problems,
      Utils.validate_schema_paths path_exists str_other
        (VDict (Worker.schema_data w)) = inr (true, problems))
  /\ exists free, Worker.disk_usage env = inr free
                  /\ (Worker.free_space_threshold <= free)%N.

(** The non-empty lines the subprocess writes, in order. *)
Definition output_lines (its : list Worker.iteration) : list string :=
  flat_map (fun it => match Worker.readline it with
                      | Worker.Line line =>
                          if String.eqb line "" then [] else [line]
                      | _ => []
                      end) its.

(** The exception that ends the handling of a line, if any: the
    [ValueError] of a percentage of more than 4300 digits, or what [emit]
    raises for one that is no C int. *)
Definition line_raises (conv : Worker.conversion) (line : string)
  : option pyexn :=
  snd (Worker.process_line conv "" line).

(** A turn of the loop in which nobody calls [cancel()], [readline]
    returns, and the line it returns is handled without an exception. *)
Definition undisturbed (conv : Worker.conversion) (it : Worker.iteration)
  : Prop :=
  Worker.cancel_before it = None /\ Worker.cancel_during it = None
  /\ exists line, Worker.readline it = Worker.Line line
                  /\ line_raises conv line = None.

(** [cancel()] is called at a moment after which the worker reads the flag
    again, and no exception comes first: before the read at the top of a
    turn; during a [readline] that returns a line; during a [readline] at
    end of output when the subprocess had already exited; or ([late])
    between the end of the loop and the read that follows [wait()]. *)
Inductive cancel_seen (conv : Worker.conversion) (late : bool)
  : list Worker.iteration -> Prop :=
  | seen_before it rest alive :
      Worker.cancel_before it = Some alive ->
      cancel_seen conv late (it :: rest)
  | seen_during_line it rest alive line :
      Worker.cancel_before it = None ->
      Worker.readline it = Worker.Line line -> line <> "" ->
      line_raises conv line = None ->
      Worker.cancel_during it = Some alive ->
      cancel_seen conv late (it :: rest)
  | seen_during_eof it rest :
      Worker.cancel_before it = None ->
      Worker.readline it = Worker.Line "" ->
      Worker.cancel_during it = Some false ->
      cancel_seen conv late (it :: rest)
  | seen_later it rest line :
      Worker.cancel_before it = None ->
      Worker.cancel_during it = None ->
      Worker.readline it = Worker.Line line ->
      line_raises conv line = None ->
      line <> "" \/ Worker.exited it = false ->
      cancel_seen conv late rest ->
      cancel_seen conv late (it :: rest)
  | seen_after_break it rest :
      Worker.cancel_before it = None ->
      Worker.cancel_during it = None ->
      Worker.readline it = Worker.Line "" ->
      Worker.exited it = true ->
      late = true ->
      cancel_seen conv late (it :: rest)
  | seen_after_end :
      late = true ->
      cancel_seen conv late [].

(** How the events of a launched job end: with the cancelled event, with
    one of the exception handlers, or with what follows a normal exit. *)
Definition closing (name : string) (env : Worker.environment)
    (es : list Worker.effect) : Prop :=
  es = [Worker.cancelled_event name]
  \/ (exists e, es = Worker.handle_exception name e)
  \/ (exists wb, Worker.schema_name wb = name
                 /\ Worker._process wb <> None
                 /\ es = Worker.after_loop wb env).

(** A signal other than the terminal one. *)
Definition nonterminal (s : Worker.signal) : Prop :=
  Worker.is_terminal s = false.

(** A trace whose signals end with the one terminal event it contains. *)
Definition one_terminal_last (name : string) (tr : list Worker.effect)
  : Prop :=
  exists pre success status,
    Worker.signals tr = (pre ++ [Worker.jobFinished name success status])%list
    /\ Forall nonterminal pre.

(** A trace whose signals end with [suffix], after signals none of which is
    terminal. *)
Definition ends_in (suffix : list Worker.signal) (tr : list Worker.effect)
  : Prop :=
  exists pre,
    Worker.signals tr = (pre ++ suffix)%list /\ Forall nonterminal pre.

(** The worker as it enters the loop of [run]. *)
Definition at_loop_entry (w : Worker.worker) (env : Worker.environment)
  : Worker.worker :=
  Worker.set_process (Some tt)
    (if Worker.cancel_preflight env then Worker.cancel false w else w).

(** The loop of a launched job never ends: a [readline] does not return. *)
Definition hangs (w : Worker.worker) (env : Worker.environment) : Prop :=
  snd (Worker.monitor (Worker.c_int env) (at_loop_entry w env)
         (Worker.iterations env)) = Worker.Hang.

(** A schedule in which the [finished] signal of a worker is delivered
    right after the worker's [run] returns, before any other event. *)
Fixpoint prompt (evs : list Main.event) : bool :=
  match evs with
  | [] => true
  | Main.ThreadExits _ :: Main.FinishedDelivered :: rest => prompt rest
  | Main.ThreadExits _ :: _ => false
  | Main.FinishedDelivered :: _ => false
  | _ :: rest => prompt rest
  end.

(** No [finished] signal is under way, and a running worker is the one
    [current_worker] refers to, still connected to the slots. *)
Definition settled (s : Main.window) : Prop :=
  Main.finished_posted s = []
  /\ forall i t, Main.threads s !! i = Some t -> Main.isRunning t = true ->
       Main.current_worker s = Some i /\ Main.connected t = true.

(** ** Sample inputs *)

Module Sample.

(** A file system on which every path exists, one on which none does, and
    one that has lost the sources. *)
Definition all_exist (p : string) : pyexn + bool := inr true.
Definition none_exist (p : string) : pyexn + bool := inr false.
Definition only_destination (p : string) : pyexn + bool :=
  inr (String.eqb p "/mnt/backup").

(** A file system on which every path exists whose name it can look up:
    the test raises for a name of more than 255 characters. *)
Definition name_max (p : string) : pyexn + bool :=
  if (255 <? String.length p)%nat
  then inl (OtherException ("[Errno 36] File name too long: '" +:+ p +:+ "'"))
  else inr true.

(** A file system on which the directory of the sources may no longer be
    searched: the test of a path below it raises [PermissionError]. *)
Definition locked (p : string) : pyexn + bool :=
  if String.eqb p "/home/user/docs"
  then inl (OtherException "[Errno 13] Permission denied: '/home/user/docs'")
  else inr true.

(** A name of 256 characters. *)
Definition long_name : string := string_of_list_ascii (repeat "a"%char 256).

(** A line that carries a percentage of 4301 digits. *)
Definition long_percentage : string :=
  String " " (string_of_list_ascii (repeat "9"%char 4301) +:+ "% ").

(** What PySide6 is seen to do with a percentage that is no C int: the
    slot receives it reduced to 32 bits, and [emit] returns. *)
Definition wraps : Worker.conversion :=
  fun n => (Some ((n + 2147483648) mod 4294967296 - 2147483648), None).

Definition str_other (v : pyval) : string := "<object>".

Definition entries (name : string) : list (pyval * pyval) :=
  [(VStr "schema_name", VStr name);
   (VStr "sources", VList [VStr "/home/user/docs"]);
   (VStr "destination", VStr "/mnt/backup")].

Definition schema (name : string) : pyval := VDict (entries name).

(** A fresh worker, and one on which [cancel()] was called right after
    [start()]. *)
Definition fresh : Worker.worker :=
  Worker.mkWorker (entries "docs") "docs" false None.

Definition cancelled_early : Worker.worker := Worker.cancel false fresh.

Definition progress_line : string :=
  "  1,234,567  42%   10.00MB/s    0:00:10 " +:+ String "010"%char "".

(** A subprocess that writes one progress line and exits with [code],
    leaving [err] on its error stream, 200 MB being free. *)
Definition env_exit (code : Z) (err : string) (late : bool)
  : Worker.environment :=
  Worker.mkEnvironment false (inr 200000000%N) None
    [Worker.mkIteration None (Worker.Line progress_line) None false]
    wraps err code late.

(** A subprocess that writes [line] and exits with code 0. *)
Definition env_line (line : string) : Worker.environment :=
  Worker.mkEnvironment false (inr 200000000%N) None
    [Worker.mkIteration None (Worker.Line line) None false]
    wraps "" 0 false.

(** A subprocess that writes one progress line and then fills the pipe of
    its error stream: it waits for a reader, and so does [readline]. *)
Definition env_stderr_full : Worker.environment :=
  Worker.mkEnvironment false (inr 200000000%N) None
    [Worker.mkIteration None (Worker.Line progress_line) None false;
     Worker.mkIteration None Worker.Blocks None false]
    wraps "" 0 false.

(** The destination has [free] bytes left. *)
Definition env_free (free : N) : Worker.environment :=
  Worker.mkEnvironment false (inr free) None [] wraps "" 0 false.

(** The user cancels while [readline] blocks on a live subprocess, which
    then closes its output without another line. *)
Definition env_cancel_blocked : Worker.environment :=
  Worker.mkEnvironment false (inr 200000000%N) None
    [Worker.mkIteration None (Worker.Line progress_line) None false;
     Worker.mkIteration None (Worker.Line "") (Some true) true]
    wraps "" (-15) false.

(** Three schema files, and a window that has loaded them. *)
Definition files : list (string * pyval) :=
  [("BackItUp/Config/A.yaml", schema "A");
   ("BackItUp/Config/B.yaml", schema "B");
   ("BackItUp/Config/C.yaml", schema "C")].

Definition window0 : Main.window := Main.init all_exist str_other files.

Definition item (name : string) : Main.widget := Main.mkWidget name true.

(** A and B and C are queued; A starts and its [run] returns; a tick comes
    before the [finished] signal of A is delivered and starts B; the signal
    is delivered; the next tick comes. *)
Definition late_finished : list Main.event :=
  [Main.QueueClicked [item "A"]; Main.QueueClicked [item "B"];
   Main.QueueClicked [item "C"];
   Main.Tick; Main.ThreadExits 0; Main.Tick; Main.FinishedDelivered;
   Main.Tick].

(** A is queued, its file is then removed behind the application's back,
    and a tick comes. *)
Definition removed_on_disk : list Main.event :=
  [Main.QueueClicked [item "A"]; Main.FilesChanged []; Main.Tick].

End Sample.

(** ** Further sample inputs *)

Module MoreSamples.

Definition config_dir : string := "BackItUp/Config".

(** rsync is not installed. *)
Definition env_no_rsync : Worker.environment :=
  Worker.mkEnvironment false (inr 200000000%N)
    (Some (FileNotFoundError "[Errno 2] No such file or directory: 'rsync'"))
    [] Sample.wraps "" 0 false.

(** A schema as the window holds it, with the marks of the loader. *)
Definition marked_entries : list (pyval * pyval) :=
  Store.annotate "BackItUp/Config/docs.yaml" false ["Source: /home/user/docs"]
    (Sample.entries "docs").

(** The entry [load_schemas] builds for the file of A. *)
Definition loaded_A : pyval :=
  VDict (Store.annotate "BackItUp/Config/A.yaml" true [] (Sample.entries "A")).

(** A directory that holds the schema "my backup". *)
Definition directory : Store.files :=
  <[Store.get_schema_filepath config_dir "my backup"
    := Sample.schema "my backup"]> ∅.

(** The edit tab filled in for a new schema named "my_backup". *)
Definition new_form : Editor.form :=
  Editor.mkForm " my_backup " ["/home/user/docs"] "/mnt/backup" "".

(** The edit tab with the schema "my backup" selected. *)
Definition selected_form : Editor.form :=
  Editor.mkForm "my backup" ["/home/user/docs"] "/mnt/backup" "my backup".

Definition editor0 : Editor.state := Editor.mkState directory None None.

(** A file system that looks every path up. *)
Definition looks_up (p : string) : option pyexn := None.

(** A file system that refuses a file name of more than 255 characters. *)
Definition refuses_long (p : string) : option pyexn :=
  if (255 + String.length config_dir + 1 <? String.length p)%nat
  then Some (OtherException ("[Errno 36] File name too long: '" +:+ p +:+ "'"))
  else None.

End MoreSamples.

(** * Properties of [validate_schema_paths] *)

Section ValidateProperties.

Variable path_exists : string -> pyexn + bool.
Variable str_other : pyval -> string.

Local Abbreviation validate :=
  (Utils.validate_schema_paths path_exists str_other).

Lemma sources_problems_raise (l : list pyval) (e : pyexn) :
  Utils.sources_problems path_exists str_other l = inl e ->
  exists s, In (VStr s) l /\ path_exists s = inl e.
Proof.
  induction l as [|src l IH]; cbn [Utils.sources_problems]; [discriminate|].
  destruct (Utils.source_problems path_exists str_other src) as [e'|ps] eqn:Hs.
  - intros [= <-]. unfold Utils.source_problems in Hs.
    destruct src as [| | |s| |]; try discriminate Hs.
    exists s. split; [now left|].
    destruct (path_exists s) as [e0|[|]]; now inversion Hs.
  - destruct (Utils.sources_problems path_exists str_other l) as [e'|qs];
      [|discriminate].
    intros [= <-]. destruct (IH eq_refl) as (s & Hin & Hs').
    exists s. split; [now right | exact Hs'].
Qed.

Lemma sources_problems_missing (l : list pyval) (ps : list string)
    (s : string) :
  Utils.sources_problems path_exists str_other l = inr ps ->
  In (VStr s) l -> path_exists s = inr false ->
  In ("Source: " +:+ s) ps.
Proof.
  revert ps. induction l as [|src l IH]; intros ps; [intros _ []|].
  cbn [Utils.sources_problems].
  destruct (Utils.source_problems path_exists str_other src) as [e'|qs] eqn:Hs;
    [discriminate|].
  destruct (Utils.sources_problems path_exists str_other l) as [e'|rs];
    [discriminate|].
  intros [= <-] [->|Hin] Hmiss; apply in_or_app.
  - left. cbn in Hs. rewrite Hmiss in Hs. injection Hs as <-. now left.
  - right. now apply IH.
Qed.

Lemma destination_problems_raise (v : pyval) (e : pyexn) :
  Utils.destination_problems path_exists str_other v = inl e ->
  exists s, v = VStr s /\ s <> "" /\ path_exists s = inl e.
Proof.
  unfold Utils.destination_problems.
  destruct v as [|b|n|s|l|l]; cbn [truthy is_str negb]; rewrite ?orb_true_r;
    try discriminate.
  destruct (String.eqb_spec s "") as [->|Hne]; [discriminate|].
  cbn [negb orb Utils.py_str].
  destruct (path_exists s) as [e'|[|]] eqn:Hp; try discriminate.
  intros [= <-]. now exists s.
Qed.

(** What [validate_schema_paths] does with a non-empty dictionary. *)
Lemma validate_dict (d : list (pyval * pyval)) :
  d <> [] ->
  validate (VDict d)
  = match Utils.destination_problems path_exists str_other
            (dict_get d "destination" VNone),
          Utils.sources_problems path_exists str_other
            (match dict_get d "sources" (VList []) with
             | VList l => l
             | _ => []
             end) with
    | inl e, _ => inl e
    | inr _, inl e => inl e
    | inr dp, inr sp =>
        let problems :=
          ((if is_list (dict_get d "sources" (VList [])) then []
            else ["Sources format is invalid"]) ++ dp ++ sp)%list in
        inr (match problems with [] => true | _ => false end, problems)
    end.
Proof.
  intros Hd. unfold Utils.validate_schema_paths.
  destruct d as [|x d']; [congruence|]. cbn [truthy negb].
  destruct (dict_get (x :: d') "sources" (VList [])) eqn:Hs;
    destruct (Utils.destination_problems path_exists str_other
                (dict_get (x :: d') "destination" VNone));
    cbn [is_list Utils.sources_problems]; reflexivity.
Qed.

(** C10. Called with [None] or with an empty value ([{}], [[]], the empty
    string), [validate_schema_paths] returns [False] together with the single
    problem "Schema data is empty"; it neither raises nor reports validity. *)
Theorem validate_empty_schema_data :
  Utils.validate_schema_paths path_exists str_other VNone
  = inr (false, ["Schema data is empty"])
  /\ Utils.validate_schema_paths path_exists str_other (VDict [])
     = inr (false, ["Schema data is empty"])
  /\ Utils.validate_schema_paths path_exists str_other (VList [])
     = inr (false, ["Schema data is empty"])
  /\ Utils.validate_schema_paths path_exists str_other (VStr "")
     = inr (false, ["Schema data is empty"]).
Proof. repeat split. Qed.

(** The only exceptions that leave [validate_schema_paths] on [None] or a
    dictionary are those a test of existence raises, on the destination or
    on a source. *)
Lemma validate_raises_only_from_exists (a : option (list (pyval * pyval)))
    (e : pyexn) :
  Utils.validate_schema_paths path_exists str_other (schema_arg a) = inl e ->
  exists d s,
    a = Some d /\ path_exists s = inl e
    /\ (dict_get d "destination" VNone = VStr s
        \/ exists l, dict_get d "sources" (VList []) = VList l
                     /\ In (VStr s) l).
Proof.
  destruct a as [d|]; cbn [schema_arg]; [|discriminate].
  destruct d as [|x d']; [discriminate|].
  rewrite validate_dict by discriminate.
  destruct (Utils.destination_problems path_exists str_other
              (dict_get (x :: d') "destination" VNone)) as [e'|dp] eqn:Hd.
  { intros [= <-]. apply destination_problems_raise in Hd
      as (s & Hs & _ & Hp).
    exists (x :: d'), s. auto. }
  destruct (Utils.sources_problems path_exists str_other _) as [e'|sp] eqn:Hs;
    [|discriminate].
  intros [= <-].
  destruct (dict_get (x :: d') "sources" (VList [])) as [| | | |l|] eqn:Hl;
    try discriminate Hs.
  apply sources_problems_raise in Hs as (s & Hin & Hp).
  exists (x :: d'), s. split; [reflexivity|]. split; [exact Hp|].
  right. now exists l.
Qed.

(** When [validate_schema_paths] returns on [None] or a dictionary, the
    flag it returns is true exactly when the list of problems is empty;
    sources that are not a list and a destination that is missing or not a
    non-empty string are recorded as problems; and every source string and
    every destination string that does not exist is in the list of
    problems, under its label. *)
Lemma validate_answer (a : option (list (pyval * pyval))) (is_valid : bool)
    (problems : list string) :
  Utils.validate_schema_paths path_exists str_other (schema_arg a)
  = inr (is_valid, problems) ->
  (is_valid = true <-> problems = [])
  /\ (forall d, a = Some d -> d <> [] ->
      is_list (dict_get d "sources" (VList [])) = false ->
      In "Sources format is invalid" problems)
  /\ (forall d, a = Some d -> d <> [] ->
      (truthy (dict_get d "destination" VNone) = false
       \/ is_str (dict_get d "destination" VNone) = false) ->
      In "Destination path is missing or invalid" problems)
  /\ (forall d l s, a = Some d ->
      dict_get d "sources" (VList []) = VList l -> In (VStr s) l ->
      path_exists s = inr false -> In ("Source: " +:+ s) problems)
  /\ (forall d s, a = Some d ->
      dict_get d "destination" VNone = VStr s -> s <> "" ->
      path_exists s = inr false -> In ("Destination: " +:+ s) problems).
Proof.
  destruct a as [d|]; cbn [schema_arg].
  - destruct d as [|x d'].
    + intros [= <- <-]. split; [split; discriminate|].
      repeat split; intros; simplify_eq; cbn in *; simplify_eq;
        first [contradiction | congruence].
    + rewrite validate_dict by discriminate.
      destruct (Utils.destination_problems path_exists str_other
                  (dict_get (x :: d') "destination" VNone))
        as [e'|dp] eqn:Hd; [discriminate|].
      destruct (Utils.sources_problems path_exists str_other _)
        as [e'|sp] eqn:Hs; [discriminate|].
      cbv zeta. intros [= <- <-].
      split.
      { match goal with |- (match ?l with _ => _ end) = true <-> _ =>
          destruct l; split; congruence end. }
      split.
      { intros d0 [= <-] _ Hl. cbn [dict_get] in Hl. rewrite Hl. now left. }
      split.
      { intros d0 [= <-] _ Hdest. apply in_or_app. right. apply in_or_app.
        left. unfold Utils.destination_problems in Hd.
        destruct Hdest as [Hdest | Hdest]; rewrite Hdest in Hd;
          cbn in Hd; rewrite ?orb_true_r in Hd; injection Hd as <-;
          now left. }
      split.
      { intros d0 l s [= <-] Hl Hin Hmiss. apply in_or_app. right.
        apply in_or_app. right. rewrite Hl in Hs.
        now apply (sources_problems_missing l). }
      { intros d0 s [= <-] Hdest Hne Hmiss. apply in_or_app. right.
        apply in_or_app. left. rewrite Hdest in Hd.
        unfold Utils.destination_problems in Hd. cbn in Hd.
        destruct (String.eqb_spec s ""); [contradiction|]. cbn in Hd.
        rewrite Hmiss in Hd. injection Hd as <-. now left. }
  - intros [= <- <-]. split; [split; discriminate|].
    repeat split; intros; discriminate.
Qed.

End ValidateProperties.

(** * Properties of [BackupWorker.run] *)

Section RunProperties.

Import Worker.

Variable path_exists : string -> pyexn + bool.
Variable str_other : pyval -> string.

Local Abbreviation validate :=
  (Utils.validate_schema_paths path_exists str_other).
Local Abbreviation run := (Worker.run path_exists str_other).

Lemma cancel_name alive w : schema_name (cancel alive w) = schema_name w.
Proof.
  unfold cancel, terminate_process. cbn.
  destruct (_process w); [destruct alive|]; reflexivity.
Qed.

Lemma cancel_data alive w : schema_data (cancel alive w) = schema_data w.
Proof.
  unfold cancel, terminate_process. cbn.
  destruct (_process w); [destruct alive|]; reflexivity.
Qed.

Lemma cancel_sets_flag alive w : _is_cancelled (cancel alive w) = true.
Proof.
  unfold cancel, terminate_process. cbn.
  destruct (_process w); [destruct alive|]; reflexivity.
Qed.

Lemma cancel_dead_keeps_process w : _process (cancel false w) = _process w.
Proof.
  unfold cancel, terminate_process. cbn.
  destruct (_process w) eqn:E; cbn; congruence.
Qed.

Lemma cancel_call_name c w : schema_name (cancel_call c w) = schema_name w.
Proof. destruct c; [apply cancel_name | reflexivity]. Qed.

Lemma cancel_call_keeps_flag c w :
  _is_cancelled w = true -> _is_cancelled (cancel_call c w) = true.
Proof.
  destruct c; unfold cancel_call; [intros _; apply cancel_sets_flag | auto].
Qed.

Lemma preflight_name env w :
  schema_name (if cancel_preflight env then cancel false w else w)
  = schema_name w.
Proof. destruct (cancel_preflight env); [apply cancel_name | reflexivity]. Qed.

Lemma preflight_data env w :
  schema_data (if cancel_preflight env then cancel false w else w)
  = schema_data w.
Proof. destruct (cancel_preflight env); [apply cancel_data | reflexivity]. Qed.

(** C5. When a pre-flight check fails no subprocess is launched. If the
    paths do not validate, the job emits a validation error and the terminal
    event (False, "Path validation failed"). If the destination does not
    resolve for the free-space query, or the query raises, or fewer than
    100 MiB are free, it emits an error event and a failed terminal event,
    which reads "Insufficient disk space" in the last case. *)
Theorem preflight_failure_launches_nothing (w : worker) (env : environment) :
  let name := schema_name w in
  let started := logMessage name ("Starting backup for '" +:+ name +:+ "'...") in
  let destination :=
    Utils.py_str str_other (dict_get (schema_data w) "destination" VNone) in
  (forall problems,
      Utils.validate_schema_paths path_exists str_other
        (VDict (schema_data w)) = inr (false, problems) ->
      launches (Worker.run path_exists str_other w env) = []
      /\ signals (Worker.run path_exists str_other w env) =
         [started;
          validationError name
            ("Path validation failed before starting: " +:+ join ", " problems);
          jobFinished name false "Path validation failed"])
  /\ (forall problems msg,
      Utils.validate_schema_paths path_exists str_other
        (VDict (schema_data w)) = inr (true, problems) ->
      disk_usage env = inl (FileNotFoundError msg) ->
      launches (Worker.run path_exists str_other w env) = []
      /\ signals (Worker.run path_exists str_other w env) =
         [started;
          validationError name
            ("Destination directory '" +:+ destination
             +:+ "' not found for disk space check.");
          jobFinished name false "Destination not found"])
  /\ (forall problems e,
      Utils.validate_schema_paths path_exists str_other
        (VDict (schema_data w)) = inr (true, problems) ->
      disk_usage env = inl e -> is_FileNotFoundError e = false ->
      launches (Worker.run path_exists str_other w env) = []
      /\ signals (Worker.run path_exists str_other w env) =
         [started;
          diskSpaceError name
            ("Error checking disk space for '" +:+ destination
             +:+ "': " +:+ exn_text e);
          jobFinished name false "Disk space check error"])
  /\ (forall problems free,
      Utils.validate_schema_paths path_exists str_other
        (VDict (schema_data w)) = inr (true, problems) ->
      disk_usage env = inr free -> (free < 100 * 1024 * 1024)%N ->
      launches (Worker.run path_exists str_other w env) = []
      /\ signals (Worker.run path_exists str_other w env) =
         [started;
          diskSpaceError name
            ("Insufficient disk space at destination '" +:+ destination
             +:+ "'. Free: " +:+ format_mb free +:+ " MB");
          jobFinished name false "Insufficient disk space"]).
Proof.
  cbv zeta. unfold Worker.run, check_space_then_execute.
  rewrite preflight_name, preflight_data.
  repeat split; intros.
  all: match goal with
       | H : Utils.validate_schema_paths _ _ _ = _ |- _ => rewrite H
       end; try reflexivity.
  all: match goal with H : disk_usage _ = _ |- _ => rewrite H end;
       cbn [is_FileNotFoundError]; try reflexivity.
  all: try (match goal with H : is_FileNotFoundError _ = false |- _ =>
              rewrite H end; reflexivity).
  all: match goal with H : (_ < _)%N |- _ =>
         apply N.ltb_lt in H; change (100 * 1024 * 1024)%N
           with free_space_threshold in H; rewrite H end; reflexivity.
Qed.

(** *** The shape of a trace *)

Lemma signals_app a b : signals (a ++ b) = (signals a ++ signals b)%list.
Proof. apply flat_map_app. Qed.

Lemma signals_emit l : signals (map Emit l) = l.
Proof. induction l as [|x l IH]; [reflexivity|]. cbn. f_equal. exact IH. Qed.

Lemma launches_app a b : launches (a ++ b) = (launches a ++ launches b)%list.
Proof. apply flat_map_app. Qed.

Lemma launches_emit l : launches (map Emit l) = [].
Proof. induction l as [|x l IH]; [reflexivity | exact IH]. Qed.

(** What the handling of a line emits and raises, case by case. *)
Lemma process_line_cases conv name line :
  let log := logMessage name (strip line) in
  process_line conv name line
  = match parse_progress line with
    | None => ([log], None)
    | Some (inl e) => ([log], Some e)
    | Some (inr progress) =>
        if fits_c_int progress then
          ([log; progressUpdated name progress], None)
        else
          (log :: match fst (conv progress) with
                  | Some percentage => [progressUpdated name percentage]
                  | None => []
                  end,
           snd (conv progress))
    end.
Proof.
  unfold process_line. destruct (parse_progress line) as [[e|p]|];
    try reflexivity.
  destruct (fits_c_int p); [reflexivity|]. now destruct (conv p).
Qed.

Lemma process_line_nonterminal conv name line :
  Forall nonterminal (fst (process_line conv name line)).
Proof.
  rewrite process_line_cases. cbv zeta.
  destruct (parse_progress line) as [[e|p]|]; cbn [fst];
    try (repeat constructor).
  destruct (fits_c_int p); cbn [fst]; [repeat constructor|].
  destruct (fst (conv p)); repeat constructor.
Qed.

Lemma process_line_raises conv name line :
  snd (process_line conv name line) = line_raises conv line.
Proof.
  unfold line_raises. rewrite !process_line_cases. cbv zeta.
  destruct (parse_progress line) as [[e|p]|]; try reflexivity.
  now destruct (fits_c_int p).
Qed.

Lemma lines_nonterminal conv name ls :
  Forall nonterminal
    (flat_map (fun line => fst (process_line conv name line)) ls).
Proof.
  induction ls as [|l ls IH]; cbn [flat_map]; [constructor|].
  apply Forall_app. split; [apply process_line_nonterminal | exact IH].
Qed.

Lemma output_lines_cons it rest :
  output_lines (it :: rest) =
  (match readline it with
   | Line line => if String.eqb line "" then [] else [line]
   | _ => []
   end ++ output_lines rest)%list.
Proof. reflexivity. Qed.

(** The loop emits the events of the lines it has read so far, in the order
    of the subprocess output, and nothing else until it is left. *)
Lemma monitor_shape conv its : forall w,
  exists n,
    let body :=
      map Emit (flat_map (fun line =>
                            fst (process_line conv (schema_name w) line))
                  (take n (output_lines its))) in
    match snd (monitor conv w its) with
    | Return =>
        fst (monitor conv w its)
        = (body ++ [cancelled_event (schema_name w)])%list
    | Break wb =>
        fst (monitor conv w its) = body
        /\ schema_name wb = schema_name w /\ _process wb <> None
    | Raise _ | Hang => fst (monitor conv w its) = body
    end.
Proof.
  induction its as [|it rest IH]; intros w.
  - exists 0%nat. cbn.
    destruct (_is_cancelled w); [reflexivity|].
    destruct (_process w) eqn:Hp; cbn; [|reflexivity].
    repeat split; congruence.
  - cbn [monitor].
    pose proof (cancel_call_name (cancel_before it) w) as Hn1.
    set (w1 := cancel_call (cancel_before it) w) in *.
    destruct (_is_cancelled w1).
    { exists 0%nat. cbn. now rewrite Hn1. }
    destruct (_process w1); [|exists 0%nat; reflexivity].
    rewrite output_lines_cons.
    destruct (readline it) as [line|e|]; [|exists 0%nat; reflexivity..].
    pose proof (cancel_call_name (cancel_during it) w1) as Hn2.
    set (w2 := cancel_call (cancel_during it) w1) in *.
    destruct (String.eqb line "") eqn:Hline.
    + destruct (_process w2) eqn:Hp; [|exists 0%nat; reflexivity].
      destruct (exited it).
      * exists 0%nat. cbn. repeat split; congruence.
      * destruct (IH w2) as [n Hn]. exists n. cbn [app].
        rewrite Hn2, Hn1 in Hn. exact Hn.
    + rewrite Hn2, Hn1.
      destruct (process_line conv (schema_name w) line)
        as [emitted raised] eqn:Hpl.
      destruct raised as [e|].
      { exists 1%nat. cbn [fst snd app take flat_map].
        rewrite Hpl, app_nil_r. reflexivity. }
      destruct (IH w2) as [n Hn]. exists (S n).
      destruct (monitor conv w2 rest) as [tr out]. cbn [fst snd] in *.
      rewrite Hn2, Hn1 in *. cbn [app take flat_map].
      rewrite Hpl, map_app. cbn [fst].
      destruct out; cbn zeta in *.
      * destruct Hn as (-> & ? & ?). auto.
      * rewrite Hn. now rewrite <- app_assoc.
      * now rewrite Hn.
      * now rewrite Hn.
Qed.

Lemma one_terminal_emit name s tr :
  nonterminal s -> one_terminal_last name tr ->
  one_terminal_last name (Emit s :: tr).
Proof.
  intros Hs (pre & ok & st & Heq & Hpre).
  exists (s :: pre), ok, st. split; [|now constructor].
  change (signals (Emit s :: tr)) with (s :: signals tr). now rewrite Heq.
Qed.

Lemma one_terminal_popen name c tr :
  one_terminal_last name tr -> one_terminal_last name (Popen c :: tr).
Proof. intros (pre & ok & st & Heq & Hpre). now exists pre, ok, st. Qed.

Lemma one_terminal_lines conv name ls tr :
  one_terminal_last name tr ->
  one_terminal_last name
    (map Emit (flat_map (fun line => fst (process_line conv name line)) ls)
     ++ tr).
Proof.
  intros (pre & ok & st & Heq & Hpre).
  eexists (_ ++ pre)%list, ok, st.
  rewrite signals_app, signals_emit, Heq, app_assoc. split; [reflexivity|].
  apply Forall_app. split; [apply lines_nonterminal | exact Hpre].
Qed.

Lemma one_terminal_single name ok st :
  one_terminal_last name [Emit (jobFinished name ok st)].
Proof. exists [], ok, st. split; [reflexivity | constructor]. Qed.

Lemma one_terminal_handler name e :
  one_terminal_last name (handle_exception name e).
Proof.
  unfold handle_exception.
  destruct (is_FileNotFoundError e); apply one_terminal_single.
Qed.

Lemma one_terminal_after_loop wb env :
  one_terminal_last (schema_name wb) (after_loop wb env).
Proof.
  unfold after_loop. destruct (_process wb); [|apply one_terminal_handler].
  set (w' := if cancel_late env then cancel false wb else wb).
  assert (Htail : forall tl, one_terminal_last (schema_name wb) tl ->
    one_terminal_last (schema_name wb)
      ((if String.eqb (stderr_output env) "" then []
        else [Emit (logMessage (schema_name wb)
                      ("STDERR: " +:+ strip (stderr_output env)))]) ++ tl)).
  { intros tl Htl. destruct (String.eqb (stderr_output env) ""); cbn;
      [exact Htl | now apply one_terminal_emit]. }
  apply Htail.
  destruct (_is_cancelled w'); [apply one_terminal_single|].
  destruct (return_code env =? 0);
    [apply one_terminal_emit; [reflexivity | apply one_terminal_single]|].
  destruct (return_code env =? 24).
  - destruct (String.eqb (stderr_output env) "");
      repeat (apply one_terminal_emit; [reflexivity|]);
      apply one_terminal_single.
  - destruct (String.eqb (stderr_output env) ""); apply one_terminal_single.
Qed.

Lemma one_terminal_closing name env es :
  closing name env es -> one_terminal_last name es.
Proof.
  intros [-> | [[e ->] | (wb & <- & _ & ->)]].
  - apply one_terminal_single.
  - apply one_terminal_handler.
  - apply one_terminal_after_loop.
Qed.

(** After a launch: the lines read, in order, then the closing events, or
    nothing more when a [readline] does not return. *)
Lemma execute_shape w env :
  popen env = None ->
  exists n es,
    execute str_other w env =
    (Popen (rsync_command str_other (schema_data w))
     :: map Emit (flat_map (fun line =>
                              fst (process_line (c_int env) (schema_name w)
                                     line))
                    (take n (output_lines (iterations env)))) ++ es)%list
    /\ (closing (schema_name w) env es
        \/ es = [] /\ snd (monitor (c_int env) (set_process (Some tt) w)
                             (iterations env)) = Hang).
Proof.
  intros Hpopen. unfold execute. rewrite Hpopen.
  destruct (monitor_shape (c_int env) (iterations env)
              (set_process (Some tt) w)) as [n Hn].
  destruct (monitor (c_int env) (set_process (Some tt) w) (iterations env))
    as [tr out].
  cbn [fst snd schema_name set_process schema_data] in *.
  exists n. destruct out as [wb| |e|].
  - destruct Hn as (-> & Hname & Hproc).
    exists (after_loop wb env). split; [reflexivity|].
    left. right; right. exists wb. auto.
  - exists [cancelled_event (schema_name w)]. rewrite Hn, <- app_assoc.
    split; [reflexivity | left; now left].
  - exists (handle_exception (schema_name w) e). rewrite Hn.
    split; [reflexivity | left; right; left; eauto].
  - exists []. rewrite Hn. split; [reflexivity | now right].
Qed.

(** A dictionary is validated unless a test of existence raises. *)
Lemma validate_dict_raises d e :
  validate (VDict d) = inl e ->
  Utils.destination_problems path_exists str_other
    (dict_get d "destination" VNone) = inl e
  \/ exists l, dict_get d "sources" (VList []) = VList l
               /\ Utils.sources_problems path_exists str_other l = inl e.
Proof.
  unfold Utils.validate_schema_paths.
  destruct d as [|x d']; cbn [truthy negb]; [discriminate|].
  destruct (Utils.destination_problems path_exists str_other
              (dict_get (x :: d') "destination" VNone)) as [e'|dp] eqn:Hd.
  { destruct (dict_get (x :: d') "sources" (VList []));
      intros [= <-]; now left. }
  destruct (dict_get (x :: d') "sources" (VList [])) as [| | | |l|];
    cbn [Utils.sources_problems]; try discriminate.
  destruct (Utils.sources_problems path_exists str_other l) eqn:Hs;
    [|discriminate].
  intros [= <-]. right. now exists l.
Qed.

(** What [run] emits when it has a last event: the job reaches one of its
    [jobFinished] calls unless the validation raises or the loop hangs. *)
Lemma run_one_terminal_or_none w env :
  (exists e, validate (VDict (schema_data w)) = inl e
             /\ run w env
                = [Emit (logMessage (schema_name w)
                           ("Starting backup for '" +:+ schema_name w
                            +:+ "'..."))])
  \/ (preflight_passes path_exists str_other w env /\ popen env = None
      /\ hangs w env
      /\ Forall nonterminal (signals (run w env)))
  \/ one_terminal_last (schema_name w) (run w env).
Proof.
  destruct (validate (VDict (schema_data w))) as [e|[[|] problems]] eqn:Hv.
  - left. exists e. split; [reflexivity|].
    unfold Worker.run. now rewrite preflight_data, Hv.
  - right.
    assert (Hstart : forall tr,
      (preflight_passes path_exists str_other w env /\ popen env = None
       /\ hangs w env /\ Forall nonterminal (signals tr))
      \/ one_terminal_last (schema_name w) tr ->
      (preflight_passes path_exists str_other w env /\ popen env = None
       /\ hangs w env
       /\ Forall nonterminal
            (signals (Emit (logMessage (schema_name w)
                              ("Starting backup for '" +:+ schema_name w
                               +:+ "'...")) :: tr)))
      \/ one_terminal_last (schema_name w)
           (Emit (logMessage (schema_name w)
                    ("Starting backup for '" +:+ schema_name w +:+ "'..."))
            :: tr)).
    { intros tr [(Hp & Hpo & Hh & Hall)|Hone].
      - left. split; [exact Hp|]. split; [exact Hpo|]. split; [exact Hh|].
        now constructor.
      - right. now apply one_terminal_emit. }
    unfold Worker.run. rewrite preflight_data, Hv. apply Hstart.
    unfold check_space_then_execute.
    rewrite preflight_name, !preflight_data.
    destruct (disk_usage env) as [e|free] eqn:Hdu.
    { right. destruct (is_FileNotFoundError e);
        (apply one_terminal_emit; [reflexivity | apply one_terminal_single]). }
    destruct (free <? free_space_threshold)%N eqn:Hfree.
    { right. apply one_terminal_emit; [reflexivity|].
      apply one_terminal_single. }
    assert (Hpre : preflight_passes path_exists str_other w env).
    { split; [now exists problems|]. exists free. split; [exact Hdu|].
      now apply N.ltb_ge. }
    destruct (popen env) as [e|] eqn:Hpopen.
    { right. apply one_terminal_emit; [reflexivity|].
      unfold execute. rewrite Hpopen, preflight_name.
      apply one_terminal_handler. }
    set (w' := if cancel_preflight env then cancel false w else w).
    destruct (execute_shape w' env Hpopen) as (n & es & Heq & Hes).
    rewrite Heq. subst w'. rewrite preflight_name, preflight_data in *.
    destruct Hes as [Hes|[-> Hhang]].
    + right. apply one_terminal_emit; [reflexivity|].
      apply one_terminal_popen, one_terminal_lines.
      now apply one_terminal_closing with env.
    + left. split; [exact Hpre|]. split; [reflexivity|].
      split; [exact Hhang|].
      change (signals (Emit ?a :: Popen ?c :: ?tl)) with (a :: signals tl).
      constructor; [reflexivity|].
      rewrite app_nil_r, signals_emit. apply lines_nonterminal.
  - right. right. unfold Worker.run. rewrite preflight_data, Hv.
    apply one_terminal_emit; [reflexivity|].
    apply one_terminal_emit; [reflexivity | apply one_terminal_single].
Qed.

(** The order of the events of a launched job: the two start logs, the
    launch, the events of the lines read so far in the order of the output,
    then the closing events, or nothing when the loop hangs. *)
Lemma launched_run_in_order w env :
  preflight_passes path_exists str_other w env -> popen env = None ->
  let name := schema_name w in
  exists n es,
    run w env =
    ([Emit (logMessage name ("Starting backup for '" +:+ name +:+ "'..."));
      Emit (logMessage name
              ("Running: "
               +:+ join " " (rsync_command str_other (schema_data w))));
      Popen (rsync_command str_other (schema_data w))]
     ++ map Emit (flat_map (fun line =>
                              fst (process_line (c_int env) name line))
                    (take n (output_lines (iterations env))))
     ++ es)%list
    /\ (closing name env es \/ es = [] /\ hangs w env).
Proof.
  intros [[problems Hv] (free & Hdu & Hfree)] Hpopen. cbv zeta.
  unfold Worker.run, check_space_then_execute.
  rewrite preflight_name, !preflight_data.
  rewrite Hv, Hdu.
  apply N.ltb_ge in Hfree. rewrite Hfree.
  set (w' := if cancel_preflight env then cancel false w else w).
  destruct (execute_shape w' env Hpopen) as (n & es & -> & Hes).
  subst w'. rewrite preflight_name, preflight_data in *.
  exists n, es. split; [reflexivity | exact Hes].
Qed.

(** *** Runs that launch the subprocess *)

Lemma ends_in_emit suf s tr :
  nonterminal s -> ends_in suf tr -> ends_in suf (Emit s :: tr).
Proof.
  intros Hs (pre & Heq & Hpre). exists (s :: pre). split; [|now constructor].
  change (signals (Emit s :: tr)) with (s :: signals tr). now rewrite Heq.
Qed.

Lemma ends_in_popen suf c tr : ends_in suf tr -> ends_in suf (Popen c :: tr).
Proof. intros (pre & Heq & Hpre). now exists pre. Qed.

Lemma ends_in_app suf l tr :
  Forall nonterminal l -> ends_in suf tr -> ends_in suf (map Emit l ++ tr).
Proof.
  intros Hl (pre & Heq & Hpre). exists (l ++ pre)%list.
  rewrite signals_app, signals_emit, Heq, app_assoc. split; [reflexivity|].
  apply Forall_app. now split.
Qed.

Lemma ends_in_here suf : ends_in suf (map Emit suf).
Proof. exists []. split; [apply signals_emit | constructor]. Qed.

Lemma run_launched w env :
  preflight_passes path_exists str_other w env -> popen env = None ->
  run w env =
  (Emit (logMessage (schema_name w)
           ("Starting backup for '" +:+ schema_name w +:+ "'..."))
   :: Emit (logMessage (schema_name w)
              ("Running: "
               +:+ join " " (rsync_command str_other (schema_data w))))
   :: Popen (rsync_command str_other (schema_data w))
   :: fst (monitor (c_int env) (at_loop_entry w env) (iterations env))
   ++ match snd (monitor (c_int env) (at_loop_entry w env)
                   (iterations env)) with
      | Return => []
      | Hang => []
      | Raise e => handle_exception (schema_name w) e
      | Break wb => after_loop wb env
      end)%list.
Proof.
  intros [[problems Hv] (free & Hdu & Hfree)] Hpopen.
  unfold Worker.run, check_space_then_execute, execute, at_loop_entry.
  rewrite preflight_name, !preflight_data.
  rewrite Hv, Hdu, Hpopen.
  apply N.ltb_ge in Hfree. rewrite Hfree.
  destruct (monitor _ _ (iterations env)) as [tr out].
  cbn [fst snd schema_data set_process]. now rewrite preflight_data.
Qed.

Lemma monitor_flag_set conv its w :
  _is_cancelled w = true ->
  monitor conv w its = ([cancelled_event (schema_name w)], Return).
Proof.
  intros Hflag. destruct its as [|it rest]; cbn [monitor].
  - now rewrite Hflag.
  - rewrite (cancel_call_keeps_flag (cancel_before it) w Hflag).
    now rewrite cancel_call_name.
Qed.

Lemma monitor_undisturbed conv its : forall w,
  Forall (undisturbed conv) its ->
  _is_cancelled w = false -> _process w <> None ->
  snd (monitor conv w its) = Break w.
Proof.
  induction its as [|it rest IH]; intros w Hall Hflag Hproc; cbn [monitor].
  - rewrite Hflag. now destruct (_process w).
  - apply Forall_cons in Hall as [(Hb & Hd & line & Hr & Hraise) Hall].
    rewrite Hb, Hd, Hr. cbn [cancel_call]. rewrite Hflag.
    destruct (_process w) eqn:Hp; [|congruence].
    destruct (String.eqb line "").
    + destruct (exited it); [reflexivity|]. apply IH; congruence.
    + specialize (IH w Hall Hflag). rewrite Hp in IH.
      pose proof (process_line_raises conv (schema_name w) line) as Hpl.
      destruct (process_line conv (schema_name w) line) as [emitted raised].
      cbn [snd] in Hpl. rewrite Hpl, Hraise.
      destruct (monitor conv w rest) as [tr out]. cbn [snd] in *.
      apply IH. discriminate.
Qed.

Lemma monitor_cancel_seen conv late its :
  cancel_seen conv late its -> forall w, _process w <> None ->
  snd (monitor conv w its) = Return
  \/ exists wb, snd (monitor conv w its) = Break wb
                /\ (_is_cancelled wb = true \/ late = true).
Proof.
  induction 1 as [it rest alive Hb
                 |it rest alive line Hb Hr Hne Hraise Hd
                 |it rest Hb Hr Hd
                 |it rest line Hb Hd Hr Hraise Hcont Hseen IH
                 |it rest Hb Hd Hr Hex Hlate
                 |Hlate];
    intros w Hproc;
    (destruct (_is_cancelled w) eqn:Hflag;
     [left; now rewrite monitor_flag_set|]);
    cbn [monitor].
  - rewrite Hb. cbn [cancel_call]. rewrite cancel_sets_flag. now left.
  - rewrite Hb, Hr, Hd. cbn [cancel_call]. rewrite Hflag.
    destruct (_process w); [|congruence].
    destruct (String.eqb_spec line ""); [contradiction|].
    rewrite cancel_name.
    pose proof (process_line_raises conv (schema_name w) line) as Hpl.
    destruct (process_line conv (schema_name w) line) as [emitted raised].
    cbn [snd] in Hpl. rewrite Hpl, Hraise.
    rewrite monitor_flag_set by apply cancel_sets_flag. now left.
  - rewrite Hb, Hr, Hd. cbn [cancel_call]. rewrite Hflag.
    destruct (_process w) eqn:Hp; [|congruence]. cbn [String.eqb].
    rewrite cancel_dead_keeps_process, Hp.
    destruct (exited it).
    + right. eexists. split; [reflexivity|]. left. apply cancel_sets_flag.
    + rewrite monitor_flag_set by apply cancel_sets_flag. now left.
  - rewrite Hb, Hd, Hr. cbn [cancel_call]. rewrite Hflag.
    destruct (_process w) eqn:Hp; [|congruence].
    destruct (String.eqb_spec line "") as [->|Hne].
    + destruct Hcont as [?| ->]; [congruence|]. apply IH. congruence.
    + specialize (IH w). rewrite Hp in IH.
      pose proof (process_line_raises conv (schema_name w) line) as Hpl.
      destruct (process_line conv (schema_name w) line) as [emitted raised].
      cbn [snd] in Hpl. rewrite Hpl, Hraise.
      destruct (monitor conv w rest) as [tr out]. cbn [snd] in *.
      apply IH. discriminate.
  - rewrite Hb, Hd, Hr, Hex. cbn [cancel_call]. rewrite Hflag.
    destruct (_process w) eqn:Hp; [|congruence]. cbn [String.eqb].
    right. eexists. split; [reflexivity | now right].
  - rewrite Hflag. destruct (_process w) eqn:Hp; [|congruence].
    right. eexists. split; [reflexivity | now right].
Qed.

Lemma at_loop_entry_name w env :
  schema_name (at_loop_entry w env) = schema_name w.
Proof. unfold at_loop_entry. cbn. apply preflight_name. Qed.

Lemma at_loop_entry_flag w env :
  _is_cancelled (at_loop_entry w env)
  = _is_cancelled w || cancel_preflight env.
Proof.
  unfold at_loop_entry. cbn. destruct (cancel_preflight env).
  - rewrite cancel_sets_flag. now rewrite orb_true_r.
  - now rewrite orb_false_r.
Qed.

Lemma after_loop_cancelled wb env :
  _process wb <> None ->
  _is_cancelled wb = true \/ cancel_late env = true ->
  ends_in [jobFinished (schema_name wb) false "Cancelled"] (after_loop wb env).
Proof.
  intros Hproc Hflag. unfold after_loop.
  destruct (_process wb); [|congruence].
  assert (Hc : _is_cancelled
                 (if cancel_late env then cancel false wb else wb) = true).
  { destruct (cancel_late env); [apply cancel_sets_flag|].
    now destruct Hflag. }
  rewrite Hc.
  destruct (String.eqb (stderr_output env) ""); cbn [app].
  - apply (ends_in_here [_]).
  - apply ends_in_emit; [reflexivity | apply (ends_in_here [_])].
Qed.

(** What the exit code and the drained error stream turn into. *)
Lemma after_loop_exit wb env :
  _process wb <> None -> _is_cancelled wb = false -> cancel_late env = false ->
  let name := schema_name wb in
  let rc := return_code env in
  let err := stderr_output env in
  ends_in
    (if rc =? 0 then
       [progressUpdated name 100; jobFinished name true "Completed"]
     else if rc =? 24 then
       [progressUpdated name 100;
        jobFinished name true
          (if String.eqb err "" then
             "Completed with warnings: Some files changed during transfer."
           else
             "Completed with warnings: Some files changed during transfer."
             +:+ " Details: " +:+ strip err)]
     else
       [jobFinished name false
          (if String.eqb err "" then
             "rsync failed with return code " +:+ str_of_Z rc +:+ "."
           else
             ("rsync failed with return code " +:+ str_of_Z rc +:+ ".")
             +:+ " Stderr: " +:+ strip err)])
    (after_loop wb env).
Proof.
  intros Hproc Hflag Hlate. cbv zeta. unfold after_loop.
  destruct (_process wb); [|congruence]. rewrite Hlate, Hflag.
  destruct (return_code env =? 0);
    [|destruct (return_code env =? 24)];
    destruct (String.eqb (stderr_output env) ""); cbn [app];
    repeat first [ apply (ends_in_here [_; _]) | apply (ends_in_here [_])
                 | apply ends_in_emit; [reflexivity|] ].
Qed.

(** Once the pre-flight checks have passed and the subprocess is launched,
    a job whose cancellation flag is set by the time the worker reads it
    (set before the loop, or by a [cancel()] that [cancel_seen] describes)
    ends with the terminal event (False, "Cancelled") and no other, whatever
    the exit code of the subprocess, 0 included. *)
Lemma flag_read_set_ends_cancelled (w : worker) (env : environment) :
  preflight_passes path_exists str_other w env -> popen env = None ->
  _is_cancelled w = true \/ cancel_preflight env = true
  \/ cancel_seen (c_int env) (cancel_late env) (iterations env) ->
  exists pre,
    signals (Worker.run path_exists str_other w env)
    = (pre ++ [jobFinished (schema_name w) false "Cancelled"])%list
    /\ Forall (fun s => is_terminal s = false) pre.
Proof.
  intros Hpre Hpopen Hcancel.
  change (ends_in [jobFinished (schema_name w) false "Cancelled"] (run w env)).
  rewrite (run_launched w env Hpre Hpopen).
  do 2 (apply ends_in_emit; [reflexivity|]). apply ends_in_popen.
  set (w0 := at_loop_entry w env).
  assert (Hname : schema_name w0 = schema_name w)
    by apply at_loop_entry_name.
  assert (Hproc : _process w0 <> None) by discriminate.
  assert (Hout : snd (monitor (c_int env) w0 (iterations env)) = Return
                 \/ exists wb,
                      snd (monitor (c_int env) w0 (iterations env)) = Break wb
                      /\ (_is_cancelled wb = true \/ cancel_late env = true)).
  { destruct (_is_cancelled w0) eqn:Hflag.
    - left. now rewrite monitor_flag_set.
    - subst w0. rewrite at_loop_entry_flag in Hflag.
      apply orb_false_elim in Hflag as [Hf Hp].
      destruct Hcancel as [?|[?|Hseen]]; [congruence..|].
      now apply monitor_cancel_seen. }
  destruct (monitor_shape (c_int env) (iterations env) w0) as [n Hn].
  destruct Hout as [Hout | (wb & Hout & Hflag)]; rewrite Hout in *.
  - rewrite Hn, Hname, app_nil_r.
    apply ends_in_app; [apply lines_nonterminal | apply (ends_in_here [_])].
  - destruct Hn as (-> & Hwb & Hpwb). rewrite Hname in *.
    apply ends_in_app; [apply lines_nonterminal|].
    rewrite <- Hwb. now apply after_loop_cancelled.
Qed.

(** C4, as the code has it. For a job that nobody cancels, whose output is
    read to its end without an exception and whose subprocess runs to its
    exit: with exit code 0 the job ends with progress 100 and then the
    terminal event (True, "Completed"); with exit code 24 it ends with
    progress 100 and then a terminal success event whose text carries the
    drained error stream; with any other exit code it ends with a terminal
    failed event whose text carries the code and the drained error
    stream. *)
Theorem exit_code_decides_outcome (w : worker) (env : environment) :
  preflight_passes path_exists str_other w env -> popen env = None ->
  _is_cancelled w = false -> cancel_preflight env = false ->
  Forall (undisturbed (c_int env)) (iterations env) ->
  cancel_late env = false ->
  let name := schema_name w in
  let rc := return_code env in
  let err := stderr_output env in
  exists pre,
    signals (Worker.run path_exists str_other w env) =
    (pre ++
     if rc =? 0 then
       [progressUpdated name 100; jobFinished name true "Completed"]
     else if rc =? 24 then
       [progressUpdated name 100;
        jobFinished name true
          (if String.eqb err "" then
             "Completed with warnings: Some files changed during transfer."
           else
             "Completed with warnings: Some files changed during transfer."
             +:+ " Details: " +:+ strip err)]
     else
       [jobFinished name false
          (if String.eqb err "" then
             "rsync failed with return code " +:+ str_of_Z rc +:+ "."
           else
             ("rsync failed with return code " +:+ str_of_Z rc +:+ ".")
             +:+ " Stderr: " +:+ strip err)])%list
    /\ Forall (fun s => is_terminal s = false) pre.
Proof.
  intros Hpre Hpopen Hflag Hcp Hall Hlate. cbv zeta.
  match goal with |- exists pre, _ = (pre ++ ?suf)%list /\ _ =>
    change (ends_in suf (run w env)) end.
  rewrite (run_launched w env Hpre Hpopen).
  do 2 (apply ends_in_emit; [reflexivity|]). apply ends_in_popen.
  set (w0 := at_loop_entry w env).
  assert (Hname : schema_name w0 = schema_name w)
    by apply at_loop_entry_name.
  assert (Hf0 : _is_cancelled w0 = false).
  { subst w0. rewrite at_loop_entry_flag, Hflag, Hcp. reflexivity. }
  assert (Hout : snd (monitor (c_int env) w0 (iterations env)) = Break w0).
  { apply monitor_undisturbed; [assumption.. | discriminate]. }
  destruct (monitor_shape (c_int env) (iterations env) w0) as [n Hn].
  rewrite Hout in *. destruct Hn as (-> & _ & _). rewrite Hname.
  apply ends_in_app; [apply lines_nonterminal|].
  rewrite <- Hname. apply after_loop_exit; [discriminate | assumption..].
Qed.

End RunProperties.

(** * Properties of the progress parser *)

Section ParserProperties.

Import Worker.

Lemma digit_not_space c : is_digit c = true -> is_space c = false.
Proof.
  destruct c as [[] [] [] [] [] [] [] []]; vm_compute; congruence.
Qed.

Lemma span_spec p cs : forall run tl,
  span p cs = (run, tl) ->
  cs = (run ++ tl)%list /\ Forall (fun x => p x = true) run
  /\ match tl with [] => True | c :: _ => p c = false end.
Proof.
  induction cs as [|c cs IH]; intros run tl; cbn [span].
  - intros [= <- <-]. repeat split. constructor.
  - destruct (p c) eqn:Hc.
    + destruct (span p cs) as [run' tl']. intros [= <- <-].
      destruct (IH run' tl' eq_refl) as (-> & Hrun & Htl).
      repeat split; [now constructor | exact Htl].
    + intros [= <- <-]. repeat split; [constructor | exact Hc].
Qed.

Lemma span_app p run tl :
  Forall (fun x => p x = true) run ->
  match tl with [] => True | c :: _ => p c = false end ->
  span p (run ++ tl) = (run, tl).
Proof.
  induction 1 as [|c run Hc _ IH]; intros Htl; cbn [app span].
  - destruct tl as [|c tl]; [reflexivity|]. cbn [span]. now rewrite Htl.
  - rewrite Hc, (IH Htl). reflexivity.
Qed.

(** The pattern anchored at the head of the line. *)
Lemma match_here_iff cs ds :
  match_here cs = Some ds <-> exists ws, pattern_occurs cs [] ws ds.
Proof.
  unfold match_here, pattern_occurs. split.
  - destruct (span is_space cs) as [ws r1] eqn:Hs.
    destruct (span_spec _ _ _ _ Hs) as (-> & Hws & _).
    destruct ws as [|s ws]; [discriminate|].
    destruct (span is_digit r1) as [ds' r2] eqn:Hd.
    destruct (span_spec _ _ _ _ Hd) as (-> & Hds & _).
    destruct ds' as [|d ds']; [discriminate|].
    destruct r2 as [|pc r2]; [discriminate|].
    destruct (Ascii.eqb_spec pc "%"%char) as [->|Hne].
    + destruct r2 as [|c post]; [discriminate|].
      destruct (is_space c) eqn:Hc; [|discriminate]. intros [= <-].
      exists (s :: ws), c, post. cbn [app]. repeat split; auto; discriminate.
    + intros H. exfalso.
      destruct pc as [[] [] [] [] [] [] [] []]; destruct r2;
        try discriminate H; now apply Hne.
  - intros (ws & c & post & -> & Hne & Hws & Hdne & Hds & Hc). cbn [app].
    destruct ds as [|d ds]; [congruence|].
    rewrite span_app; [|exact Hws|].
    2:{ cbn [app]. apply digit_not_space. now inversion Hds. }
    destruct ws as [|s ws]; [congruence|].
    rewrite span_app; [|exact Hds|reflexivity].
    now rewrite Hc.
Qed.

Lemma pattern_occurs_cons x cs pre ws ds :
  pattern_occurs (x :: cs) (x :: pre) ws ds <-> pattern_occurs cs pre ws ds.
Proof.
  unfold pattern_occurs. split; intros (c & post & Heq & H);
    exists c, post; (split; [|exact H]).
  - cbn [app] in Heq. now injection Heq.
  - cbn [app]. now rewrite Heq.
Qed.

Lemma pattern_occurs_inv x cs pre ws ds :
  pattern_occurs (x :: cs) pre ws ds ->
  pre = [] \/ exists pre', pre = x :: pre' /\ pattern_occurs cs pre' ws ds.
Proof.
  destruct pre as [|y pre']; [now left|]. intros H. right.
  assert (y = x) as ->.
  { destruct H as (c & post & Heq & _). cbn [app] in Heq. congruence. }
  exists pre'. split; [reflexivity|]. now apply pattern_occurs_cons in H.
Qed.

Lemma pattern_occurs_nil pre ws ds : ~ pattern_occurs [] pre ws ds.
Proof.
  intros (c & post & Heq & Hne & _).
  destruct pre; [destruct ws; [congruence|]|]; discriminate.
Qed.

(** [re_search] finds nothing exactly when the pattern occurs nowhere. *)
Lemma re_search_none cs :
  re_search cs = None <-> forall pre ws ds, ~ pattern_occurs cs pre ws ds.
Proof.
  induction cs as [|x cs IH]; cbn [re_search].
  - split; [intros _ pre ws ds; apply pattern_occurs_nil|].
    intros _. reflexivity.
  - destruct (match_here (x :: cs)) as [ds0|] eqn:Hm.
    + split; [discriminate|]. intros Hno. exfalso.
      apply match_here_iff in Hm as [ws Hocc]. exact (Hno _ _ _ Hocc).
    + rewrite IH. split.
      * intros Hno pre ws ds Hocc.
        destruct (pattern_occurs_inv _ _ _ _ _ Hocc) as [-> | (pre' & -> & Hocc1)].
        -- assert (match_here (x :: cs) = Some ds) by
             (apply match_here_iff; eexists; eassumption). congruence.
        -- exact (Hno _ _ _ Hocc1).
      * intros Hno pre ws ds Hocc.
        apply (Hno (x :: pre) ws ds). now apply pattern_occurs_cons.
Qed.

(** [re_search] returns the digits of the leftmost occurrence. *)
Lemma re_search_some cs ds :
  re_search cs = Some ds <->
  exists pre ws,
    pattern_occurs cs pre ws ds
    /\ forall pre' ws' ds', pattern_occurs cs pre' ws' ds' ->
         (length pre <= length pre')%nat
         /\ (length pre' = length pre -> ds' = ds).
Proof.
  induction cs as [|x cs IH]; cbn [re_search].
  - split.
    + intros H. discriminate H.
    + intros (pre & ws & Hocc & _). now apply pattern_occurs_nil in Hocc.
  - destruct (match_here (x :: cs)) as [ds0|] eqn:Hm.
    + split.
      * intros [= <-]. pose proof Hm as Hm'.
        apply match_here_iff in Hm' as [ws Hocc].
        exists [], ws. split; [exact Hocc|].
        intros pre' ws' ds' Hocc'. split; [cbn; lia|].
        destruct pre'; [|discriminate]. intros _.
        assert (match_here (x :: cs) = Some ds') by
          (apply match_here_iff; eexists; eassumption). congruence.
      * intros (pre & ws & Hocc & Hleft).
        pose proof Hm as Hm'. apply match_here_iff in Hm' as [ws0 Hocc0].
        destruct (Hleft _ _ _ Hocc0) as [Hle Heq].
        destruct pre; [|cbn in Hle; lia]. now rewrite (Heq eq_refl).
    + rewrite IH. split.
      * intros (pre & ws & Hocc & Hleft). exists (x :: pre), ws.
        split; [now apply pattern_occurs_cons|].
        intros pre' ws' ds' Hocc'.
        destruct (pattern_occurs_inv _ _ _ _ _ Hocc')
          as [-> | (p' & -> & Hocc1)].
        -- assert (match_here (x :: cs) = Some ds') by
             (apply match_here_iff; eexists; eassumption). congruence.
        -- destruct (Hleft _ _ _ Hocc1) as [Hle Heq]. cbn [length].
           split; [lia | intros; apply Heq; lia].
      * intros (pre & ws & Hocc & Hleft).
        destruct (pattern_occurs_inv _ _ _ _ _ Hocc)
          as [-> | (p' & -> & Hocc1)].
        -- assert (match_here (x :: cs) = Some ds) by
             (apply match_here_iff; eexists; eassumption). congruence.
        -- exists p', ws. split; [exact Hocc1|].
           intros pre' ws' ds' Hocc'.
           assert (Hocc'' : pattern_occurs (x :: cs) (x :: pre') ws' ds')
             by now apply pattern_occurs_cons.
           destruct (Hleft _ _ _ Hocc'') as [Hle Heq]. cbn [length] in *.
           split; [lia | intros; apply Heq; lia].
Qed.

Lemma digit_value_range c : is_digit c = true -> 0 <= digit_value c <= 9.
Proof.
  unfold is_digit, digit_value. intros H.
  apply andb_prop in H as [H1 H2].
  apply N.leb_le in H1, H2. lia.
Qed.

Lemma fold_digits_nonneg ds : forall acc,
  Forall (fun x => is_digit x = true) ds -> 0 <= acc ->
  0 <= fold_left (fun acc c => 10 * acc + digit_value c) ds acc.
Proof.
  induction ds as [|d ds IH]; intros acc Hds Hacc; cbn [fold_left]; [lia|].
  apply Forall_cons in Hds as [Hd Hds].
  apply IH; [exact Hds|]. pose proof (digit_value_range d Hd). lia.
Qed.

Lemma int_of_digits_nonneg ds :
  Forall (fun x => is_digit x = true) ds -> 0 <= int_of_digits ds.
Proof. intros Hds. apply fold_digits_nonneg; [exact Hds | lia]. Qed.

Lemma leftmost_digits cs pre ws ds :
  pattern_occurs cs pre ws ds ->
  (forall pre' ws' ds', pattern_occurs cs pre' ws' ds' ->
     (length pre <= length pre')%nat) ->
  re_search cs = Some ds.
Proof.
  intros Hocc Hleft.
  destruct (re_search cs) as [ds0|] eqn:Hs.
  - apply re_search_some in Hs as (pre0 & ws0 & Hocc0 & Hl0).
    f_equal. destruct (Hl0 _ _ _ Hocc) as [Hle Heq].
    symmetry. apply Heq. pose proof (Hleft _ _ _ Hocc0). lia.
  - exfalso. exact (proj1 (re_search_none cs) Hs _ _ _ Hocc).
Qed.

Lemma int_of_group_short ds :
  (length ds <= 4300)%nat -> int_of_group ds = inr (int_of_digits ds).
Proof.
  intros Hlen. unfold int_of_group, int_max_str_digits.
  destruct (Nat.ltb_spec 4300 (length ds)); [lia | reflexivity].
Qed.

Lemma int_of_group_long ds :
  (4300 < length ds)%nat -> exists e, int_of_group ds = inl e.
Proof.
  intros Hlen. unfold int_of_group, int_max_str_digits.
  destruct (Nat.ltb_spec 4300 (length ds)); [eauto | lia].
Qed.

(** C9, as the code has it. A non-empty line read from the subprocess makes
    the loop emit its log event first. A line without whitespace, digits, a
    percent sign and whitespace gives nothing more. Otherwise the digits of
    the leftmost such occurrence decide: when they are at most 4300 and
    denote an integer that fits a C int, a progress event with that integer
    follows, which is never negative and which nothing bounds by 100; more
    than 4300 digits make [int] raise, and no progress event follows; a
    larger integer is left to the conversion of the signal. *)
Theorem progress_parsed_from_line (conv : conversion) (name line : string) :
  line <> "" ->
  let cs := list_ascii_of_string line in
  let log := logMessage name (strip line) in
  (forall w it rest,
      schema_name w = name -> _is_cancelled w = false ->
      _process w <> None ->
      cancel_before it = None -> readline it = Line line ->
      fst (monitor conv w (it :: rest))
      = (map Emit (fst (process_line conv name line))
         ++ match snd (process_line conv name line) with
            | Some _ => []
            | None =>
                fst (monitor conv (cancel_call (cancel_during it) w) rest)
            end)%list)
  /\ ((forall pre ws ds, ~ pattern_occurs cs pre ws ds) ->
      process_line conv name line = ([log], None))
  /\ (forall pre ws ds,
      pattern_occurs cs pre ws ds ->
      (forall pre' ws' ds', pattern_occurs cs pre' ws' ds' ->
         (length pre <= length pre')%nat) ->
      let p := int_of_digits ds in
      0 <= p
      /\ ((length ds <= 4300)%nat -> p <= 2147483647 ->
          process_line conv name line
          = ([log; progressUpdated name p], None))
      /\ ((4300 < length ds)%nat ->
          exists e, process_line conv name line = ([log], Some e))
      /\ ((length ds <= 4300)%nat -> 2147483647 < p ->
          process_line conv name line
          = (log :: match fst (conv p) with
                    | Some percentage => [progressUpdated name percentage]
                    | None => []
                    end,
             snd (conv p)))).
Proof.
  intros Hline cs log. split; [|split].
  - intros w it rest Hname Hflag Hproc Hb Hr. cbn [monitor].
    rewrite Hb, Hr. cbn [cancel_call]. rewrite Hflag.
    destruct (_process w); [|congruence].
    destruct (String.eqb_spec line ""); [contradiction|].
    rewrite cancel_call_name, Hname.
    destruct (process_line conv name line) as [emitted [e|]]; cbn [fst snd].
    + now rewrite app_nil_r.
    + now destruct (monitor conv (cancel_call (cancel_during it) w) rest).
  - intros Hno. rewrite process_line_cases. unfold parse_progress. fold cs.
    apply re_search_none in Hno. now rewrite Hno.
  - intros pre ws ds Hocc Hleft p.
    assert (Hp : 0 <= p).
    { destruct Hocc as (c & post & _ & _ & _ & _ & Hds & _).
      now apply int_of_digits_nonneg. }
    pose proof (leftmost_digits cs pre ws ds Hocc Hleft) as Hs.
    split; [exact Hp|].
    rewrite process_line_cases. unfold parse_progress. fold cs.
    rewrite Hs. cbn [option_map]. fold log. fold p.
    split; [|split].
    + intros Hlen Hmax. rewrite int_of_group_short by exact Hlen. fold p.
      unfold fits_c_int.
      destruct (Z.leb_spec (-2147483648) p); [|lia].
      destruct (Z.leb_spec p 2147483647); [|lia]. reflexivity.
    + intros Hlen. destruct (int_of_group_long ds Hlen) as [e ->]. eauto.
    + intros Hlen Hmax. rewrite int_of_group_short by exact Hlen. fold p.
      unfold fits_c_int.
      destruct (Z.leb_spec p 2147483647); [lia|].
      now rewrite andb_false_r.
Qed.

End ParserProperties.

(** * Properties of the queue of [MainWindow] *)

Section QueueProperties.

Import Main.

Variable str_other : pyval -> string.

Lemma start_backup_queue data s :
  backup_queue (start_backup data s) = backup_queue s.
Proof. unfold start_backup. now destruct (Worker.BackupWorker data). Qed.

Lemma process_backup_queue_tail s :
  backup_queue (process_backup_queue s) = backup_queue s
  \/ exists name, backup_queue s = name :: backup_queue (process_backup_queue s).
Proof.
  unfold process_backup_queue.
  destruct (match current_worker s with
            | None => true
            | Some i => negb (thread_running s i)
            end); [|now left].
  destruct (backup_queue s) as [|name rest] eqn:Hq; [now left|].
  right. exists name. f_equal. cbn.
  destruct (schemas s !! name); [now rewrite start_backup_queue | reflexivity].
Qed.

Lemma handle_keeps_NoDup e s :
  NoDup (backup_queue s) -> NoDup (backup_queue (handle str_other e s)).
Proof.
  intros Hnd. destruct e as [|sel|alive|i| |pe|files]; cbn [handle].
  - destruct (process_backup_queue_tail s) as [-> | [name Hq]]; [exact Hnd|].
    rewrite Hq in Hnd. now apply NoDup_cons in Hnd as [_ Hnd].
  - unfold queue_selected_backup. destruct sel as [|item rest]; [exact Hnd|].
    destruct (is_valid item); cbn [negb]; [|exact Hnd].
    case_bool_decide as Hin; [exact Hnd|]. cbn.
    apply NoDup_app. split; [exact Hnd|]. split; [|apply NoDup_singleton].
    intros x Hx Hx'. apply list_elem_of_singleton in Hx'. now subst.
  - unfold cancel_current_backup.
    destruct (current_worker s); [|exact Hnd].
    destruct (threads s !! n) as [t|]; [|exact Hnd].
    now destruct (isRunning t).
  - unfold thread_exits. destruct (threads s !! i) as [t|]; [|exact Hnd].
    now destruct (isRunning t).
  - unfold deliver_finished. destruct (finished_posted s); [exact Hnd|].
    unfold worker_thread_finished. cbn. now destruct (current_worker s).
  - exact Hnd.
  - exact Hnd.
Qed.

Lemma exec_keeps_NoDup evs : forall s,
  NoDup (backup_queue s) -> NoDup (backup_queue (exec str_other evs s)).
Proof.
  induction evs as [|e evs IH]; intros s Hnd; [exact Hnd|].
  cbn. apply IH. now apply handle_keeps_NoDup.
Qed.

(** C7. Enqueueing a schema name that is already pending leaves the queue
    as it is, enqueueing a schema whose list item is marked invalid is
    refused without touching the queue, a valid name that is not pending is
    appended at the end, and so in every state the window reaches a name
    occurs at most once in the queue. *)
Theorem enqueue_keeps_queue_duplicate_free :
  (forall item others s,
      widget_name item ∈ backup_queue s ->
      queue_selected_backup (item :: others) s = s)
  /\ (forall item others s,
      is_valid item = false ->
      queue_selected_backup (item :: others) s = s)
  /\ (forall item others s,
      is_valid item = true -> widget_name item ∉ backup_queue s ->
      backup_queue (queue_selected_backup (item :: others) s)
      = (backup_queue s ++ [widget_name item])%list)
  /\ (forall path_exists files evs,
      NoDup (backup_queue
               (exec str_other evs (init path_exists str_other files)))).
Proof.
  repeat split.
  - intros item others s Hin. unfold queue_selected_backup.
    destruct (is_valid item); cbn [negb]; [|reflexivity].
    now rewrite bool_decide_eq_true_2.
  - intros item others s Hv. unfold queue_selected_backup. now rewrite Hv.
  - intros item others s Hv Hin. unfold queue_selected_backup.
    rewrite Hv. cbn [negb]. now rewrite bool_decide_eq_false_2.
  - intros pe files evs. apply exec_keeps_NoDup. cbn. constructor.
Qed.

(** C8, as the code has it. A tick that finds the window idle and a name at
    the head of the queue removes that name and looks it up in [schemas],
    the table in memory as the last [load_and_display_schemas] left it, at
    that moment: when the name is there a worker is created on the entry of
    the table and started; when it is not, no worker is started and the queue
    is looked at again after a single shot of 10 ms. The files on disk are
    not read. *)
Theorem dequeue_resolves_in_loaded_table (s : window) (name : string)
    (rest : list string) :
  current_worker s = None
  \/ (exists i, current_worker s = Some i /\ thread_running s i = false) ->
  backup_queue s = name :: rest ->
  (forall data w,
      schemas s !! name = Some data -> Worker.BackupWorker data = Some w ->
      process_backup_queue s
      = mkWindow (schemas s) rest (Some (length (threads s)))
          (threads s ++ [mkThread w true true])%list
          (finished_posted s) (single_shots s) (config_dir s))
  /\ (schemas s !! name = None ->
      process_backup_queue s
      = mkWindow (schemas s) rest (current_worker s) (threads s)
          (finished_posted s) (single_shots s ++ [10])%list (config_dir s))
  /\ (forall files,
      process_backup_queue (with_config_dir files s)
      = with_config_dir files (process_backup_queue s)).
Proof.
  intros Hidle Hq.
  assert (Hguard : match current_worker s with
                   | None => true
                   | Some i => negb (thread_running s i)
                   end = true).
  { destruct Hidle as [-> | (i & -> & Hi)]; [reflexivity | now rewrite Hi]. }
  repeat split.
  - intros data w Hdata Hw. unfold process_backup_queue.
    rewrite Hguard, Hq. cbn. rewrite Hdata. unfold start_backup.
    rewrite Hw. reflexivity.
  - intros Hnone. unfold process_backup_queue.
    rewrite Hguard, Hq. cbn. rewrite Hnone. reflexivity.
  - intros files. unfold process_backup_queue. cbn.
    change (thread_running (with_config_dir files s))
      with (thread_running s).
    rewrite Hguard, Hq. cbn.
    destruct (schemas s !! name) as [data|]; [|reflexivity].
    unfold start_backup. now destruct (Worker.BackupWorker data).
Qed.

(** *** When [finished] is delivered promptly *)

Lemma none_running (l : list thread) :
  (forall j t, l !! j = Some t -> isRunning t <> true) ->
  filter (fun t => isRunning t = true) l = [].
Proof.
  induction l as [|a l IH]; intros Hnone; [reflexivity|].
  rewrite filter_cons_False by exact (Hnone 0%nat a eq_refl).
  apply IH. intros j t Hj. exact (Hnone (S j) t Hj).
Qed.

Lemma running_at_one_index (l : list thread) :
  (forall i j ti tj, l !! i = Some ti -> l !! j = Some tj ->
                     isRunning ti = true -> isRunning tj = true -> i = j) ->
  (length (filter (fun t => isRunning t = true) l) <= 1)%nat.
Proof.
  induction l as [|a l IH]; intros Huniq; [cbn; lia|].
  rewrite filter_cons. destruct (decide (isRunning a = true)) as [Ha|Ha].
  - assert (Hnone : filter (fun t => isRunning t = true) l = []).
    { apply none_running. intros j t Hj Hrun.
      specialize (Huniq 0%nat (S j) a t eq_refl Hj Ha Hrun). lia. }
    rewrite Hnone. cbn. lia.
  - apply IH. intros i j ti tj Hi Hj Hri Hrj.
    specialize (Huniq (S i) (S j) ti tj Hi Hj Hri Hrj). lia.
Qed.

Lemma settled_at_most_one s : settled s -> (running_jobs s <= 1)%nat.
Proof.
  intros [_ Hrun]. apply running_at_one_index.
  intros i j ti tj Hi Hj Hri Hrj.
  destruct (Hrun i ti Hi Hri) as [Hci _], (Hrun j tj Hj Hrj) as [Hcj _].
  congruence.
Qed.

Lemma settled_tick s : settled s -> settled (process_backup_queue s).
Proof.
  intros Hs. pose proof Hs as [Hposted Hrun]. unfold process_backup_queue.
  destruct (match current_worker s with
            | None => true
            | Some i => negb (thread_running s i)
            end) eqn:Hguard; [|exact Hs].
  assert (Hidle : forall i t, threads s !! i = Some t -> isRunning t = false).
  { intros i t Hi. destruct (isRunning t) eqn:Hr; [|reflexivity].
    destruct (Hrun i t Hi Hr) as [Hc _]. rewrite Hc in Hguard.
    unfold thread_running in Hguard. rewrite Hi, Hr in Hguard.
    discriminate Hguard. }
  destruct (backup_queue s) as [|name rest]; [exact Hs|].
  cbn. destruct (schemas s !! name) as [data|]; [|exact Hs].
  unfold start_backup. destruct (Worker.BackupWorker data) as [w|];
    [|exact Hs].
  split; [exact Hposted|]. cbn. intros i t Hi Hr.
  apply lookup_snoc_Some in Hi as [[_ Hi] | [-> <-]].
  - rewrite (Hidle i t Hi) in Hr. discriminate Hr.
  - now split.
Qed.

Lemma settled_cancel alive s :
  settled s -> settled (cancel_current_backup alive s).
Proof.
  intros Hs. pose proof Hs as [Hposted Hrun]. unfold cancel_current_backup.
  destruct (current_worker s) as [c|] eqn:Hc; [|exact Hs].
  destruct (threads s !! c) as [t|] eqn:Ht; [|exact Hs].
  destruct (isRunning t) eqn:Hr; [|exact Hs].
  split; [exact Hposted|]. cbn. intros i t' Hi Hr'.
  apply list_lookup_insert_Some in Hi as [(-> & <- & _) | [_ Hi]].
  - cbn in *. destruct (Hrun i t Ht Hr) as [Hci Hcon].
    rewrite ?Hc. now split.
  - destruct (Hrun i t' Hi Hr') as [Hci Hcon]. rewrite ?Hc. now split.
Qed.

Lemma settled_exit_then_delivery i s :
  settled s -> settled (deliver_finished (thread_exits i s)).
Proof.
  intros Hs. pose proof Hs as [Hposted Hrun]. unfold thread_exits.
  destruct (threads s !! i) as [t|] eqn:Ht;
    [|unfold deliver_finished; rewrite Hposted; exact Hs].
  destruct (isRunning t) eqn:Hr;
    [|unfold deliver_finished; rewrite Hposted; exact Hs].
  destruct (Hrun i t Ht Hr) as [Hc Hcon]. rewrite Hcon, Hposted.
  unfold deliver_finished, worker_thread_finished. cbn. rewrite Hc. cbn.
  split; [reflexivity|]. intros j t' Hj Hr'. exfalso.
  cbn [threads singleShot with_current with_threads with_posted] in Hj.
  rewrite list_lookup_alter in Hj. destruct (decide (i = j)) as [<-|Hne].
  - rewrite list_lookup_insert_eq in Hj by (now apply lookup_lt_Some with t).
    cbn in Hj. injection Hj as <-. cbn in Hr'. discriminate Hr'.
  - rewrite list_lookup_insert_ne in Hj by exact Hne.
    destruct (Hrun j t' Hj Hr') as [Hcj _]. congruence.
Qed.

(** The guard of [process_backup_queue] does keep the jobs apart as long
    as every [finished] signal arrives before the next event: at most one
    worker runs, in every state such a schedule reaches. *)
Lemma at_most_one_job_when_finished_is_prompt evs : forall s,
  prompt evs = true -> settled s ->
  settled (exec str_other evs s)
  /\ (running_jobs (exec str_other evs s) <= 1)%nat.
Proof.
  assert (Hmain : forall n evs s, (length evs <= n)%nat ->
            prompt evs = true -> settled s -> settled (exec str_other evs s)).
  { clear evs. induction n as [|n IH]; intros evs s Hlen Hp Hs.
    - destruct evs; [exact Hs | inversion Hlen].
    - destruct evs as [|e evs]; [exact Hs|]. cbn [length] in Hlen.
      change (settled (exec str_other evs (handle str_other e s))).
      destruct e as [|sel|alive|i| |pe|files]; cbn [prompt] in Hp.
      + apply IH; [lia | exact Hp | now apply settled_tick].
      + apply IH; [lia | exact Hp |]. cbn [handle].
        unfold queue_selected_backup. destruct sel as [|item others];
          [exact Hs|].
        destruct (negb (is_valid item)); [exact Hs|].
        case_bool_decide; [exact Hs | exact Hs].
      + apply IH; [lia | exact Hp | now apply settled_cancel].
      + destruct evs as [|[] evs]; try discriminate Hp.
        cbn [length] in Hlen.
        change (settled (exec str_other evs
                           (deliver_finished
                              (handle str_other (ThreadExits i) s)))).
        apply IH; [lia | exact Hp | now apply settled_exit_then_delivery].
      + discriminate Hp.
      + apply IH; [lia | exact Hp | exact Hs].
      + apply IH; [lia | exact Hp | exact Hs]. }
  intros s Hp Hs.
  assert (Hfinal := Hmain (length evs) evs s (le_n _) Hp Hs).
  split; [exact Hfinal | now apply settled_at_most_one].
Qed.

Lemma init_settled path_exists files :
  settled (init path_exists str_other files).
Proof. split; [reflexivity|]. intros i t Hi. discriminate Hi. Qed.

(** From the initial window in particular. *)
Corollary at_most_one_job_from_init path_exists files evs :
  prompt evs = true ->
  (running_jobs (exec str_other evs (init path_exists str_other files))
   <= 1)%nat.
Proof.
  intros Hp.
  apply (at_most_one_job_when_finished_is_prompt evs _ Hp (init_settled _ _)).
Qed.

End QueueProperties.

(** * The properties on the sample inputs *)

Section Examples.

Import Worker Main.

Lemma sample_preflight_passes code err late :
  preflight_passes Sample.all_exist Sample.str_other Sample.fresh
    (Sample.env_exit code err late).
Proof.
  split; [exists []; reflexivity|].
  exists 200000000%N. split; [reflexivity | now vm_compute].
Defined.

Lemma sample_undisturbed code err late :
  Forall (undisturbed (c_int (Sample.env_exit code err late)))
    (iterations (Sample.env_exit code err late)).
Proof.
  repeat constructor. exists Sample.progress_line. now split.
Defined.

(** C1: the schedule [Sample.late_finished] leaves two workers running. The
    tick that comes between the end of A's [run] and the delivery of A's
    [finished] signal starts B; the slot then clears [current_worker], which
    refers to B by then; the next tick finds the slot empty and starts C. *)
Theorem two_jobs_run_after_late_finished :
  let s := exec Sample.str_other Sample.late_finished Sample.window0 in
  running_jobs s = 2%nat
  /\ current_worker s = Some 2%nat
  /\ thread_running s 1 = true /\ thread_running s 2 = true
  /\ (Worker.schema_name ∘ th_worker) <$> threads s = ["A"; "B"; "C"].
Proof. vm_compute. repeat split. Qed.

(** C2: a job whose source directory may no longer be searched when it
    starts. The validation of [run] stands outside every [try]; the
    [PermissionError] of the test of existence leaves [run] after the first
    log event, and the job emits no terminal event at all. *)
Theorem run_ends_without_terminal_event :
  Utils.validate_schema_paths Sample.locked Sample.str_other
    (VDict (schema_data Sample.fresh))
  = inl (OtherException "[Errno 13] Permission denied: '/home/user/docs'")
  /\ Worker.run Sample.locked Sample.str_other Sample.fresh
       (Sample.env_exit 0 "" false)
     = [Emit (logMessage "docs" "Starting backup for 'docs'...")]
  /\ Forall nonterminal
       (signals (Worker.run Sample.locked Sample.str_other Sample.fresh
                   (Sample.env_exit 0 "" false))).
Proof. split; [reflexivity|]. split; [reflexivity|]. repeat constructor. Qed.

(** C2, a second way to the same end: rsync fills the pipe of its error
    stream while [run] waits for a line of output; [readline] does not
    return, and the job emits no terminal event. *)
Lemma blocked_read_leaves_job_unfinished :
  hangs Sample.fresh Sample.env_stderr_full
  /\ signals (Worker.run Sample.all_exist Sample.str_other Sample.fresh
                Sample.env_stderr_full)
     = [logMessage "docs" "Starting backup for 'docs'...";
        logMessage "docs"
          "Running: rsync -a --info=progress2 --no-i-r /home/user/docs /mnt/backup";
        logMessage "docs" "1,234,567  42%   10.00MB/s    0:00:10";
        progressUpdated "docs" 42].
Proof. split; reflexivity. Qed.

(** C3: [cancel()] is called while [readline] waits for a line of a live
    subprocess. [terminate_process] sends SIGTERM and clears [_process]; the
    subprocess closes its output, [readline] returns the empty string, and
    [self._process.poll()] trips over the cleared reference: the job ends
    with the failed event of the handler, not with the cancelled one. *)
Theorem cancel_during_blocked_read_reports_error :
  signals (Worker.run Sample.all_exist Sample.str_other Sample.fresh
             Sample.env_cancel_blocked)
  = [logMessage "docs" "Starting backup for 'docs'...";
     logMessage "docs"
       "Running: rsync -a --info=progress2 --no-i-r /home/user/docs /mnt/backup";
     logMessage "docs" "1,234,567  42%   10.00MB/s    0:00:10";
     progressUpdated "docs" 42;
     jobFinished "docs" false
       "An unexpected error occurred during backup: 'NoneType' object has no attribute 'poll'"].
Proof. reflexivity. Qed.

(** C3, before the launch: a job cancelled right after [start()] whose
    sources are gone ends with the failed event of the validation; the flag
    is not read before the loop. *)
Lemma cancelled_before_preflight_reports_failure :
  _is_cancelled Sample.cancelled_early = true
  /\ signals (Worker.run Sample.only_destination Sample.str_other
                Sample.cancelled_early (Sample.env_exit 0 "" false))
     = [logMessage "docs" "Starting backup for 'docs'...";
        validationError "docs"
          "Path validation failed before starting: Source: /home/user/docs";
        jobFinished "docs" false "Path validation failed"].
Proof. split; reflexivity. Qed.

(** C3, where the worker reads the flag: cancelled after the subprocess has
    exited with code 0, before the flag is read for the last time, the job
    ends with the cancelled event. *)
Lemma cancelled_after_exit_ends_cancelled :
  exists pre,
    signals (Worker.run Sample.all_exist Sample.str_other Sample.fresh
               (Sample.env_exit 0 "" true))
    = (pre ++ [jobFinished "docs" false "Cancelled"])%list
    /\ Forall (fun s => is_terminal s = false) pre.
Proof.
  apply (flag_read_set_ends_cancelled Sample.all_exist Sample.str_other
           Sample.fresh (Sample.env_exit 0 "" true)
           (sample_preflight_passes 0 "" true) eq_refl).
  right; right. eapply seen_later; try reflexivity; [now left|].
  now apply seen_after_end.
Qed.

(** C4, as claimed: nobody cancels and the subprocess exits with code 0,
    but a line of its output carries a percentage of 4301 digits; [int]
    raises, and the job ends with the failed event of the handler, without
    the progress event of 100. *)
Lemma exit_0_after_long_percentage_reports_failure :
  _is_cancelled Sample.fresh = false
  /\ return_code (Sample.env_line Sample.long_percentage) = 0
  /\ signals (Worker.run Sample.all_exist Sample.str_other Sample.fresh
                (Sample.env_line Sample.long_percentage))
     = [logMessage "docs" "Starting backup for 'docs'...";
        logMessage "docs"
          "Running: rsync -a --info=progress2 --no-i-r /home/user/docs /mnt/backup";
        logMessage "docs" (strip Sample.long_percentage);
        jobFinished "docs" false
          "An unexpected error occurred during backup: Exceeds the limit (4300 digits) for integer string conversion: value has 4301 digits; use sys.set_int_max_str_digits() to increase the limit"].
Proof. split; [reflexivity|]. split; [reflexivity|]. now vm_compute. Qed.

(** C4 on exit code 24 with text on the error stream. *)
Lemma exit_code_decides_outcome_witness :
  preflight_passes Sample.all_exist Sample.str_other Sample.fresh
    (Sample.env_exit 24 "file has vanished" false)
  /\ popen (Sample.env_exit 24 "file has vanished" false) = None
  /\ _is_cancelled Sample.fresh = false
  /\ cancel_preflight (Sample.env_exit 24 "file has vanished" false) = false
  /\ Forall (undisturbed
               (c_int (Sample.env_exit 24 "file has vanished" false)))
       (iterations (Sample.env_exit 24 "file has vanished" false))
  /\ cancel_late (Sample.env_exit 24 "file has vanished" false) = false
  /\ exists pre,
       signals (Worker.run Sample.all_exist Sample.str_other Sample.fresh
                  (Sample.env_exit 24 "file has vanished" false))
       = (pre ++
          [progressUpdated "docs" 100;
           jobFinished "docs" true
             "Completed with warnings: Some files changed during transfer. Details: file has vanished"])%list
       /\ Forall (fun s => is_terminal s = false) pre.
Proof.
  split; [apply sample_preflight_passes|]. split; [reflexivity|].
  split; [reflexivity|]. split; [reflexivity|].
  split; [apply sample_undisturbed|]. split; [reflexivity|].
  exact (exit_code_decides_outcome Sample.all_exist Sample.str_other
           Sample.fresh (Sample.env_exit 24 "file has vanished" false)
           (sample_preflight_passes _ _ _) eq_refl eq_refl eq_refl
           (sample_undisturbed _ _ _) eq_refl).
Defined.

(** C5 on a destination with 2 MB free. *)
Lemma preflight_failure_launches_nothing_witness :
  Utils.validate_schema_paths Sample.all_exist Sample.str_other
    (VDict (schema_data Sample.fresh)) = inr (true, [])
  /\ disk_usage (Sample.env_free 2000000) = inr 2000000%N
  /\ (2000000 < 100 * 1024 * 1024)%N
  /\ launches (Worker.run Sample.all_exist Sample.str_other Sample.fresh
                 (Sample.env_free 2000000)) = []
  /\ signals (Worker.run Sample.all_exist Sample.str_other Sample.fresh
                (Sample.env_free 2000000))
     = [logMessage "docs" "Starting backup for 'docs'...";
        diskSpaceError "docs"
          "Insufficient disk space at destination '/mnt/backup'. Free: 1.91 MB";
        jobFinished "docs" false "Insufficient disk space"].
Proof.
  split; [reflexivity|]. split; [reflexivity|]. split; [reflexivity|].
  exact (proj2 (proj2 (proj2
           (preflight_failure_launches_nothing Sample.all_exist
              Sample.str_other Sample.fresh (Sample.env_free 2000000))))
           [] 2000000%N eq_refl eq_refl eq_refl).
Defined.

(** C6: a dictionary whose destination is a name of 256 characters. The
    test of its existence raises [OSError], nothing catches it, and
    [validate_schema_paths] raises where it is to return a pair. *)
Theorem validate_raises_on_long_destination :
  Utils.validate_schema_paths Sample.name_max Sample.str_other
    (VDict [(VStr "sources", VList []);
            (VStr "destination", VStr Sample.long_name)])
  = inl (OtherException
           ("[Errno 36] File name too long: '" +:+ Sample.long_name +:+ "'")).
Proof. reflexivity. Qed.

(** C6 where every test returns: on a schema none of whose paths exists
    the answer is [False] with both paths among the problems. *)
Lemma validate_records_missing_paths :
  exists problems,
    Utils.validate_schema_paths Sample.none_exist Sample.str_other
      (Sample.schema "docs") = inr (false, problems)
    /\ In "Source: /home/user/docs" problems
    /\ In "Destination: /mnt/backup" problems.
Proof.
  eexists. split; [reflexivity|]. cbn. auto.
Qed.

(** C7 on a second click for a pending schema, and on the sample schedule. *)
Lemma enqueue_keeps_queue_duplicate_free_witness :
  let s := exec Sample.str_other [QueueClicked [Sample.item "A"]]
             Sample.window0 in
  widget_name (Sample.item "A") ∈ backup_queue s
  /\ queue_selected_backup [Sample.item "A"] s = s
  /\ NoDup (backup_queue
              (exec Sample.str_other Sample.late_finished Sample.window0)).
Proof.
  cbv zeta. split; [vm_compute; apply list_elem_of_here|]. split.
  - apply (proj1 (enqueue_keeps_queue_duplicate_free Sample.str_other)).
    vm_compute. apply list_elem_of_here.
  - apply (proj2 (proj2 (proj2
             (enqueue_keeps_queue_duplicate_free Sample.str_other)))
             Sample.all_exist Sample.files Sample.late_finished).
Defined.

(** C8, as claimed: the file of A is gone from the disk when the tick
    dequeues A, so A resolves to nothing there; the tick starts a job for A
    all the same, on the entry it has kept in memory, and asks for no
    re-check. *)
Lemma tick_starts_schema_removed_on_disk :
  let s := exec Sample.str_other Sample.removed_on_disk Sample.window0 in
  SchemaManager.load_schemas Sample.all_exist Sample.str_other (config_dir s)
    !! "A" = None
  /\ backup_queue s = [] /\ single_shots s = []
  /\ current_worker s = Some 0%nat
  /\ threads s
     = [mkThread
          (Worker.mkWorker
             (SchemaManager.dict_set
                (SchemaManager.dict_set
                   (SchemaManager.dict_set (Sample.entries "A")
                      "_is_valid" (VBool true))
                   "_invalid_paths" (VList []))
                "_filepath" (VStr "BackItUp/Config/A.yaml"))
             "A" false None)
          true true].
Proof. vm_compute. repeat split. Qed.

(** C8, as the code has it, on the window with A queued. *)
Lemma dequeue_resolves_in_loaded_table_witness :
  let s := exec Sample.str_other [QueueClicked [Sample.item "A"]]
             Sample.window0 in
  (current_worker s = None
   \/ exists i, current_worker s = Some i /\ thread_running s i = false)
  /\ backup_queue s = ["A"]
  /\ forall files,
       process_backup_queue (with_config_dir files s)
       = with_config_dir files (process_backup_queue s).
Proof.
  cbv zeta. split; [now left|]. split; [reflexivity|].
  apply (proj2 (proj2
           (dequeue_resolves_in_loaded_table
              (exec Sample.str_other [QueueClicked [Sample.item "A"]]
                 Sample.window0) "A" [] (or_introl eq_refl) eq_refl))).
Defined.

(** C9, as claimed: a line that carries 150% yields the percentage 150. *)
Lemma progress_above_100 :
  process_line Sample.wraps "docs" " 150% "
  = ([logMessage "docs" "150%"; progressUpdated "docs" 150], None)
  /\ ~ (0 <= 150 <= 100).
Proof. split; [reflexivity | lia]. Qed.

(** C9, beyond a C int: the integer 2147483648 does not reach the slot; what
    PySide6 is seen to deliver is -2147483648. *)
Lemma percentage_beyond_c_int :
  process_line Sample.wraps "docs" " 2147483648% "
  = ([logMessage "docs" "2147483648%"; progressUpdated "docs" (-2147483648)],
     None).
Proof. reflexivity. Qed.

(** C9, beyond 4300 digits: [int] raises and no progress event follows. *)
Lemma percentage_of_4301_digits :
  fst (process_line Sample.wraps "docs" Sample.long_percentage)
  = [logMessage "docs" (strip Sample.long_percentage)]
  /\ snd (process_line Sample.wraps "docs" Sample.long_percentage) <> None.
Proof. split; [now vm_compute|]. now vm_compute. Qed.

(** C9, as the code has it, on a progress line of rsync. *)
Lemma progress_parsed_from_line_witness :
  Sample.progress_line <> ""
  /\ process_line Sample.wraps "docs" Sample.progress_line
     = ([logMessage "docs" (strip Sample.progress_line);
         progressUpdated "docs" 42], None)
  /\ ((forall pre ws ds,
         ~ pattern_occurs (list_ascii_of_string Sample.progress_line)
             pre ws ds) ->
      process_line Sample.wraps "docs" Sample.progress_line
      = ([logMessage "docs" (strip Sample.progress_line)], None)).
Proof.
  split; [discriminate|]. split; [reflexivity|].
  exact (proj1 (proj2
           (progress_parsed_from_line Sample.wraps "docs" Sample.progress_line
              ltac:(discriminate)))).
Defined.

End Examples.


(** * Properties of [sanitize_filename] *)

Section SanitizeProperties.

Import Sanitize.

Lemma in_drop_while p c cs : In c (drop_while p cs) -> In c cs.
Proof.
  induction cs as [|x cs IH]; cbn [drop_while]; [tauto|].
  destruct (p x); [right; auto | auto].
Qed.

Lemma drop_while_head p cs c rest :
  drop_while p cs = c :: rest -> p c = false.
Proof.
  induction cs as [|x cs IH]; cbn [drop_while]; [discriminate|].
  destruct (p x) eqn:Hx; [exact IH | congruence].
Qed.

Lemma drop_while_id p c cs : p c = false -> drop_while p (c :: cs) = c :: cs.
Proof. intros H. cbn. now rewrite H. Qed.

Lemma last_rev_cons (c : ascii) l : last (rev (c :: l)) = Some c.
Proof. cbn [rev]. apply last_snoc. Qed.

Lemma in_remove_trailing c cs : In c (remove_trailing cs) -> In c cs.
Proof.
  unfold remove_trailing. intros H. apply in_rev.
  destruct (rev cs) as [|x r]; [exact H|].
  destruct (Ascii.eqb_spec x "010"%char) as [->|Hx].
  - apply in_rev in H. destruct H as [<- | H]; [now left|].
    right. now apply in_drop_while in H.
  - assert (H' : In c (rev (drop_while dot_or_space (x :: r)))).
    { destruct x as [[] [] [] [] [] [] [] []]; try exact H.
      now contradiction Hx. }
    apply in_rev in H'. now apply in_drop_while in H'.
Qed.

Lemma remove_trailing_last cs c :
  last (remove_trailing cs) = Some c -> dot_or_space c = false.
Proof.
  unfold remove_trailing. destruct (rev cs) as [|x r]; [discriminate|].
  destruct (Ascii.eqb_spec x "010"%char) as [->|Hx].
  - rewrite last_rev_cons. now intros [= <-].
  - assert (H' : last (rev (drop_while dot_or_space (x :: r))) = Some c ->
                 dot_or_space c = false).
    { destruct (drop_while dot_or_space (x :: r)) as [|y r'] eqn:Hd;
        [discriminate|].
      rewrite last_rev_cons. intros [= <-].
      now apply drop_while_head in Hd. }
    destruct x as [[] [] [] [] [] [] [] []]; try exact H'.
    now contradiction Hx.
Qed.

Lemma replace_spaces_no_space cs :
  Forall (fun c => c <> " "%char) (replace_spaces cs).
Proof.
  unfold replace_spaces. apply Forall_map, Forall_forall. intros c _.
  destruct (Ascii.eqb_spec c " "); [discriminate | assumption].
Qed.

Lemma remove_invalid_spec cs :
  Forall (fun c => invalid_char c = false) (remove_invalid cs)
  /\ forall c, In c (remove_invalid cs) -> In c cs.
Proof.
  unfold remove_invalid. split.
  - apply Forall_forall. intros c Hc. apply list_elem_of_In in Hc.
    apply filter_In in Hc as [_ Hc]. now apply negb_true_iff in Hc.
  - intros c Hc. now apply filter_In in Hc as [Hc _].
Qed.

(** What every sanitized name looks like. *)
Lemma sanitize_chars_safe cs :
  sanitize_chars cs <> []
  /\ Forall (fun c => invalid_char c = false /\ c <> " "%char)
       (sanitize_chars cs)
  /\ forall c, last (sanitize_chars cs) = Some c -> c <> "."%char.
Proof.
  unfold sanitize_chars.
  set (n1 := remove_invalid (replace_spaces (strip_chars cs))).
  assert (H1 : Forall (fun c => invalid_char c = false /\ c <> " "%char) n1).
  { apply Forall_forall. intros c Hc. apply list_elem_of_In in Hc. split.
    - pose proof (proj1 (remove_invalid_spec
                           (replace_spaces (strip_chars cs)))) as Hf.
      rewrite Forall_forall in Hf. apply Hf. now apply list_elem_of_In.
    - apply (proj2 (remove_invalid_spec _)) in Hc.
      pose proof (replace_spaces_no_space (strip_chars cs)) as Hf.
      rewrite Forall_forall in Hf. apply Hf. now apply list_elem_of_In. }
  set (n2 := match n1 with
             | [] => list_ascii_of_string "untitled_schema"
             | _ => n1
             end).
  assert (H2 : Forall (fun c => invalid_char c = false /\ c <> " "%char) n2).
  { subst n2. destruct n1; [|exact H1].
    cbn. repeat constructor; discriminate. }
  destruct (remove_trailing n2) as [|x n3] eqn:H3.
  - split; [discriminate|]. split.
    + cbn. repeat constructor; discriminate.
    + cbn. intros c [= <-]. discriminate.
  - split; [discriminate|]. split.
    + apply Forall_forall. intros c Hc. apply list_elem_of_In in Hc.
      rewrite <- H3 in Hc. apply in_remove_trailing in Hc.
      rewrite Forall_forall in H2. apply H2. now apply list_elem_of_In.
    + intros c Hc. rewrite <- H3 in Hc. apply remove_trailing_last in Hc.
      intros ->. discriminate Hc.
Qed.

(** X1. Whatever the name, [sanitize_filename] returns a non-empty string
    that contains none of the characters backslash, slash, star, question
    mark, colon, double quote, angle brackets and bar, contains no space,
    and does not end with a dot. *)
Theorem sanitize_filename_safe (name : string) :
  let cs := list_ascii_of_string (sanitize_filename name) in
  sanitize_filename name <> ""
  /\ Forall (fun c => invalid_char c = false /\ c <> " "%char) cs
  /\ forall c, last cs = Some c -> c <> "."%char.
Proof.
  cbv zeta. unfold sanitize_filename.
  rewrite list_ascii_of_string_of_list_ascii.
  destruct (sanitize_chars_safe (list_ascii_of_string name))
    as (Hne & Hall & Hlast).
  split; [|now split].
  destruct (sanitize_chars (list_ascii_of_string name)); [congruence|].
  discriminate.
Qed.

Lemma lstrip_chars_id cs :
  Forall (fun c => is_space c = false) cs -> lstrip_chars cs = cs.
Proof. intros [|c l Hc _]; [reflexivity|]. cbn. now rewrite Hc. Qed.

Lemma strip_chars_id cs :
  Forall (fun c => is_space c = false) cs -> strip_chars cs = cs.
Proof.
  intros H. unfold strip_chars. rewrite (lstrip_chars_id cs H).
  rewrite lstrip_chars_id; [apply rev_involutive|].
  apply Forall_forall. intros c Hc. rewrite Forall_forall in H. apply H.
  apply list_elem_of_In. apply list_elem_of_In in Hc. now apply in_rev.
Qed.

Lemma safe_char_spec c :
  safe_char c = true ->
  is_space c = false /\ invalid_char c = false /\ c <> " "%char.
Proof.
  unfold safe_char. intros H. apply andb_prop in H as [H1 H2].
  apply negb_true_iff in H1, H2. repeat split; try assumption.
  intros ->. discriminate H1.
Qed.

(** X2. A non-empty name made of safe characters only (no whitespace, none
    of the removed characters) that does not end with a dot is its own file
    name: [sanitize_filename] returns it unchanged. *)
Theorem sanitize_filename_keeps_safe_names (name : string) :
  name <> "" ->
  Forall (fun c => safe_char c = true) (list_ascii_of_string name) ->
  last (list_ascii_of_string name) <> Some "."%char ->
  sanitize_filename name = name.
Proof.
  intros Hne Hsafe Hlast. unfold sanitize_filename.
  rewrite <- (string_of_list_ascii_of_string name) at 2. f_equal.
  set (cs := list_ascii_of_string name) in *.
  assert (Hcs : cs <> []).
  { intros Hnil. apply Hne.
    rewrite <- (string_of_list_ascii_of_string name). fold cs.
    now rewrite Hnil. }
  assert (Hsp : Forall (fun c => is_space c = false) cs).
  { eapply Forall_impl; [exact Hsafe|]. intros c Hc.
    now apply safe_char_spec in Hc. }
  unfold sanitize_chars. rewrite (strip_chars_id cs Hsp).
  assert (Hrep : replace_spaces cs = cs).
  { unfold replace_spaces. rewrite <- (map_id cs) at 2.
    apply map_ext_Forall. eapply Forall_impl; [exact Hsafe|].
    intros c Hc. apply safe_char_spec in Hc as (_ & _ & Hc).
    now destruct (Ascii.eqb_spec c " "). }
  rewrite Hrep.
  assert (Hrem : remove_invalid cs = cs).
  { unfold remove_invalid. clear -Hsafe.
    induction Hsafe as [|c l Hc _ IH]; [reflexivity|].
    cbn [List.filter]. apply safe_char_spec in Hc as (_ & -> & _).
    cbn [negb]. now rewrite IH. }
  rewrite Hrem.
  destruct cs as [|c0 cs0] eqn:Ecs; [congruence|]. rewrite <- Ecs in *.
  assert (Htr : remove_trailing cs = cs).
  { unfold remove_trailing.
    destruct (rev cs) as [|x r] eqn:Hrev.
    - apply (f_equal (@rev ascii)) in Hrev. rewrite rev_involutive in Hrev.
      now rewrite Hrev.
    - assert (Hx : last cs = Some x).
      { rewrite <- (rev_involutive cs), Hrev. apply last_rev_cons. }
      assert (Hxs : safe_char x = true).
      { rewrite Forall_forall in Hsafe. apply Hsafe.
        apply list_elem_of_In, in_rev. rewrite Hrev. now left. }
      apply safe_char_spec in Hxs as (Hsx & _ & Hnsp).
      assert (Hdot : dot_or_space x = false).
      { unfold dot_or_space.
        destruct (Ascii.eqb_spec x "."%char) as [->|_]; [congruence|].
        now destruct (Ascii.eqb_spec x " "%char). }
      assert (Hgen : rev (drop_while dot_or_space (x :: r)) = cs).
      { rewrite drop_while_id by exact Hdot.
        rewrite <- Hrev. apply rev_involutive. }
      destruct x as [[] [] [] [] [] [] [] []]; try exact Hgen.
      discriminate Hsx. }
  rewrite Htr. rewrite Ecs. reflexivity.
Qed.

End SanitizeProperties.

(** * Further properties of [validate_schema_paths] and of [run] *)

Section FurtherRunProperties.

Import Worker.

Variable path_exists : string -> pyexn + bool.
Variable str_other : pyval -> string.

Lemma sources_problems_nil l :
  Utils.sources_problems path_exists str_other l = inr [] <->
  exists srcs,
    l = map VStr srcs /\ Forall (fun s => path_exists s = inr true) srcs.
Proof.
  induction l as [|v l IH]; cbn [Utils.sources_problems].
  - split; [intros _; exists []; split; [reflexivity | constructor]|reflexivity].
  - split.
    + destruct (Utils.source_problems path_exists str_other v)
        as [e|ps] eqn:Hv; [discriminate|].
      destruct (Utils.sources_problems path_exists str_other l)
        as [e|qs] eqn:Hl; [discriminate|].
      intros [= H]. apply app_eq_nil in H as [-> ->].
      destruct (proj1 IH eq_refl) as (srcs & -> & Hall).
      destruct v as [| | |s| |]; cbn in Hv; try discriminate Hv.
      destruct (path_exists s) as [e|[|]] eqn:Hs; try discriminate Hv.
      exists (s :: srcs). split; [reflexivity | now constructor].
    + intros (srcs & Heq & Hall). destruct srcs as [|s srcs]; [discriminate|].
      cbn in Heq. injection Heq as -> ->.
      apply Forall_cons in Hall as [Hs Hall].
      cbn. rewrite Hs.
      assert (Hl : Utils.sources_problems path_exists str_other
                     (map VStr srcs) = inr [])
        by (apply IH; now exists srcs).
      now rewrite Hl.
Qed.

Lemma destination_problems_nil v :
  Utils.destination_problems path_exists str_other v = inr [] <->
  exists dest, v = VStr dest /\ dest <> "" /\ path_exists dest = inr true.
Proof.
  unfold Utils.destination_problems. split.
  - destruct v as [|b|n|s|l|l]; cbn [truthy is_str negb];
      rewrite ?orb_true_r; try discriminate.
    cbn [orb Utils.py_str].
    destruct (String.eqb_spec s ""); cbn; [discriminate|].
    destruct (path_exists s) as [e|[|]] eqn:Hs; try discriminate.
    intros _. now exists s.
  - intros (dest & -> & Hne & Hex). cbn.
    destruct (String.eqb_spec dest ""); [contradiction|]. cbn.
    now rewrite Hex.
Qed.

Lemma validate_true_iff (d : list (pyval * pyval)) problems :
  Utils.validate_schema_paths path_exists str_other (VDict d)
  = inr (true, problems) <->
  problems = [] /\ exists srcs dest, paths_in_order path_exists d srcs dest.
Proof.
  unfold paths_in_order.
  destruct d as [|x d'].
  { split; [discriminate|]. intros (_ & srcs & dest & H & _). discriminate H. }
  rewrite validate_dict by discriminate. set (dd := x :: d').
  destruct (Utils.destination_problems path_exists str_other
              (dict_get dd "destination" VNone)) as [e|dp] eqn:Hd.
  { split; [discriminate|].
    intros (_ & srcs & dest & Hdest & Hne & Hex & _).
    assert (Hnil : Utils.destination_problems path_exists str_other
                     (dict_get dd "destination" VNone) = inr [])
      by (apply destination_problems_nil; now exists dest).
    congruence. }
  destruct (Utils.sources_problems path_exists str_other
              match dict_get dd "sources" (VList []) with
              | VList l => l
              | _ => []
              end) as [e|sp] eqn:Hs.
  { split; [discriminate|].
    intros (_ & srcs & dest & _ & _ & _ & Hsrc & Hall).
    rewrite Hsrc in Hs.
    assert (Hnil : Utils.sources_problems path_exists str_other
                     (map VStr srcs) = inr [])
      by (apply sources_problems_nil; now exists srcs).
    congruence. }
  cbv zeta.
  destruct (dict_get dd "sources" (VList [])) as [| | | |l|] eqn:Hl;
    cbn [is_list app];
    try (split; [discriminate
                |intros (_ & srcs & dest & _ & _ & _ & H & _);
                 discriminate H]).
  destruct dp as [|q qs]; cbn [app].
  2:{ split; [discriminate|].
      intros (_ & srcs & dest & Hdest & Hne & Hex & _).
      assert (Hnil : Utils.destination_problems path_exists str_other
                       (dict_get dd "destination" VNone) = inr [])
        by (apply destination_problems_nil; now exists dest).
      congruence. }
  destruct sp as [|q qs].
  2:{ split; [discriminate|].
      intros (_ & srcs & dest & _ & _ & _ & [= ->] & Hall).
      assert (Hnil : Utils.sources_problems path_exists str_other
                       (map VStr srcs) = inr [])
        by (apply sources_problems_nil; now exists srcs).
      congruence. }
  apply destination_problems_nil in Hd as (dest & Hdest & Hne & Hex).
  apply sources_problems_nil in Hs as (srcs & -> & Hall).
  split.
  - intros [= <-]. split; [reflexivity|]. exists srcs, dest.
    now rewrite Hdest.
  - now intros [-> _].
Qed.

(** X3. [validate_schema_paths] reports a dictionary as valid, with no
    problems, exactly when its destination is a non-empty string naming an
    existing path and its sources (an empty list when the key is missing)
    are a list of strings that all name existing paths. *)
Theorem validate_accepts_exactly_existing_paths (d : list (pyval * pyval)) :
  (exists problems,
      Utils.validate_schema_paths path_exists str_other (VDict d)
      = inr (true, problems))
  <-> exists srcs dest, paths_in_order path_exists d srcs dest.
Proof.
  split.
  - intros [problems H]. now apply validate_true_iff in H as [_ H].
  - intros H. exists []. apply validate_true_iff. now split.
Qed.

Lemma run_unlaunched_popen w env e :
  preflight_passes path_exists str_other w env -> popen env = Some e ->
  Worker.run path_exists str_other w env
  = Emit (logMessage (schema_name w)
            ("Starting backup for '" +:+ schema_name w +:+ "'..."))
    :: Emit (logMessage (schema_name w)
               ("Running: "
                +:+ join " " (rsync_command str_other (schema_data w))))
    :: handle_exception (schema_name w) e.
Proof.
  intros [[problems Hv] (free & Hdu & Hfree)] Hpopen.
  unfold Worker.run, check_space_then_execute, execute.
  rewrite preflight_name, !preflight_data, Hv, Hdu, Hpopen.
  apply N.ltb_ge in Hfree. now rewrite Hfree.
Qed.

(** X4. When the pre-flight checks pass but [subprocess.Popen] raises, the
    job emits the two start logs and one failed terminal event and launches
    nothing: the event says that rsync was not found when the exception is a
    [FileNotFoundError], and carries the text of the exception otherwise. *)
Theorem launch_failure_is_reported (w : worker) (env : environment)
    (e : pyexn) :
  preflight_passes path_exists str_other w env -> popen env = Some e ->
  let name := schema_name w in
  launches (Worker.run path_exists str_other w env) = []
  /\ signals (Worker.run path_exists str_other w env)
     = [logMessage name ("Starting backup for '" +:+ name +:+ "'...");
        logMessage name
          ("Running: " +:+ join " " (rsync_command str_other (schema_data w)));
        jobFinished name false
          (if is_FileNotFoundError e then
             "rsync command not found. Please ensure rsync is installed and in your PATH."
           else "An unexpected error occurred during backup: " +:+ exn_text e)].
Proof.
  intros Hpre Hpopen. cbv zeta.
  rewrite (run_unlaunched_popen w env e Hpre Hpopen).
  unfold handle_exception. now destruct (is_FileNotFoundError e).
Qed.

Lemma launches_handler name e : launches (handle_exception name e) = [].
Proof. unfold handle_exception. now destruct (is_FileNotFoundError e). Qed.

Lemma launches_after_loop wb env : launches (after_loop wb env) = [].
Proof.
  unfold after_loop. destruct (_process wb); [|apply launches_handler].
  rewrite launches_app.
  destruct (String.eqb (stderr_output env) "");
    destruct (_is_cancelled _); try reflexivity;
    destruct (return_code env =? 0); try reflexivity;
    destruct (return_code env =? 24); reflexivity.
Qed.

Lemma launches_launched w env :
  preflight_passes path_exists str_other w env -> popen env = None ->
  launches (Worker.run path_exists str_other w env)
  = [rsync_command str_other (schema_data w)].
Proof.
  intros Hpre Hpopen. rewrite (run_launched _ _ w env Hpre Hpopen).
  destruct (monitor_shape (c_int env) (iterations env) (at_loop_entry w env))
    as [n Hn].
  change (launches (Emit ?a :: Emit ?b :: Popen ?c :: ?tl))
    with (c :: launches tl).
  f_equal. rewrite launches_app.
  destruct (snd (monitor (c_int env) (at_loop_entry w env) (iterations env)))
    as [wb| |e|].
  - destruct Hn as (-> & _ & _).
    now rewrite launches_emit, launches_after_loop.
  - rewrite Hn, launches_app, launches_emit. reflexivity.
  - now rewrite Hn, launches_emit, launches_handler.
  - now rewrite Hn, launches_emit.
Qed.

Lemma launches_only_after_preflight w env :
  launches (Worker.run path_exists str_other w env) <> [] ->
  preflight_passes path_exists str_other w env /\ popen env = None.
Proof.
  intros Hl.
  destruct (Utils.validate_schema_paths path_exists str_other
              (VDict (schema_data w))) as [e|[[|] problems]] eqn:Hv;
    try (exfalso; apply Hl; unfold Worker.run;
         rewrite preflight_data, Hv; reflexivity).
  destruct (disk_usage env) as [e|free] eqn:Hdu.
  { exfalso. apply Hl. unfold Worker.run, check_space_then_execute.
    rewrite preflight_data, Hv, Hdu. now destruct (is_FileNotFoundError e). }
  destruct (free <? free_space_threshold)%N eqn:Hfree.
  { exfalso. apply Hl. unfold Worker.run, check_space_then_execute.
    rewrite preflight_data, Hv, Hdu, Hfree. reflexivity. }
  assert (Hpre : preflight_passes path_exists str_other w env).
  { split; [now exists problems|]. exists free. split; [exact Hdu|].
    now apply N.ltb_ge. }
  split; [exact Hpre|].
  destruct (popen env) as [e|] eqn:Hpopen; [|reflexivity].
  exfalso. apply Hl. rewrite (run_unlaunched_popen w env e Hpre Hpopen).
  apply launches_handler.
Qed.

(** X5. A run launches rsync at most once, and only after the pre-flight
    checks have passed: the command is then [rsync -a --info=progress2
    --no-i-r], the source paths of the schema in their order, and the
    destination last, all of them strings naming paths that existed when the
    run validated them. *)
Theorem launched_command (w : worker) (env : environment) :
  (launches (Worker.run path_exists str_other w env) <> [] ->
   preflight_passes path_exists str_other w env /\ popen env = None)
  /\ (preflight_passes path_exists str_other w env -> popen env = None ->
      exists srcs dest,
        paths_in_order path_exists (schema_data w) srcs dest
        /\ launches (Worker.run path_exists str_other w env)
           = [(["rsync"; "-a"; "--info=progress2"; "--no-i-r"]
               ++ srcs ++ [dest])%list]).
Proof.
  split; [apply launches_only_after_preflight|].
  intros Hpre Hpopen. pose proof Hpre as [[problems Hv] _].
  apply validate_true_iff in Hv as (_ & srcs & dest & Hp).
  exists srcs, dest. split; [exact Hp|].
  rewrite (launches_launched w env Hpre Hpopen).
  destruct Hp as (Hdest & _ & _ & Hsrc & _).
  unfold rsync_command. rewrite Hsrc, Hdest. cbn [Utils.py_str].
  rewrite map_map. cbn [Utils.py_str]. now rewrite map_id.
Qed.

Lemma parse_progress_nonneg line p :
  parse_progress line = Some (inr p) -> 0 <= p.
Proof.
  unfold parse_progress.
  destruct (re_search (list_ascii_of_string line)) as [ds|] eqn:Hs;
    [|discriminate].
  cbn. unfold int_of_group.
  destruct (int_max_str_digits <? length ds)%nat; [discriminate|].
  intros [= <-]. apply re_search_some in Hs as (pre & ws & Hocc & _).
  destruct Hocc as (c & post & _ & _ & _ & _ & Hds & _).
  now apply int_of_digits_nonneg.
Qed.

Section Forall_signals.

Variable name : string.
Variable conv : conversion.
Variable P : signal -> Prop.
Hypothesis P_log : forall m, P (logMessage name m).
Hypothesis P_progress :
  forall p, 0 <= p <= 2147483647 -> P (progressUpdated name p).
Hypothesis P_converted :
  forall n p r, 2147483647 < n -> conv n = (Some p, r) ->
                P (progressUpdated name p).
Hypothesis P_finished : forall ok st, P (jobFinished name ok st).
Hypothesis P_disk : forall m, P (diskSpaceError name m).
Hypothesis P_validation : forall m, P (validationError name m).

Lemma Forall_process_line line :
  Forall P (fst (process_line conv name line)).
Proof.
  rewrite process_line_cases. cbv zeta.
  destruct (parse_progress line) as [[e|p]|] eqn:Hp; cbn [fst];
    try (constructor; [apply P_log | constructor]).
  apply parse_progress_nonneg in Hp. unfold fits_c_int.
  destruct (Z.leb_spec (-2147483648) p); [|lia].
  destruct (Z.leb_spec p 2147483647); cbn [andb fst].
  - constructor; [apply P_log|]. constructor; [|constructor].
    apply P_progress. lia.
  - constructor; [apply P_log|].
    destruct (conv p) as [[v|] r] eqn:Hc; cbn [fst]; [|constructor].
    constructor; [|constructor]. now apply (P_converted p v r).
Qed.

Lemma Forall_lines ls :
  Forall P (flat_map (fun line => fst (process_line conv name line)) ls).
Proof.
  induction ls as [|l ls IH]; cbn [flat_map]; [constructor|].
  apply Forall_app. split; [apply Forall_process_line | exact IH].
Qed.

Lemma Forall_handler e : Forall P (signals (handle_exception name e)).
Proof.
  unfold handle_exception. destruct (is_FileNotFoundError e);
    (constructor; [apply P_finished | constructor]).
Qed.

Lemma Forall_after_loop wb env :
  schema_name wb = name -> Forall P (signals (after_loop wb env)).
Proof.
  intros Hname. unfold after_loop. rewrite Hname.
  destruct (_process wb); [|apply Forall_handler].
  rewrite signals_app. apply Forall_app. split.
  - destruct (String.eqb (stderr_output env) ""); [constructor|].
    constructor; [apply P_log | constructor].
  - destruct (_is_cancelled _).
    { constructor; [apply P_finished | constructor]. }
    destruct (return_code env =? 0).
    { constructor; [apply P_progress; lia|].
      constructor; [apply P_finished | constructor]. }
    destruct (return_code env =? 24);
      destruct (String.eqb (stderr_output env) "");
      repeat first [ constructor | apply P_log | apply P_finished
                   | apply P_progress; lia ].
Qed.

Lemma Forall_run w env :
  schema_name w = name -> c_int env = conv ->
  Forall P (signals (Worker.run path_exists str_other w env)).
Proof.
  intros Hname Hconv.
  destruct (Utils.validate_schema_paths path_exists str_other
              (VDict (schema_data w))) as [e|[[|] problems]] eqn:Hv.
  - unfold Worker.run. rewrite preflight_data, Hv, Hname.
    constructor; [apply P_log | constructor].
  - destruct (disk_usage env) as [e|free] eqn:Hdu.
    { unfold Worker.run, check_space_then_execute.
      rewrite preflight_name, !preflight_data, Hv, Hdu, Hname.
      destruct (is_FileNotFoundError e);
        repeat first [ constructor | apply P_log | apply P_finished
                     | apply P_disk | apply P_validation ]. }
    destruct (free <? free_space_threshold)%N eqn:Hfree.
    { unfold Worker.run, check_space_then_execute.
      rewrite preflight_name, !preflight_data, Hv, Hdu, Hfree, Hname.
      repeat first [ constructor | apply P_log | apply P_finished
                   | apply P_disk ]. }
    assert (Hpre : preflight_passes path_exists str_other w env).
    { split; [now exists problems|]. exists free. split; [exact Hdu|].
      now apply N.ltb_ge. }
    destruct (popen env) as [e|] eqn:Hpopen.
    { rewrite (run_unlaunched_popen w env e Hpre Hpopen), Hname.
      constructor; [apply P_log|]. constructor; [apply P_log|].
      apply Forall_handler. }
    rewrite (run_launched _ _ w env Hpre Hpopen), Hname.
    constructor; [apply P_log|]. constructor; [apply P_log|].
    change (signals (Popen ?c :: ?tl)) with (signals tl).
    rewrite signals_app. cbn [app].
    destruct (monitor_shape (c_int env) (iterations env)
                (at_loop_entry w env)) as [n Hn].
    rewrite at_loop_entry_name, Hname, Hconv in Hn. rewrite Hconv.
    destruct (snd (monitor conv (at_loop_entry w env) (iterations env)))
      as [wb| |e|].
    + destruct Hn as (-> & Hwb & _). rewrite signals_emit.
      apply Forall_app. split; [apply Forall_lines|].
      now apply Forall_after_loop.
    + rewrite Hn, signals_app, signals_emit, app_nil_r.
      apply Forall_app. split; [apply Forall_lines|].
      constructor; [apply P_finished | constructor].
    + rewrite Hn, signals_emit.
      apply Forall_app. split; [apply Forall_lines | apply Forall_handler].
    + rewrite Hn, signals_emit, app_nil_r. apply Forall_lines.
  - unfold Worker.run. rewrite preflight_data, Hv, Hname.
    repeat first [ constructor | apply P_log | apply P_finished
                 | apply P_validation ].
Qed.

End Forall_signals.

Lemma signal_names_of_run (w : worker) (env : environment) :
  Forall (fun s => signal_name s = schema_name w)
    (signals (Worker.run path_exists str_other w env)).
Proof.
  apply Forall_run with (name := schema_name w) (conv := c_int env);
    cbn; auto.
Qed.

(** X6. Every signal a run emits carries the schema name of its worker.
    Every percentage it reports is a C int that is zero or more, unless it
    is what the conversion of the signal has made of an integer beyond the
    C ints. *)
Theorem run_signals_carry_name (w : worker) (env : environment) :
  Forall (fun s => signal_name s = schema_name w
                   /\ match s with
                      | progressUpdated _ p =>
                          0 <= p <= 2147483647
                          \/ exists n r, 2147483647 < n
                                         /\ c_int env n = (Some p, r)
                      | _ => True
                      end)
    (signals (Worker.run path_exists str_other w env)).
Proof.
  apply Forall_run with (name := schema_name w) (conv := c_int env);
    cbn; auto.
  intros n p r Hn Hc. split; [reflexivity|]. right. now exists n, r.
Qed.

Lemma after_loop_success wb env n st :
  In (jobFinished n true st) (signals (after_loop wb env)) ->
  (return_code env = 0 \/ return_code env = 24)
  /\ In (progressUpdated (schema_name wb) 100) (signals (after_loop wb env))
  /\ _is_cancelled wb = false /\ cancel_late env = false.
Proof.
  unfold after_loop. destruct (_process wb).
  2:{ unfold handle_exception. cbn. intros [H|[]]. discriminate H. }
  rewrite signals_app. intros H. apply in_app_or in H as [H|H].
  { destruct (String.eqb (stderr_output env) ""); cbn in H;
      [contradiction | destruct H as [H|[]]; discriminate H]. }
  assert (Hin : forall l, In (progressUpdated (schema_name wb) 100) l ->
                  In (progressUpdated (schema_name wb) 100)
                     ((signals (if String.eqb (stderr_output env) "" then []
                                else [Emit (logMessage (schema_name wb)
                                        ("STDERR: "
                                         +:+ strip (stderr_output env)))]))
                      ++ l)).
  { intros l Hl. apply in_or_app. now right. }
  destruct (_is_cancelled (if cancel_late env then cancel false wb else wb))
    eqn:Hflag.
  { cbn in H. destruct H as [H|[]]. discriminate H. }
  assert (Hnc : _is_cancelled wb = false /\ cancel_late env = false).
  { destruct (cancel_late env); [now rewrite cancel_sets_flag in Hflag|].
    now split. }
  destruct (return_code env =? 0) eqn:H0.
  { apply Z.eqb_eq in H0. split; [now left|]. split; [|exact Hnc].
    apply Hin. now left. }
  destruct (return_code env =? 24) eqn:H24.
  { apply Z.eqb_eq in H24. split; [now right|]. split; [|exact Hnc].
    apply Hin. destruct (String.eqb (stderr_output env) "");
      cbn; auto. }
  exfalso. destruct (String.eqb (stderr_output env) ""); cbn in H;
    destruct H as [H|[]]; discriminate H.
Qed.

Lemma success_signal_launches w env n st :
  In (jobFinished n true st)
     (signals (Worker.run path_exists str_other w env)) ->
  launches (Worker.run path_exists str_other w env) <> [].
Proof.
  intros Hin Hnil. revert Hin.
  destruct (Utils.validate_schema_paths path_exists str_other
              (VDict (schema_data w))) as [e|[[|] problems]] eqn:Hv.
  - unfold Worker.run. rewrite preflight_data, Hv. cbn.
    intros [H|[]]. discriminate H.
  - destruct (disk_usage env) as [e|free] eqn:Hdu.
    { unfold Worker.run, check_space_then_execute.
      rewrite preflight_name, !preflight_data, Hv, Hdu.
      destruct (is_FileNotFoundError e); cbn;
        intros [H|[H|[H|[]]]]; discriminate H. }
    destruct (free <? free_space_threshold)%N eqn:Hfree.
    { unfold Worker.run, check_space_then_execute.
      rewrite preflight_name, !preflight_data, Hv, Hdu, Hfree. cbn.
      intros [H|[H|[H|[]]]]; discriminate H. }
    assert (Hpre : preflight_passes path_exists str_other w env).
    { split; [now exists problems|]. exists free. split; [exact Hdu|].
      now apply N.ltb_ge. }
    destruct (popen env) as [e|] eqn:Hpopen.
    + rewrite (run_unlaunched_popen w env e Hpre Hpopen).
      unfold handle_exception. destruct (is_FileNotFoundError e); cbn;
        intros [H|[H|[H|[]]]]; discriminate H.
    + rewrite (launches_launched w env Hpre Hpopen) in Hnil.
      discriminate Hnil.
  - unfold Worker.run. rewrite preflight_data, Hv. cbn.
    intros [H|[H|[H|[]]]]; discriminate H.
Qed.

Lemma success_signal_exit w env n st :
  preflight_passes path_exists str_other w env -> popen env = None ->
  In (jobFinished n true st)
     (signals (Worker.run path_exists str_other w env)) ->
  (return_code env = 0 \/ return_code env = 24)
  /\ _is_cancelled w = false /\ cancel_preflight env = false
  /\ cancel_late env = false
  /\ In (progressUpdated (schema_name w) 100)
        (signals (Worker.run path_exists str_other w env)).
Proof.
  intros Hpre Hpopen Hin.
  rewrite (run_launched _ _ w env Hpre Hpopen) in Hin |- *.
  change (signals (Emit ?a :: Emit ?b :: Popen ?c :: ?tl))
    with (a :: b :: signals tl) in Hin |- *.
  destruct Hin as [H|[H|Hin]]; [discriminate H..|].
  rewrite signals_app in Hin |- *.
  destruct (monitor_shape (c_int env) (iterations env) (at_loop_entry w env))
    as [k Hk].
  pose proof (monitor_flag_set (c_int env) (iterations env)
                (at_loop_entry w env)) as Hset.
  destruct (monitor (c_int env) (at_loop_entry w env) (iterations env))
    as [tr out].
  cbn [fst snd] in *.
  assert (Hlines : ~ In (jobFinished n true st)
                       (flat_map (fun line =>
                                    fst (process_line (c_int env)
                                           (schema_name (at_loop_entry w env))
                                           line))
                          (take k (output_lines (iterations env))))).
  { intros Hl. pose proof (lines_nonterminal (c_int env)
                             (schema_name (at_loop_entry w env))
                             (take k (output_lines (iterations env))))
      as Hall.
    rewrite Forall_forall in Hall. apply list_elem_of_In in Hl.
    specialize (Hall _ Hl). discriminate Hall. }
  destruct out as [wb| |e|].
  - destruct Hk as (-> & Hwb & _). rewrite signals_emit in Hin |- *.
    apply in_app_or in Hin as [Hin|Hin]; [contradiction|].
    destruct (after_loop_success wb env n st Hin)
      as (Hrc & H100 & Hfwb & Hlate).
    rewrite Hwb, at_loop_entry_name in H100.
    destruct (_is_cancelled (at_loop_entry w env)) eqn:Hflag.
    { specialize (Hset eq_refl). discriminate Hset. }
    rewrite at_loop_entry_flag in Hflag.
    apply orb_false_elim in Hflag as [Hf Hp].
    repeat split; try assumption.
    right; right. apply in_or_app. now right.
  - exfalso. rewrite Hk, signals_app, signals_emit in Hin.
    cbn in Hin. rewrite app_nil_r in Hin.
    apply in_app_or in Hin as [Hin|[H|[]]]; [contradiction|discriminate H].
  - exfalso. rewrite Hk, signals_emit in Hin.
    apply in_app_or in Hin as [Hin|Hin]; [contradiction|].
    unfold handle_exception in Hin.
    destruct (is_FileNotFoundError e); cbn in Hin;
      destruct Hin as [H|[]]; discriminate H.
  - exfalso. rewrite Hk, signals_emit in Hin.
    apply in_app_or in Hin as [Hin|[]]. contradiction.
Qed.

(** X7. A run reports success only for a job that was launched, was not
    cancelled, and whose rsync exited with code 0 or 24; the success event
    carries the worker's schema name and comes after a progress event
    of 100. *)
Theorem success_needs_exit_code_0_or_24 (w : worker) (env : environment)
    (n st : string) :
  In (jobFinished n true st)
     (signals (Worker.run path_exists str_other w env)) ->
  n = schema_name w
  /\ launches (Worker.run path_exists str_other w env) <> []
  /\ (return_code env = 0 \/ return_code env = 24)
  /\ _is_cancelled w = false /\ cancel_preflight env = false
  /\ cancel_late env = false
  /\ In (progressUpdated (schema_name w) 100)
        (signals (Worker.run path_exists str_other w env)).
Proof.
  intros Hin.
  assert (Hn : n = schema_name w).
  { pose proof (signal_names_of_run w env) as Hall.
    rewrite Forall_forall in Hall.
    apply list_elem_of_In in Hin. now rewrite <- (Hall _ Hin). }
  split; [exact Hn|].
  pose proof (success_signal_launches w env n st Hin) as Hlaunch.
  split; [exact Hlaunch|].
  destruct (launches_only_after_preflight w env Hlaunch) as [Hpre Hpopen].
  exact (success_signal_exit w env n st Hpre Hpopen Hin).
Qed.

End FurtherRunProperties.

(** * Properties of the schema files *)

Section StoreProperties.

Import SchemaManager Store.

Variable path_exists : string -> pyexn + bool.
Variable str_other : pyval -> string.
Variable lookup_error : string -> option pyexn.
Variable config_dir : string.

Lemma dict_get_set_eq d key v default :
  dict_get (dict_set d key v) key default = v.
Proof.
  induction d as [|[k old] d IH]; cbn [dict_set dict_get].
  - now rewrite String.eqb_refl.
  - destruct k; cbn [dict_get]; try exact IH.
    destruct (String.eqb s key) eqn:Hk; cbn [dict_get]; rewrite Hk;
      [reflexivity | exact IH].
Qed.

Lemma dict_get_set_ne d key v key' default :
  key <> key' ->
  dict_get (dict_set d key v) key' default = dict_get d key' default.
Proof.
  intros Hne. induction d as [|[k old] d IH]; cbn [dict_set dict_get].
  - destruct (String.eqb_spec key key'); [contradiction | reflexivity].
  - destruct k; cbn [dict_get]; try exact IH.
    destruct (String.eqb_spec s key) as [->|Hk]; cbn [dict_get].
    + destruct (String.eqb_spec key key'); [contradiction | reflexivity].
    + now rewrite IH.
Qed.

Lemma dict_has_get d key v :
  dict_get d key VNone = v -> v <> VNone -> dict_has d key = true.
Proof.
  intros <-. induction d as [|[k old] d IH]; cbn [dict_get dict_has];
    [congruence|].
  destruct k; try exact IH.
  destruct (String.eqb s key); [reflexivity | exact IH].
Qed.

Lemma data_to_save_total d :
  Forall (fun e => is_str e.1 = true) d ->
  exists saved, data_to_save d = inr saved.
Proof.
  induction 1 as [|[k v] d Hk _ [saved IH]]; [now exists []|].
  destruct k; try discriminate Hk. cbn [data_to_save]. rewrite IH. eauto.
Qed.

Lemma data_to_save_get d saved key default :
  data_to_save d = inr saved -> starts_with_underscore key = false ->
  dict_get saved key default = dict_get d key default.
Proof.
  revert saved. induction d as [|[k v] d IH]; intros saved; cbn [data_to_save].
  - now intros [= <-].
  - destruct k; try discriminate.
    destruct (data_to_save d) as [e|saved']; [discriminate|].
    intros [= <-] Hkey. specialize (IH saved' eq_refl Hkey).
    cbn [dict_get]. destruct (String.eqb_spec s key) as [->|Hne].
    + rewrite Hkey. cbn [dict_get]. now rewrite String.eqb_refl.
    + destruct (starts_with_underscore s); [exact IH|].
      cbn [dict_get]. destruct (String.eqb_spec s key); [contradiction|].
      exact IH.
Qed.

Lemma data_to_save_keys d saved :
  data_to_save d = inr saved ->
  Forall (fun e => exists k, e.1 = VStr k /\ starts_with_underscore k = false)
    saved.
Proof.
  revert saved. induction d as [|[k v] d IH]; intros saved; cbn [data_to_save].
  - intros [= <-]. constructor.
  - destruct k; try discriminate.
    destruct (data_to_save d) as [e|saved']; [discriminate|].
    intros [= <-]. specialize (IH saved' eq_refl).
    destruct (starts_with_underscore s) eqn:Hs; [exact IH|].
    constructor; [now exists s | exact IH].
Qed.

Lemma annotate_get filepath is_valid invalid d key default :
  starts_with_underscore key = false ->
  dict_get (annotate filepath is_valid invalid d) key default
  = dict_get d key default.
Proof.
  intros Hkey. unfold annotate.
  rewrite !dict_get_set_ne; [reflexivity|..]; intros <-; discriminate Hkey.
Qed.

Lemma file_exists_found store path content :
  store !! path = Some content ->
  file_exists lookup_error store path = inr true.
Proof. unfold file_exists. now intros ->. Qed.

Lemma file_exists_missing store path :
  store !! path = None ->
  file_exists lookup_error store path
  = match lookup_error path with Some e => inl e | None => inr false end.
Proof. unfold file_exists. now intros ->. Qed.

(** What [save_schema] answers for a dictionary with text keys and a text
    name when the write succeeds, and what the file then holds. *)
Lemma save_written store d name :
  dict_get d "schema_name" VNone = VStr name ->
  Forall (fun e => is_str e.1 = true) d ->
  exists saved,
    save_schema config_dir Written store d
    = inr (<[get_schema_filepath config_dir name := VDict saved]> store,
           (true, "Schema '" +:+ name +:+ "' saved successfully."))
    /\ data_to_save d = inr saved
    /\ dict_get saved "schema_name" VNone = VStr name
    /\ truthy (VDict saved) = true.
Proof.
  intros Hname Hkeys.
  destruct (data_to_save_total d Hkeys) as [saved Hsaved].
  assert (Hhas : dict_has d "schema_name" = true)
    by (eapply dict_has_get; [exact Hname | discriminate]).
  assert (Hd : truthy (VDict d) = true).
  { destruct d; [discriminate Hname | reflexivity]. }
  assert (Hget : dict_get saved "schema_name" VNone = VStr name).
  { rewrite (data_to_save_get d saved "schema_name" VNone Hsaved eq_refl).
    exact Hname. }
  exists saved. split.
  { unfold save_schema. rewrite Hd, Hhas, Hname, Hsaved. reflexivity. }
  split; [exact Hsaved|]. split; [exact Hget|].
  destruct saved; [discriminate Hget | reflexivity].
Qed.

(** What [load_single_schema] makes of a file that holds a dictionary with
    the name asked for. *)
Lemma load_named store name saved :
  store !! get_schema_filepath config_dir name = Some (VDict saved) ->
  dict_get saved "schema_name" VNone = VStr name ->
  truthy (VDict saved) = true ->
  load_single_schema path_exists str_other lookup_error config_dir store name
  = match Utils.validate_schema_paths path_exists str_other (VDict saved) with
    | inr (is_valid, invalid) =>
        inr (Some (VDict (annotate (get_schema_filepath config_dir name)
                            is_valid invalid saved)))
    | inl _ => inr None
    end.
Proof.
  intros Hfile Hget Hs. unfold load_single_schema.
  rewrite (file_exists_found _ _ _ Hfile), Hfile, Hs, Hget, String.eqb_refl.
  reflexivity.
Qed.

(** X8. Saving a schema (a dictionary with text keys whose [schema_name] is
    a text), when the write succeeds, changes no file but the one of the
    schema, which then holds the fields of the dictionary that do not start
    with an underscore. Loading the schema back by its name returns these
    fields, with [_filepath] naming the file and [_is_valid] and
    [_invalid_paths] set to what [validate_schema_paths] answers for the
    stored schema; when the validation raises, the load returns [None]. *)
Theorem save_load_round_trip (store : files) (d : list (pyval * pyval))
    (name : string) :
  dict_get d "schema_name" VNone = VStr name ->
  Forall (fun e => is_str e.1 = true) d ->
  let path := get_schema_filepath config_dir name in
  exists store' message saved,
    save_schema config_dir Written store d = inr (store', (true, message))
    /\ store' !! path = Some (VDict saved)
    /\ (forall p, p <> path -> store' !! p = store !! p)
    /\ (forall key default,
          starts_with_underscore key = false ->
          dict_get saved key default = dict_get d key default)
    /\ match Utils.validate_schema_paths path_exists str_other
               (VDict saved) with
       | inl _ =>
           load_single_schema path_exists str_other lookup_error config_dir
             store' name = inr None
       | inr (is_valid, invalid) =>
           exists loaded,
             load_single_schema path_exists str_other lookup_error
               config_dir store' name = inr (Some (VDict loaded))
             /\ (forall key default,
                   starts_with_underscore key = false ->
                   dict_get loaded key default = dict_get d key default)
             /\ dict_get loaded "_is_valid" VNone = VBool is_valid
             /\ dict_get loaded "_invalid_paths" VNone
                = VList (map VStr invalid)
             /\ dict_get loaded "_filepath" VNone = VStr path
       end.
Proof.
  intros Hname Hkeys path.
  destruct (save_written store d name Hname Hkeys)
    as (saved & Hsave & Hsaved & Hget & Hs).
  eexists _, _, saved. split; [exact Hsave|].
  split; [apply lookup_insert_eq|].
  split; [intros p Hp; now rewrite lookup_insert_ne|].
  split; [intros key default Hkey; now apply data_to_save_get|].
  rewrite (load_named _ name saved (lookup_insert_eq _ _ _) Hget Hs).
  destruct (Utils.validate_schema_paths path_exists str_other (VDict saved))
    as [e|[is_valid invalid]]; [reflexivity|].
  eexists. split; [reflexivity|].
  split.
  { intros key default Hkey. rewrite annotate_get by exact Hkey.
    now apply data_to_save_get. }
  unfold annotate. split; [|split].
  - rewrite !dict_get_set_ne by discriminate. apply dict_get_set_eq.
  - rewrite dict_get_set_ne by discriminate. apply dict_get_set_eq.
  - apply dict_get_set_eq.
Qed.

(** X9. [save_schema] answers [True] only when the write has succeeded; the
    file of the schema then holds the entries of the dictionary whose keys
    do not start with an underscore, so the marks the loaders add are not
    written back. Whatever it answers, it changes no file but the one of
    the schema: when it answers [False] the directory is as it was, unless
    the dump has failed after the file was opened, and then the file of the
    schema holds what the failed dump has left. *)
Theorem save_schema_writes_clean_data (w : write) (store store' : files)
    (d : list (pyval * pyval)) (success : bool) (message : string) :
  save_schema config_dir w store d = inr (store', (success, message)) ->
  (success = true ->
   w = Written
   /\ exists name saved,
        dict_get d "schema_name" VNone = VStr name
        /\ store' = <[get_schema_filepath config_dir name := VDict saved]> store
        /\ Forall (fun e => exists k, e.1 = VStr k
                              /\ starts_with_underscore k = false) saved
        /\ forall key default,
             starts_with_underscore key = false ->
             dict_get saved key default = dict_get d key default)
  /\ (success = false ->
      store' = store
      \/ exists name remains,
           w = DumpFails remains
           /\ dict_get d "schema_name" VNone = VStr name
           /\ store' = <[get_schema_filepath config_dir name := remains]> store)
  /\ (forall name p,
        dict_get d "schema_name" VNone = VStr name ->
        p <> get_schema_filepath config_dir name ->
        store' !! p = store !! p).
Proof.
  unfold save_schema.
  destruct (negb (truthy (VDict d)) || negb (dict_has d "schema_name")).
  { intros [= <- <- <-]. split; [discriminate|]. split; [now left|].
    reflexivity. }
  destruct (dict_get d "schema_name" VNone) as [| | |name| |] eqn:Hname;
    try discriminate.
  destruct (data_to_save d) as [e|saved] eqn:Hsaved; [discriminate|].
  destruct w as [| |remains]; intros [= <- <- <-].
  - split; [|split; [discriminate|]].
    + intros _. split; [reflexivity|]. exists name, saved.
      split; [reflexivity|]. split; [reflexivity|].
      split; [now apply data_to_save_keys with d|].
      intros key default Hkey. now apply data_to_save_get.
    + intros name' p [= <-] Hp. now rewrite lookup_insert_ne.
  - split; [discriminate|]. split; [now left | reflexivity].
  - split; [discriminate|]. split.
    + intros _. right. now exists name, remains.
    + intros name' p [= <-] Hp. now rewrite lookup_insert_ne.
Qed.

(** X10. Deleting a schema whose file exists removes that file and no
    other, after which the schema is no longer loaded by its name; a failed
    removal answers [False] and leaves the directory as it was. For a
    schema whose file is missing, [delete_schema] answers [False] with
    "not found" and changes nothing, unless the look-up of the file raises:
    then the exception leaves [delete_schema]. *)
Theorem delete_schema_removes_file (remove_ok : bool) (store : files)
    (name : string) :
  let path := get_schema_filepath config_dir name in
  (store !! path = None ->
   delete_schema lookup_error config_dir remove_ok store name
   = match lookup_error path with
     | Some e => inl e
     | None => inr (store, (false, "Schema '" +:+ name +:+ "' not found."))
     end)
  /\ (is_Some (store !! path) ->
      delete_schema lookup_error config_dir false store name
      = inr (store, (false, "Error deleting schema '" +:+ name +:+ "'."))
      /\ exists store',
           delete_schema lookup_error config_dir true store name
           = inr (store', (true, "Schema '" +:+ name +:+ "' deleted."))
           /\ store' !! path = None
           /\ (forall p, p <> path -> store' !! p = store !! p)
           /\ forall loaded,
                load_single_schema path_exists str_other lookup_error
                  config_dir store' name <> inr (Some loaded)).
Proof.
  cbv zeta. unfold delete_schema. split.
  - intros Hnone. rewrite (file_exists_missing _ _ Hnone).
    now destruct (lookup_error _).
  - intros [content Hc]. rewrite (file_exists_found _ _ _ Hc).
    split; [reflexivity|].
    eexists. split; [reflexivity|].
    split; [apply lookup_delete_eq|].
    split; [intros p Hp; now apply lookup_delete_ne|].
    intros loaded. unfold load_single_schema.
    rewrite file_exists_missing by apply lookup_delete_eq.
    now destruct (lookup_error _).
Qed.

(** X11. Two different schema names with the same sanitized file name share
    one file: once a schema is saved under the second name, loading by the
    first name finds a file whose [schema_name] is another and returns
    [None], whatever was stored for the first name before. *)
Theorem save_replaces_schema_with_same_file_name (store : files)
    (d : list (pyval * pyval)) (name other : string) :
  dict_get d "schema_name" VNone = VStr name ->
  Forall (fun e => is_str e.1 = true) d ->
  other <> name ->
  Sanitize.sanitize_filename other = Sanitize.sanitize_filename name ->
  exists store' message,
    save_schema config_dir Written store d = inr (store', (true, message))
    /\ load_single_schema path_exists str_other lookup_error config_dir
         store' other = inr None.
Proof.
  intros Hname Hkeys Hne Hsan.
  destruct (save_written store d name Hname Hkeys)
    as (saved & Hsave & Hsaved & Hget & Hs).
  eexists _, _. split; [exact Hsave|].
  assert (Hpath : get_schema_filepath config_dir other
                  = get_schema_filepath config_dir name).
  { unfold get_schema_filepath. now rewrite Hsan. }
  unfold load_single_schema. rewrite Hpath.
  rewrite (file_exists_found _ _ (VDict saved)) by apply lookup_insert_eq.
  rewrite lookup_insert_eq, Hs, Hget.
  destruct (String.eqb_spec name other); [congruence | reflexivity].
Qed.

End StoreProperties.

(** * Further properties of the window *)

Section FurtherQueueProperties.

Import Main.

Variable str_other : pyval -> string.

Lemma load_schemas_from_files path_exists files :
  forall (acc : gmap string pyval) (name : string) (data : pyval),
  fold_left
    (fun schemas file =>
       match SchemaManager.load_file path_exists str_other file.1 file.2 with
       | Some (name, data) => <[name := data]> schemas
       | None => schemas
       end) files acc !! name = Some data ->
  acc !! name = Some data
  \/ exists filepath content,
       In (filepath, content) files
       /\ SchemaManager.load_file path_exists str_other filepath content
          = Some (name, data).
Proof.
  induction files as [|[fp c] files IH]; intros acc name data; cbn [fold_left].
  - now left.
  - intros H. apply IH in H as [H | (fp' & c' & Hin & Hl)].
    + cbn [fst snd] in H.
      destruct (SchemaManager.load_file path_exists str_other fp c)
        as [[n dd]|] eqn:Hl; [|now left].
      destruct (decide (n = name)) as [->|Hne].
      * rewrite lookup_insert_eq in H. injection H as ->.
        right. exists fp, c. split; [now left | exact Hl].
      * rewrite lookup_insert_ne in H by exact Hne. now left.
    + right. exists fp', c'. split; [now right | exact Hl].
Qed.

Lemma load_file_inv path_exists filepath content name data :
  SchemaManager.load_file path_exists str_other filepath content
  = Some (name, data) ->
  exists d is_valid invalid,
    content = VDict d
    /\ dict_get d "schema_name" VNone = VStr name
    /\ SchemaManager.dict_has d "sources" = true
    /\ SchemaManager.dict_has d "destination" = true
    /\ Utils.validate_schema_paths path_exists str_other content
       = inr (is_valid, invalid)
    /\ data = VDict (Store.annotate filepath is_valid invalid d).
Proof.
  unfold SchemaManager.load_file. destruct content as [| | | | |d];
    try discriminate.
  destruct (truthy (VDict d)); [|discriminate]. cbn [andb].
  destruct (SchemaManager.dict_has d "schema_name"); [|discriminate].
  destruct (SchemaManager.dict_has d "sources") eqn:Hs; [|discriminate].
  destruct (SchemaManager.dict_has d "destination") eqn:Hd; [|discriminate].
  cbn [andb].
  destruct (dict_get d "schema_name" VNone) as [| | |n| |] eqn:Hn;
    try discriminate.
  destruct (Utils.validate_schema_paths path_exists str_other (VDict d))
    as [e|[is_valid invalid]] eqn:Hv; [discriminate|].
  intros [= <- <-]. exists d, is_valid, invalid. repeat split; assumption.
Qed.

(** X12. Every entry of the table [load_schemas] builds comes from a file
    of the directory that holds a dictionary with the keys [schema_name],
    [sources] and [destination]: it is filed under the name that dictionary
    declares, and it is that dictionary with [_is_valid] and
    [_invalid_paths] set to what [validate_schema_paths] answers for it and
    [_filepath] set to the path of the file. *)
Theorem load_schemas_keyed_by_declared_name (path_exists : string -> pyexn + bool)
    (files : list (string * pyval)) (name : string) (data : pyval) :
  SchemaManager.load_schemas path_exists str_other files !! name = Some data ->
  exists filepath d is_valid invalid,
    In (filepath, VDict d) files
    /\ dict_get d "schema_name" VNone = VStr name
    /\ SchemaManager.dict_has d "sources" = true
    /\ SchemaManager.dict_has d "destination" = true
    /\ Utils.validate_schema_paths path_exists str_other (VDict d)
       = inr (is_valid, invalid)
    /\ data = VDict (Store.annotate filepath is_valid invalid d).
Proof.
  intros H. apply load_schemas_from_files in H as [H|(fp & c & Hin & Hl)].
  - rewrite lookup_empty in H. discriminate H.
  - apply load_file_inv in Hl
      as (d & is_valid & invalid & -> & Hn & Hs & Hd & Hv & ->).
    now exists fp, d, is_valid, invalid.
Qed.

Lemma loaded_schema_starts path_exists files name data :
  SchemaManager.load_schemas path_exists str_other files !! name = Some data ->
  exists d, data = VDict d
            /\ Worker.BackupWorker data = Some (Worker.mkWorker d name false None).
Proof.
  intros H. apply load_schemas_from_files in H as [H|(fp & c & Hin & Hl)].
  { rewrite lookup_empty in H. discriminate H. }
  apply load_file_inv in Hl
    as (d & is_valid & invalid & -> & Hn & _ & _ & _ & ->).
  eexists. split; [reflexivity|]. unfold Worker.BackupWorker, Store.annotate.
  rewrite !dict_get_set_ne by discriminate. now rewrite Hn.
Qed.

Lemma exec_schemas_loaded evs : forall s,
  (exists pe files,
      schemas s = SchemaManager.load_schemas pe str_other files) ->
  exists pe files,
    schemas (exec str_other evs s)
    = SchemaManager.load_schemas pe str_other files.
Proof.
  induction evs as [|e evs IH]; intros s Hs; [exact Hs|].
  change (exec str_other (e :: evs) s)
    with (exec str_other evs (handle str_other e s)).
  apply IH. destruct e as [|sel|alive|i| |pe|files]; cbn [handle].
  - unfold process_backup_queue.
    destruct (match current_worker s with
              | None => true
              | Some i => negb (thread_running s i)
              end); [|exact Hs].
    destruct (backup_queue s) as [|n rest]; [exact Hs|]. cbn.
    destruct (schemas s !! n) as [data|]; [|exact Hs].
    unfold start_backup. now destruct (Worker.BackupWorker data).
  - unfold queue_selected_backup. destruct sel as [|item others]; [exact Hs|].
    destruct (negb (is_valid item)); [exact Hs|].
    now case_bool_decide.
  - unfold cancel_current_backup.
    destruct (current_worker s) as [c|]; [|exact Hs].
    destruct (threads s !! c) as [t|]; [|exact Hs].
    now destruct (isRunning t).
  - unfold thread_exits. destruct (threads s !! i) as [t|]; [|exact Hs].
    now destruct (isRunning t).
  - unfold deliver_finished. destruct (finished_posted s); [exact Hs|].
    unfold worker_thread_finished. cbn. now destruct (current_worker s).
  - now exists pe, (config_dir s).
  - exact Hs.
Qed.

(** X13. In every window reached from the initial one, a tick that finds
    the window idle and takes a name from the head of the queue either does
    not find the name in the table and starts nothing, or starts a worker
    that carries exactly that name, on the table's entry for it, with its
    cancellation flag clear: the constructor never fails on a loaded
    schema. *)
Theorem started_job_carries_dequeued_name (path_exists : string -> pyexn + bool)
    (files : list (string * pyval)) (evs : list event) (name : string)
    (rest : list string) :
  let s := exec str_other evs (init path_exists str_other files) in
  current_worker s = None
  \/ (exists i, current_worker s = Some i /\ thread_running s i = false) ->
  backup_queue s = name :: rest ->
  (schemas s !! name = None
   /\ threads (process_backup_queue s) = threads s)
  \/ exists d,
       schemas s !! name = Some (VDict d)
       /\ threads (process_backup_queue s)
          = (threads s
             ++ [mkThread (Worker.mkWorker d name false None) true true])%list
       /\ current_worker (process_backup_queue s) = Some (length (threads s))
       /\ backup_queue (process_backup_queue s) = rest.
Proof.
  intros s Hidle Hq.
  assert (Hguard : match current_worker s with
                   | None => true
                   | Some i => negb (thread_running s i)
                   end = true).
  { destruct Hidle as [-> | (i & -> & Hi)]; [reflexivity | now rewrite Hi]. }
  destruct (exec_schemas_loaded evs (init path_exists str_other files))
    as (pe & fs & Hloaded).
  { now exists path_exists, files. }
  fold s in Hloaded.
  unfold process_backup_queue. rewrite Hguard, Hq. cbn.
  destruct (schemas s !! name) as [data|] eqn:Hdata; [|now left].
  right. rewrite Hloaded in Hdata.
  apply loaded_schema_starts in Hdata as (d & -> & Hw).
  exists d. unfold start_backup. rewrite Hw. now cbn.
Qed.

(** X14. [cancel_current_backup] changes nothing when no worker is running.
    When the current worker runs it sets that worker's cancellation flag and
    nothing else: the queue, the table, the current worker and every other
    thread stay as they are, and no thread starts or stops running. *)
Theorem cancel_only_flags_running_job (alive : bool) (s : window) :
  let s' := cancel_current_backup alive s in
  (current_worker s = None
   \/ (exists i, current_worker s = Some i /\ thread_running s i = false) ->
   s' = s)
  /\ backup_queue s' = backup_queue s /\ schemas s' = schemas s
  /\ current_worker s' = current_worker s
  /\ finished_posted s' = finished_posted s
  /\ (forall j, thread_running s' j = thread_running s j)
  /\ (forall i t,
        current_worker s = Some i -> threads s !! i = Some t ->
        isRunning t = true ->
        (exists t', threads s' !! i = Some t'
                    /\ Worker._is_cancelled (th_worker t') = true
                    /\ Worker.schema_name (th_worker t')
                       = Worker.schema_name (th_worker t))
        /\ forall j, j <> i -> threads s' !! j = threads s !! j).
Proof.
  cbv zeta. unfold cancel_current_backup.
  destruct (current_worker s) as [c|] eqn:Hc.
  2:{ split; [intros _; reflexivity|]. do 4 (split; [first [reflexivity | exact Hc]|]).
      split; [intros j; reflexivity|]. intros i t Hi. discriminate Hi. }
  destruct (threads s !! c) as [t|] eqn:Ht.
  2:{ split; [intros _; reflexivity|]. do 4 (split; [first [reflexivity | exact Hc]|]).
      split; [intros j; reflexivity|]. intros i t' [= <-] Ht'. congruence. }
  destruct (isRunning t) eqn:Hr.
  2:{ split; [intros _; reflexivity|]. do 4 (split; [first [reflexivity | exact Hc]|]).
      split; [intros j; reflexivity|].
      intros i t' [= <-] Ht' Hr'. congruence. }
  assert (Hlt : (c < length (threads s))%nat) by (now apply lookup_lt_Some with t).
  split.
  { intros [H | (i & [= <-] & Hi)]; [discriminate H|].
    unfold thread_running in Hi. rewrite Ht, Hr in Hi. discriminate Hi. }
  do 4 (split; [first [reflexivity | exact Hc]|]).
  split.
  { intros j. unfold thread_running. cbn [threads with_threads].
    destruct (decide (c = j)) as [<-|Hne].
    - rewrite list_lookup_insert_eq by exact Hlt. now rewrite Ht.
    - now rewrite list_lookup_insert_ne. }
  intros i t' [= <-] Ht' Hr'. rewrite Ht in Ht'. injection Ht' as <-.
  cbn [threads with_threads]. split.
  - rewrite list_lookup_insert_eq by exact Hlt.
    eexists. split; [reflexivity|]. cbn [th_worker].
    split; [apply cancel_sets_flag | apply cancel_name].
  - intros j Hj. now rewrite list_lookup_insert_ne.
Qed.

(** X15. The queue is first in, first out: whatever the event, the queue
    afterwards is the queue before, or the queue before without its head
    (only a tick does that), or the queue before with one new name at its
    end (only a click on the queue button does that). *)
Theorem queue_is_fifo (e : event) (s : window) :
  let q := backup_queue s in
  let q' := backup_queue (handle str_other e s) in
  q' = q
  \/ (e = Tick /\ exists name, q = name :: q')
  \/ (exists item others,
        e = QueueClicked (item :: others)
        /\ q' = (q ++ [widget_name item])%list
        /\ is_valid item = true /\ widget_name item ∉ q).
Proof.
  cbv zeta. destruct e as [|sel|alive|i| |pe|files]; cbn [handle].
  - destruct (process_backup_queue_tail s) as [H | [name H]];
      [now left | right; left; eauto].
  - unfold queue_selected_backup. destruct sel as [|item others]; [now left|].
    destruct (is_valid item) eqn:Hv; cbn [negb]; [|now left].
    case_bool_decide as Hin; [now left|].
    right; right. exists item, others. auto.
  - left. unfold cancel_current_backup.
    destruct (current_worker s) as [c|]; [|reflexivity].
    destruct (threads s !! c) as [t|]; [|reflexivity].
    now destruct (isRunning t).
  - left. unfold thread_exits. destruct (threads s !! i) as [t|]; [|reflexivity].
    now destruct (isRunning t).
  - left. unfold deliver_finished. destruct (finished_posted s); [reflexivity|].
    unfold worker_thread_finished. cbn. now destruct (current_worker s).
  - now left.
  - now left.
Qed.

End FurtherQueueProperties.

(** * Properties of the edit tab and of the buttons *)

Section EditorProperties.

Import Editor.

Variable lookup_error : string -> option pyexn.
Variable config_dir : string.

Lemma save_schema_of w files name sources destination :
  Store.save_schema config_dir w files (schema_of name sources destination)
  = inr (match w with
         | Store.Written =>
             (<[Store.get_schema_filepath config_dir name
                := VDict (schema_of name sources destination)]> files,
              (true, "Schema '" +:+ name +:+ "' saved successfully."))
         | Store.OpenFails =>
             (files, (false, "Error saving schema '" +:+ name +:+ "'."))
         | Store.DumpFails remains =>
             (<[Store.get_schema_filepath config_dir name := remains]> files,
              (false, "Error saving schema '" +:+ name +:+ "'."))
         end).
Proof. unfold Store.save_schema. cbn. now destruct w. Qed.

Lemma perform_save_of w name sources destination st :
  _perform_save config_dir w (schema_of name sources destination) st
  = inr (match w with
         | Store.Written =>
             (mkState
                (<[Store.get_schema_filepath config_dir name
                   := VDict (schema_of name sources destination)]> (store st))
                (confirm_overwrite st) (confirm_delete st),
              "Schema '" +:+ name +:+ "' saved successfully.")
         | Store.OpenFails =>
             (st, "Error saving schema '" +:+ name +:+ "'.")
         | Store.DumpFails remains =>
             (mkState
                (<[Store.get_schema_filepath config_dir name := remains]>
                   (store st))
                (confirm_overwrite st) (confirm_delete st),
              "Error saving schema '" +:+ name +:+ "'.")
         end).
Proof.
  unfold _perform_save. rewrite save_schema_of.
  destruct w; try reflexivity. now destruct st.
Qed.

(** X16. [save_current_schema] never stores an incomplete schema. An
    exception leaves it only when the look-up of the file raises, for a
    complete form whose file is not in the directory, and nothing is stored
    then. When it returns, the files have changed only if the name and the
    destination are non-empty once stripped and there is at least one
    source: the file of that name then holds exactly the name, the sources
    in their order and the destination, or what a failed dump has left. The
    confirmation of the delete button is left alone. *)
Theorem save_current_schema_stores_complete_schemas (w : Store.write)
    (f : form) (st : state) :
  let name := strip (schema_name_edit f) in
  let path := Store.get_schema_filepath config_dir name in
  let complete :=
    name <> "" /\ source_paths_list f <> []
    /\ strip (destination_path_edit f) <> "" in
  (forall e,
      save_current_schema lookup_error config_dir w f st = inl e ->
      complete /\ store st !! path = None /\ lookup_error path = Some e)
  /\ (forall st' message,
      save_current_schema lookup_error config_dir w f st
      = inr (st', message) ->
      confirm_delete st' = confirm_delete st
      /\ (store st' = store st
          \/ (complete /\ w = Store.Written
              /\ store st'
                 = <[path := VDict (schema_of name (source_paths_list f)
                                      (strip (destination_path_edit f)))]>
                   (store st))
          \/ (complete
              /\ exists remains,
                   w = Store.DumpFails remains
                   /\ store st' = <[path := remains]> (store st)))).
Proof.
  cbv zeta. unfold save_current_schema.
  destruct (String.eqb_spec (strip (schema_name_edit f)) "") as [|Hn].
  { split; [discriminate|]. intros st' message [= <- <-]. now split; [|left]. }
  destruct (source_paths_list f) as [|src srcs] eqn:Hs.
  { split; [discriminate|]. intros st' message [= <- <-]. now split; [|left]. }
  destruct (String.eqb_spec (strip (destination_path_edit f)) "") as [|Hd].
  { split; [discriminate|]. intros st' message [= <- <-]. now split; [|left]. }
  assert (Hcomplete : strip (schema_name_edit f) <> "" /\ src :: srcs <> []
                      /\ strip (destination_path_edit f) <> "")
    by (repeat split; [assumption | discriminate | assumption]).
  assert (Hsave : forall st0 st' message,
    store st0 = store st -> confirm_delete st0 = confirm_delete st ->
    _perform_save config_dir w
      (schema_of (strip (schema_name_edit f)) (src :: srcs)
         (strip (destination_path_edit f))) st0 = inr (st', message) ->
    confirm_delete st' = confirm_delete st
    /\ (store st' = store st
        \/ ((strip (schema_name_edit f) <> "" /\ src :: srcs <> []
             /\ strip (destination_path_edit f) <> "")
            /\ w = Store.Written
            /\ store st'
               = <[Store.get_schema_filepath config_dir
                     (strip (schema_name_edit f))
                   := VDict (schema_of (strip (schema_name_edit f))
                               (src :: srcs)
                               (strip (destination_path_edit f)))]>
                 (store st))
        \/ ((strip (schema_name_edit f) <> "" /\ src :: srcs <> []
             /\ strip (destination_path_edit f) <> "")
            /\ exists remains,
                 w = Store.DumpFails remains
                 /\ store st'
                    = <[Store.get_schema_filepath config_dir
                          (strip (schema_name_edit f)) := remains]>
                      (store st)))).
  { intros st0 st' message Hst Hcd. rewrite perform_save_of.
    destruct w as [| |remains]; intros [= <- <-]; cbn [store confirm_delete].
    - split; [exact Hcd|]. right; left. now rewrite Hst.
    - split; [exact Hcd|]. now left.
    - split; [exact Hcd|]. right; right. split; [exact Hcomplete|].
      exists remains. now rewrite Hst. }
  unfold Store.file_exists.
  destruct (store st !! Store.get_schema_filepath config_dir
                          (strip (schema_name_edit f))) as [content|] eqn:Hfile.
  - cbn [andb]. split.
    + intros e.
      destruct (_ || _); [case_bool_decide|]; rewrite ?perform_save_of;
        discriminate.
    + intros st' message.
      destruct (_ || _); [case_bool_decide|].
      * now apply Hsave.
      * intros [= <- <-]. split; [reflexivity | now left].
      * now apply Hsave.
  - destruct (lookup_error _) as [e0|] eqn:Hlook.
    + split; [|discriminate]. intros e [= <-]. auto.
    + cbn [andb]. split; [intros e; rewrite perform_save_of; discriminate|].
      intros st' message. now apply Hsave.
Qed.

(** X17. Saving over the file of another schema takes two clicks. When the
    file of the name exists and is not the file of the schema being edited,
    a first click writes nothing and remembers the name; a second click on
    the same form then writes the schema and forgets the name. *)
Theorem overwrite_needs_second_click (f : form) (st : state) :
  let name := strip (schema_name_edit f) in
  let path := Store.get_schema_filepath config_dir name in
  name <> "" -> source_paths_list f <> [] ->
  strip (destination_path_edit f) <> "" ->
  is_Some (store st !! path) ->
  schema_selector_combo f = ""
  \/ Store.get_schema_filepath config_dir (schema_selector_combo f) <> path ->
  confirm_overwrite st <> Some name ->
  exists st1 message1 st2 message2,
    save_current_schema lookup_error config_dir Store.Written f st
    = inr (st1, message1)
    /\ store st1 = store st /\ confirm_overwrite st1 = Some name
    /\ save_current_schema lookup_error config_dir Store.Written f st1
       = inr (st2, message2)
    /\ store st2
       = <[path := VDict (schema_of name (source_paths_list f)
                            (strip (destination_path_edit f)))]> (store st)
    /\ confirm_overwrite st2 = None.
Proof.
  cbv zeta. intros Hn Hs Hd [content Hex] Horig Hconf.
  unfold save_current_schema.
  destruct (String.eqb_spec (strip (schema_name_edit f)) ""); [contradiction|].
  destruct (source_paths_list f) as [|src srcs]; [contradiction|].
  destruct (String.eqb_spec (strip (destination_path_edit f)) "");
    [contradiction|].
  assert (Hcond : (String.eqb (schema_selector_combo f) ""
                   || negb (String.eqb
                              (Store.get_schema_filepath config_dir
                                 (schema_selector_combo f))
                              (Store.get_schema_filepath config_dir
                                 (strip (schema_name_edit f))))) = true).
  { destruct Horig as [-> | Hne]; [reflexivity|].
    apply orb_true_iff. right. apply negb_true_iff.
    now destruct (String.eqb_spec
                    (Store.get_schema_filepath config_dir
                       (schema_selector_combo f))
                    (Store.get_schema_filepath config_dir
                       (strip (schema_name_edit f)))). }
  rewrite Hcond. unfold Store.file_exists. rewrite Hex. cbn [andb].
  rewrite (bool_decide_eq_false_2 _ Hconf).
  eexists _, _, _, _. split; [reflexivity|]. cbn [store confirm_overwrite].
  split; [reflexivity|]. split; [reflexivity|].
  rewrite Hex. cbn [andb].
  rewrite (bool_decide_eq_true_2 _ eq_refl).
  rewrite perform_save_of. split; [reflexivity|]. now split.
Qed.

(** X18. Deleting a schema takes two clicks. A first click on a selected
    name that the button has not remembered deletes nothing and remembers
    the name; a second click removes the file of that name if there is one,
    touches no other file, and forgets the name. *)
Theorem delete_needs_second_click (f : form) (st : state) :
  let name := schema_selector_combo f in
  let path := Store.get_schema_filepath config_dir name in
  name <> "" -> confirm_delete st <> Some name ->
  exists message1 st2 outcome2,
    delete_selected_schema lookup_error config_dir true f st
    = (mkState (store st) (confirm_overwrite st) (Some name), inr message1)
    /\ delete_selected_schema lookup_error config_dir true f
         (mkState (store st) (confirm_overwrite st) (Some name))
       = (st2, outcome2)
    /\ store st2 !! path = None
    /\ (forall p, p <> path -> store st2 !! p = store st !! p)
    /\ confirm_delete st2 = None.
Proof.
  cbv zeta. intros Hn Hconf. unfold delete_selected_schema.
  destruct (String.eqb_spec (schema_selector_combo f) ""); [contradiction|].
  rewrite (bool_decide_eq_false_2 _ Hconf).
  cbn [store confirm_overwrite confirm_delete].
  rewrite (bool_decide_eq_true_2 _ eq_refl).
  unfold Store.delete_schema, Store.file_exists.
  destruct (store st !! Store.get_schema_filepath config_dir
                          (schema_selector_combo f)) as [content|] eqn:Hfile.
  - eexists _, _, _. split; [reflexivity|]. split; [reflexivity|].
    cbn [store confirm_delete]. split; [apply lookup_delete_eq|].
    split; [intros p Hp; now apply lookup_delete_ne | reflexivity].
  - destruct (lookup_error _) as [e|].
    + eexists _, _, _. split; [reflexivity|]. split; [reflexivity|].
      cbn [store confirm_delete]. split; [exact Hfile|].
      split; [reflexivity | reflexivity].
    + eexists _, _, _. split; [reflexivity|]. split; [reflexivity|].
      cbn [store confirm_delete]. split; [exact Hfile|].
      split; [reflexivity | reflexivity].
Qed.

(** X19. The buttons of the run tab agree with the slots behind them. When
    [update_run_button_state] enables the queue button, a click leaves the
    selected schema in the queue, once if the queue had no duplicates; when
    it disables the cancel button, [cancel_current_backup] would change
    nothing. *)
Theorem enabled_buttons_take_effect (selected : list Main.widget)
    (alive : bool) (s : Main.window) :
  (fst (update_run_button_state selected s) = true ->
   exists item others,
     selected = item :: others
     /\ Main.widget_name item
        ∈ Main.backup_queue (Main.queue_selected_backup selected s)
     /\ (NoDup (Main.backup_queue s) ->
         NoDup (Main.backup_queue (Main.queue_selected_backup selected s))))
  /\ (snd (update_run_button_state selected s) = false ->
      Main.cancel_current_backup alive s = s).
Proof.
  unfold update_run_button_state. cbn [fst snd]. split.
  - destruct selected as [|item others]; [discriminate|]. intros Hv.
    exists item, others. split; [reflexivity|].
    unfold Main.queue_selected_backup. rewrite Hv. cbn [negb].
    case_bool_decide as Hin.
    + split; [exact Hin | auto].
    + cbn. split; [apply elem_of_app; right; apply list_elem_of_here|].
      intros Hnd. apply NoDup_app. split; [exact Hnd|].
      split; [|apply NoDup_singleton].
      intros x Hx Hx'. apply list_elem_of_singleton in Hx'. now subst.
  - unfold Main.cancel_current_backup, Main.thread_running.
    destruct (Main.current_worker s) as [i|]; [|reflexivity].
    destruct (Main.threads s !! i) as [t|]; [|reflexivity].
    now intros ->.
Qed.

End EditorProperties.

(** * The further properties on sample inputs *)

Section MoreExamples.

Import Worker Main.

(** X2 on the name [docs_2024.bak]. *)
Lemma sanitize_filename_keeps_safe_names_witness :
  "docs_2024.bak" <> ""
  /\ Forall (fun c => safe_char c = true) (list_ascii_of_string "docs_2024.bak")
  /\ last (list_ascii_of_string "docs_2024.bak") <> Some "."%char
  /\ Sanitize.sanitize_filename "docs_2024.bak" = "docs_2024.bak".
Proof.
  assert (H1 : "docs_2024.bak" <> "") by discriminate.
  assert (H2 : Forall (fun c => safe_char c = true)
                 (list_ascii_of_string "docs_2024.bak"))
    by (cbn; repeat constructor).
  assert (H3 : last (list_ascii_of_string "docs_2024.bak") <> Some "."%char)
    by discriminate.
  exact (conj H1 (conj H2 (conj H3
           (sanitize_filename_keeps_safe_names "docs_2024.bak" H1 H2 H3)))).
Defined.

Lemma no_rsync_preflight_passes :
  preflight_passes Sample.all_exist Sample.str_other Sample.fresh
    MoreSamples.env_no_rsync.
Proof.
  split; [exists []; reflexivity|].
  exists 200000000%N. split; [reflexivity | now vm_compute].
Defined.

(** X4 on a machine without rsync. *)
Lemma launch_failure_is_reported_witness :
  preflight_passes Sample.all_exist Sample.str_other Sample.fresh
    MoreSamples.env_no_rsync
  /\ popen MoreSamples.env_no_rsync
     = Some (FileNotFoundError "[Errno 2] No such file or directory: 'rsync'")
  /\ launches (Worker.run Sample.all_exist Sample.str_other Sample.fresh
                 MoreSamples.env_no_rsync) = []
  /\ signals (Worker.run Sample.all_exist Sample.str_other Sample.fresh
                MoreSamples.env_no_rsync)
     = [logMessage "docs" "Starting backup for 'docs'...";
        logMessage "docs"
          "Running: rsync -a --info=progress2 --no-i-r /home/user/docs /mnt/backup";
        jobFinished "docs" false
          "rsync command not found. Please ensure rsync is installed and in your PATH."].
Proof.
  split; [exact no_rsync_preflight_passes|]. split; [reflexivity|].
  exact (launch_failure_is_reported Sample.all_exist Sample.str_other
           Sample.fresh MoreSamples.env_no_rsync _
           no_rsync_preflight_passes eq_refl).
Defined.

(** X7 on a job that ends with exit code 0. *)
Lemma success_needs_exit_code_0_or_24_witness :
  In (jobFinished "docs" true "Completed")
     (signals (Worker.run Sample.all_exist Sample.str_other Sample.fresh
                 (Sample.env_exit 0 "" false)))
  /\ (return_code (Sample.env_exit 0 "" false) = 0
      \/ return_code (Sample.env_exit 0 "" false) = 24)
  /\ In (progressUpdated "docs" 100)
        (signals (Worker.run Sample.all_exist Sample.str_other Sample.fresh
                    (Sample.env_exit 0 "" false))).
Proof.
  assert (Hin : In (jobFinished "docs" true "Completed")
                   (signals (Worker.run Sample.all_exist Sample.str_other
                               Sample.fresh (Sample.env_exit 0 "" false))))
    by (vm_compute; tauto).
  split; [exact Hin|].
  destruct (success_needs_exit_code_0_or_24 Sample.all_exist Sample.str_other
              Sample.fresh (Sample.env_exit 0 "" false) "docs" "Completed" Hin)
    as (_ & _ & Hrc & _ & _ & _ & H100).
  exact (conj Hrc H100).
Defined.

(** X8 on a schema that still carries the marks of the loader. *)
Lemma save_load_round_trip_witness :
  dict_get MoreSamples.marked_entries "schema_name" VNone = VStr "docs"
  /\ Forall (fun e => is_str e.1 = true) MoreSamples.marked_entries
  /\ exists store' message saved,
       Store.save_schema MoreSamples.config_dir Store.Written ∅
         MoreSamples.marked_entries = inr (store', (true, message))
       /\ store' !! Store.get_schema_filepath MoreSamples.config_dir "docs"
          = Some (VDict saved)
       /\ dict_get saved "destination" VNone = VStr "/mnt/backup".
Proof.
  assert (H1 : dict_get MoreSamples.marked_entries "schema_name" VNone
               = VStr "docs") by reflexivity.
  assert (H2 : Forall (fun e => is_str e.1 = true) MoreSamples.marked_entries)
    by (cbn; repeat constructor).
  split; [exact H1|]. split; [exact H2|].
  destruct (save_load_round_trip Sample.all_exist Sample.str_other
              MoreSamples.looks_up MoreSamples.config_dir ∅
              MoreSamples.marked_entries "docs" H1 H2)
    as (store' & message & saved & Hsave & Hfile & _ & Hget & _).
  exists store', message, saved.
  split; [exact Hsave|]. split; [exact Hfile|]. now rewrite Hget.
Defined.

(** X9 on the same schema. *)
Lemma save_schema_writes_clean_data_witness :
  Store.save_schema MoreSamples.config_dir Store.Written ∅
    MoreSamples.marked_entries
  = inr (<[Store.get_schema_filepath MoreSamples.config_dir "docs"
           := Sample.schema "docs"]> ∅,
         (true, "Schema 'docs' saved successfully."))
  /\ exists name saved,
       dict_get MoreSamples.marked_entries "schema_name" VNone = VStr name
       /\ <[Store.get_schema_filepath MoreSamples.config_dir "docs"
            := Sample.schema "docs"]> ∅
          = <[Store.get_schema_filepath MoreSamples.config_dir name
              := VDict saved]> (∅ : Store.files)
       /\ Forall (fun e => exists k, e.1 = VStr k
                             /\ Store.starts_with_underscore k = false) saved.
Proof.
  assert (H : Store.save_schema MoreSamples.config_dir Store.Written ∅
                MoreSamples.marked_entries
              = inr (<[Store.get_schema_filepath MoreSamples.config_dir "docs"
                       := Sample.schema "docs"]> ∅,
                     (true, "Schema 'docs' saved successfully.")))
    by reflexivity.
  split; [exact H|].
  destruct (proj1 (save_schema_writes_clean_data MoreSamples.config_dir
                     Store.Written ∅ _ MoreSamples.marked_entries true _ H)
              eq_refl)
    as (_ & name & saved & Hn & Hs & Hk & _).
  now exists name, saved.
Defined.

(** X11 on the names "my backup" and "my_backup". *)
Lemma save_replaces_schema_with_same_file_name_witness :
  dict_get (Sample.entries "my_backup") "schema_name" VNone = VStr "my_backup"
  /\ Forall (fun e => is_str e.1 = true) (Sample.entries "my_backup")
  /\ "my backup" <> "my_backup"
  /\ Sanitize.sanitize_filename "my backup"
     = Sanitize.sanitize_filename "my_backup"
  /\ exists store' message,
       Store.save_schema MoreSamples.config_dir Store.Written
         MoreSamples.directory (Sample.entries "my_backup")
       = inr (store', (true, message))
       /\ Store.load_single_schema Sample.all_exist Sample.str_other
            MoreSamples.looks_up MoreSamples.config_dir store' "my backup"
          = inr None.
Proof.
  assert (H1 : dict_get (Sample.entries "my_backup") "schema_name" VNone
               = VStr "my_backup") by reflexivity.
  assert (H2 : Forall (fun e => is_str e.1 = true)
                 (Sample.entries "my_backup")) by (cbn; repeat constructor).
  assert (H3 : "my backup" <> "my_backup") by discriminate.
  assert (H4 : Sanitize.sanitize_filename "my backup"
               = Sanitize.sanitize_filename "my_backup") by reflexivity.
  exact (conj H1 (conj H2 (conj H3 (conj H4
           (save_replaces_schema_with_same_file_name Sample.all_exist
              Sample.str_other MoreSamples.looks_up MoreSamples.config_dir
              MoreSamples.directory
              (Sample.entries "my_backup") "my_backup" "my backup"
              H1 H2 H3 H4))))).
Defined.

(** X12 on the three sample files. *)
Lemma load_schemas_keyed_by_declared_name_witness :
  SchemaManager.load_schemas Sample.all_exist Sample.str_other Sample.files
    !! "A" = Some MoreSamples.loaded_A
  /\ exists filepath d is_valid invalid,
       In (filepath, VDict d) Sample.files
       /\ dict_get d "schema_name" VNone = VStr "A"
       /\ MoreSamples.loaded_A
          = VDict (Store.annotate filepath is_valid invalid d).
Proof.
  assert (H : SchemaManager.load_schemas Sample.all_exist Sample.str_other
                Sample.files !! "A" = Some MoreSamples.loaded_A)
    by (vm_compute; reflexivity).
  split; [exact H|].
  destruct (load_schemas_keyed_by_declared_name Sample.str_other
              Sample.all_exist Sample.files "A" MoreSamples.loaded_A H)
    as (fp & d & v & inv & Hin & Hn & _ & _ & _ & Heq).
  now exists fp, d, v, inv.
Defined.

(** X13 on the window with A queued. *)
Lemma started_job_carries_dequeued_name_witness :
  let s := exec Sample.str_other [QueueClicked [Sample.item "A"]]
             (init Sample.all_exist Sample.str_other Sample.files) in
  (current_worker s = None
   \/ exists i, current_worker s = Some i /\ thread_running s i = false)
  /\ backup_queue s = ["A"]
  /\ ((schemas s !! "A" = None
       /\ threads (process_backup_queue s) = threads s)
      \/ exists d,
           schemas s !! "A" = Some (VDict d)
           /\ threads (process_backup_queue s)
              = (threads s
                 ++ [mkThread (Worker.mkWorker d "A" false None) true true])%list
           /\ current_worker (process_backup_queue s)
              = Some (length (threads s))
           /\ backup_queue (process_backup_queue s) = []).
Proof.
  cbv zeta. split; [now left|]. split; [reflexivity|].
  exact (started_job_carries_dequeued_name Sample.str_other Sample.all_exist
           Sample.files [QueueClicked [Sample.item "A"]] "A" []
           (or_introl eq_refl) eq_refl).
Defined.

Lemma directory_has_file :
  is_Some (Editor.store MoreSamples.editor0
           !! Store.get_schema_filepath MoreSamples.config_dir
                (strip (Editor.schema_name_edit MoreSamples.new_form))).
Proof.
  exists (Sample.schema "my backup"). cbn [Editor.store MoreSamples.editor0].
  unfold MoreSamples.directory.
  replace (Store.get_schema_filepath MoreSamples.config_dir
             (strip (Editor.schema_name_edit MoreSamples.new_form)))
    with (Store.get_schema_filepath MoreSamples.config_dir "my backup")
    by reflexivity.
  apply lookup_insert_eq.
Defined.

(** X17 on a new schema "my_backup" whose file is that of "my backup". *)
Lemma overwrite_needs_second_click_witness :
  strip (Editor.schema_name_edit MoreSamples.new_form) <> ""
  /\ Editor.source_paths_list MoreSamples.new_form <> []
  /\ strip (Editor.destination_path_edit MoreSamples.new_form) <> ""
  /\ is_Some (Editor.store MoreSamples.editor0
              !! Store.get_schema_filepath MoreSamples.config_dir
                   (strip (Editor.schema_name_edit MoreSamples.new_form)))
  /\ Editor.confirm_overwrite MoreSamples.editor0
     <> Some (strip (Editor.schema_name_edit MoreSamples.new_form))
  /\ exists st1 message1 st2 message2,
       Editor.save_current_schema MoreSamples.looks_up MoreSamples.config_dir
         Store.Written MoreSamples.new_form MoreSamples.editor0
       = inr (st1, message1)
       /\ Editor.store st1 = Editor.store MoreSamples.editor0
       /\ Editor.confirm_overwrite st1
          = Some (strip (Editor.schema_name_edit MoreSamples.new_form))
       /\ Editor.save_current_schema MoreSamples.looks_up
            MoreSamples.config_dir Store.Written MoreSamples.new_form st1
          = inr (st2, message2)
       /\ Editor.store st2
          = <[Store.get_schema_filepath MoreSamples.config_dir
                (strip (Editor.schema_name_edit MoreSamples.new_form))
              := VDict (Editor.schema_of
                          (strip (Editor.schema_name_edit MoreSamples.new_form))
                          (Editor.source_paths_list MoreSamples.new_form)
                          (strip (Editor.destination_path_edit
                                    MoreSamples.new_form)))]>
            (Editor.store MoreSamples.editor0)
       /\ Editor.confirm_overwrite st2 = None.
Proof.
  assert (H1 : strip (Editor.schema_name_edit MoreSamples.new_form) <> "")
    by discriminate.
  assert (H2 : Editor.source_paths_list MoreSamples.new_form <> [])
    by discriminate.
  assert (H3 : strip (Editor.destination_path_edit MoreSamples.new_form) <> "")
    by discriminate.
  assert (H5 : Editor.confirm_overwrite MoreSamples.editor0
               <> Some (strip (Editor.schema_name_edit MoreSamples.new_form)))
    by discriminate.
  exact (conj H1 (conj H2 (conj H3 (conj directory_has_file (conj H5
           (overwrite_needs_second_click MoreSamples.looks_up
              MoreSamples.config_dir
              MoreSamples.new_form MoreSamples.editor0 H1 H2 H3
              directory_has_file (or_introl eq_refl) H5)))))).
Defined.

(** X18 on the schema "my backup". *)
Lemma delete_needs_second_click_witness :
  Editor.schema_selector_combo MoreSamples.selected_form <> ""
  /\ Editor.confirm_delete MoreSamples.editor0
     <> Some (Editor.schema_selector_combo MoreSamples.selected_form)
  /\ exists message1 st2 outcome2,
       Editor.delete_selected_schema MoreSamples.looks_up
         MoreSamples.config_dir true
         MoreSamples.selected_form MoreSamples.editor0
       = (Editor.mkState (Editor.store MoreSamples.editor0)
            (Editor.confirm_overwrite MoreSamples.editor0)
            (Some (Editor.schema_selector_combo MoreSamples.selected_form)),
          inr message1)
       /\ Editor.delete_selected_schema MoreSamples.looks_up
            MoreSamples.config_dir true
            MoreSamples.selected_form
            (Editor.mkState (Editor.store MoreSamples.editor0)
               (Editor.confirm_overwrite MoreSamples.editor0)
               (Some (Editor.schema_selector_combo MoreSamples.selected_form)))
          = (st2, outcome2)
       /\ Editor.store st2
          !! Store.get_schema_filepath MoreSamples.config_dir
               (Editor.schema_selector_combo MoreSamples.selected_form) = None
       /\ Editor.confirm_delete st2 = None.
Proof.
  assert (H1 : Editor.schema_selector_combo MoreSamples.selected_form <> "")
    by discriminate.
  assert (H2 : Editor.confirm_delete MoreSamples.editor0
               <> Some (Editor.schema_selector_combo MoreSamples.selected_form))
    by discriminate.
  split; [exact H1|]. split; [exact H2|].
  destruct (delete_needs_second_click MoreSamples.looks_up
              MoreSamples.config_dir
              MoreSamples.selected_form MoreSamples.editor0 H1 H2)
    as (m1 & st2 & m2 & Hfirst & Hsecond & Hgone & _ & Hconf).
  now exists m1, st2, m2.
Defined.

End MoreExamples.
